(** * cvastrophoto: dark-frame calibration, frame accumulation and grid registration

    A shallow embedding of [cvastrophoto/raw.py] and
    [cvastrophoto/rops/tracking/grid.py].

    Conventions of the embedding.
    - The sources are Python 2 ([xrange], in-place [/=] on integer arrays):
      [/] between integers, and between integer numpy arrays and integers,
      is floor division.
    - A numpy array of pixels is the list of its elements in row-major
      order; an element of a [w]-bit integer array is a [Z] with the
      wrap-around of the dtype written out.
    - A Python exception is the [Raise] result of the [py] monad; a Python
      [None] result is the [None] of an [option].
    - Floating-point arithmetic is not modelled. The search takes the
      values of [scipy.stats.entropy] with their comparisons as parameters,
      the registration takes the float elements, [numpy.median] and the
      fit of skimage as parameters; the threshold [mink] and the margins of
      the region of interest are exact rationals. The parameters are
      instantiated on the reals (the Shannon entropy), on the integers (the
      order of two entropies) and on the rationals (the least-squares
      similarity fit) to evaluate the code on sample frames. *)

From Stdlib Require Import ZArith QArith Qround Reals Lra Lia List Bool Sorted.
From stdpp Require Import base option list gmap strings.

Local Open Scope Z_scope.

(** ** Python results *)

Inductive pyexc : Type :=
| ValueError           (* min() or max() of an empty sequence, shape mismatch, xrange step 0 *)
| ZeroDivisionError
| IndexError           (* too many indices for an array *)
| UnboundLocalError.

Inductive py (A : Type) : Type :=
| Ret (a : A)
| Raise (e : pyexc).
Arguments Ret {A} a.
Arguments Raise {A} e.

#[global] Instance py_ret : MRet py := fun A a => Ret a.
#[global] Instance py_bind : MBind py := fun A B f m =>
  match m with
  | Ret a => f a
  | Raise e => Raise e
  end.

(** ** Fixed-width integers *)

Definition wrap_uint16 (z : Z) : Z := z mod 2 ^ 16.
Definition wrap_uint32 (z : Z) : Z := z mod 2 ^ 32.
Definition wrap_int32 (z : Z) : Z := (z + 2 ^ 31) mod 2 ^ 32 - 2 ^ 31.

Definition is_uint16 (z : Z) : Prop := 0 <= z <= 65535.
Definition is_uint32 (z : Z) : Prop := 0 <= z < 2 ^ 32.

(** A pixel array, flattened. *)
Definition image : Type := list Z.

Definition astype_uint16 (a : image) : image := map wrap_uint16 a.
Definition astype_uint32 (a : image) : image := map wrap_uint32 a.
Definition astype_int32 (a : image) : image := map wrap_int32 a.

(** Element-wise binary operation of two arrays of the same shape; numpy
    raises [ValueError] when the shapes do not match (frames of one sensor:
    no broadcasting). *)
Definition elementwise (f : Z -> Z -> Z) (a b : image) : py image :=
  if decide (length a = length b) then Ret (zip_with f a b) else Raise ValueError.

(** [a.max()]: raises on an empty array. *)
Definition array_max (a : image) : py Z :=
  match a with
  | [] => Raise ValueError
  | x :: xs => Ret (fold_left Z.max xs x)
  end.

(** ** RawAccumulator *)

Module RawAccumulator.

Record t : Type := mk {
  accum : option image;      (* None, or a uint32 array *)
  num_images : Z
}.

(** [__init__] *)
Definition init : t := {| accum := None; num_images := 0 |}.

(** [__iadd__], [raw] being [raw.rimg.raw_image] *)
Definition iadd (self : t) (raw : image) : py t :=
  match accum self with
  | None =>
      Ret {| accum := Some (astype_uint32 raw); num_images := 1 |}
  | Some a =>
      a' ← elementwise (fun x y => wrap_uint32 (x + y)) a raw;
      Ret {| accum := Some a'; num_images := num_images self + 1 |}
  end.

(** [average]: [self.accum / self.num_images], an integer array divided by
    an integer. *)
Definition average (self : t) : option image :=
  match accum self with
  | Some a => Some (map (fun x => x / num_images self) a)
  | None => None
  end.

(** The loop
    [while maxval > 65535: shift += 1; maxval /= 2]
    of [raw_image]. Halving a positive binary number drops its last digit,
    so the loop is a structural recursion on the digits of [maxval]. *)
Fixpoint shift_loop_pos (shift : Z) (maxval : positive) : Z :=
  if 65535 <? Z.pos maxval then
    match maxval with
    | xO q | xI q => shift_loop_pos (shift + 1) q
    | xH => shift
    end
  else shift.

Definition shift_loop (shift maxval : Z) : Z :=
  match maxval with
  | Z.pos p => shift_loop_pos shift p
  | _ => shift
  end.

(** [raw_image] *)
Definition raw_image (self : t) : py (option image) :=
  match accum self with
  | Some a =>
      maxval ← array_max a;
      let shift := shift_loop 0 maxval in
      let a' := if decide (shift = 0) then a else map (fun x => Z.shiftr x shift) a in
      Ret (Some (astype_uint16 a'))
  | None => Ret None
  end.

(** The states an accumulator goes through: created empty, then frames
    added one at a time. *)
Inductive reachable : t -> Prop :=
| reachable_init : reachable init
| reachable_iadd self raw self' :
    reachable self -> iadd self raw = Ret self' -> reachable self'.

End RawAccumulator.

(** ** Raw frames *)

(** A [Raw] object, as far as calibration uses it: its identity (objects
    without [__eq__] or [__lt__] compare by identity in Python 2) and the
    decoded sensor buffer [rimg.raw_image], a uint16 array. *)
Record Raw : Type := mkRaw {
  raw_id : Z;
  raw_pixels : image
}.

(** ** The entropy objective *)

(** [dark_weighed = dark.astype(int32); dark_weighed *= k_num;
    dark_weighed /= k_denom] *)
Definition weigh_int32 (k_num k_denom : Z) (d : Z) : Z :=
  wrap_int32 (wrap_int32 (wrap_int32 d * k_num) / k_denom).

(** [scratch[:] = light; scratch -= dark_weighed;
    scratch = numpy.absolute(scratch)] *)
Definition entropy_residual (light dark : image) (k_denom k_num : Z) : py image :=
  let scratch := astype_int32 light in
  let dark_weighed := map (weigh_int32 k_num k_denom) dark in
  scratch ← elementwise (fun s d => wrap_int32 (s - d)) scratch dark_weighed;
  Ret (map (fun s => wrap_int32 (Z.abs s)) scratch).

(** [numpy.unique(a, return_counts=True)]: the sorted distinct values, each
    with its number of occurrences. *)
Fixpoint count_insert (x : Z) (h : list (Z * Z)) : list (Z * Z) :=
  match h with
  | [] => [(x, 1)]
  | (l, c) :: h' =>
      if x <? l then (x, 1) :: h
      else if x =? l then (l, c + 1) :: h'
      else (l, c) :: count_insert x h'
  end.

Definition unique_counts (a : image) : list (Z * Z) :=
  fold_right count_insert [] a.

(** The [counts] array handed to [scipy.stats.entropy]. *)
Definition entropy_counts (light dark : image) (k_denom k_num : Z) : py (list Z) :=
  r ← entropy_residual light dark k_denom k_num;
  Ret (map snd (unique_counts r)).

(** The objective as the specification words it: the weighted dark is
    clamped to the light value before the subtraction. *)
Definition clamped_residual (light dark : image) (k_denom k_num : Z) : py image :=
  r ← elementwise (fun l d => l - Z.min (d * k_num / k_denom) l) light dark;
  Ret (map Z.abs r).

Definition clamped_counts (light dark : image) (k_denom k_num : Z) : py (list Z) :=
  r ← clamped_residual light dark k_denom k_num;
  Ret (map snd (unique_counts r)).

(** [xrange(a, b)] *)
Definition xrange (a b : Z) : list Z :=
  map (fun i => a + Z.of_nat i) (seq 0 (Z.to_nat (b - a))).

(** [min(l)] of Python: the first least element; raises on an empty list. *)
Definition py_min {A : Type} (lt : A -> A -> bool) (l : list A) : py A :=
  match l with
  | [] => Raise ValueError
  | x :: xs => Ret (fold_left (fun m y => if lt y m then y else m) xs x)
  end.

(** [l.remove(x)]: drops the first element equal to [x], raises when there
    is none. *)
Fixpoint py_remove {A : Type} (eqb : A -> A -> bool) (x : A) (l : list A) : py (list A) :=
  match l with
  | [] => Raise ValueError
  | y :: l' => if eqb y x then Ret l' else (r ← py_remove eqb x l'; Ret (y :: r))
  end.

(** [[f(x) for x in l]], stopping at the first exception. *)
Fixpoint py_map {A B : Type} (f : A -> py B) (l : list A) : py (list B) :=
  match l with
  | [] => Ret []
  | x :: l' => y ← f x; ys ← py_map f l'; Ret (y :: ys)
  end.

Definition Qltb (a b : Q) : bool := negb (Qle_bool b a).

(** [base / float(denom)] *)
Definition weight_ratio (base denom : Z) : py Q :=
  if decide (denom = 0) then Raise ZeroDivisionError
  else Ret (inject_Z base / inject_Z denom)%Q.

Section DarkWeightSearch.

(** The values of [scipy.stats.entropy]: a type with the comparisons [<]
    and [==] that [min] and [list.remove] use on them. *)
Variable E : Type.
Variable E_ltb : E -> E -> bool.
Variable E_eqb : E -> E -> bool.
Variable shannon : list Z -> E.

(** The parameters [steps], [maxsteps] and [mink] of
    [find_entropy_weights]. *)
Variable steps : Z.
Variable maxsteps : Z.
Variable mink : Q.

(** [entropy(light, dark, k_denom, k_num, return_params=True)] *)
Definition entropy (light : image) (dark : Raw) (k_denom k_num : Z) : py (E * Z * Z) :=
  counts ← entropy_counts light (raw_pixels dark) k_denom k_num;
  Ret (shannon counts, k_num, k_denom).

(** The specification's objective, with the same entropy function. *)
Definition entropy_clamped (light : image) (dark : Raw) (k_denom k_num : Z) : py (E * Z * Z) :=
  counts ← clamped_counts light (raw_pixels dark) k_denom k_num;
  Ret (shannon counts, k_num, k_denom).

(** Python's comparison of tuples: the first components that differ
    decide. *)
Definition range_eqb (a b : E * Z * Z) : bool :=
  let '(e1, n1, d1) := a in
  let '(e2, n2, d2) := b in
  E_eqb e1 e2 && (n1 =? n2) && (d1 =? d2).

Definition range_ltb (a b : E * Z * Z) : bool :=
  let '(e1, n1, d1) := a in
  let '(e2, n2, d2) := b in
  if negb (E_eqb e1 e2) then E_ltb e1 e2
  else if negb (n1 =? n2) then n1 <? n2
  else d1 <? d2.

Definition entry : Type := (E * Z * Z) * Raw.

Definition entry_eqb (a b : entry) : bool :=
  range_eqb (fst a) (fst b) && (raw_id (snd a) =? raw_id (snd b)).

Definition entry_ltb (a b : entry) : bool :=
  if negb (range_eqb (fst a) (fst b)) then range_ltb (fst a) (fst b)
  else raw_id (snd a) <? raw_id (snd b).

(** [_refine_entropy(light, dark, steps, denom, base)]; a pool maps in
    order, like [map]. *)
Definition _refine_entropy (light : image) (dark : Raw) (denom base : Z) : py (E * Z * Z) :=
  let base := base * steps in
  let denom := denom * steps in
  dark_ranges ← py_map (entropy light dark denom) (xrange base (base + steps));
  py_min range_ltb dark_ranges.

(** The initial, and the reset, ranges: every dark searched from [0/1]. *)
Definition initial_ranges (light : image) (darks : list Raw) : py (list entry) :=
  py_map (fun dark => r ← _refine_entropy light dark 1 0; Ret (r, dark)) darks.

(** [find_entropy_weights] is a generator. Its state between two [next]
    calls is where it is suspended; [light] is the light frame's buffer as
    it is when the generator is resumed (the caller may have changed it in
    place since the last [yield]). *)
Inductive gen_state : Type :=
| GenStart (darks : list Raw)
| GenSuspended (base denom : Z) (ranges : list entry)   (* at the [yield] *)
| GenDone.

Inductive gen_out : Type :=
| Yield (dark : Raw) (base denom : Z)
| StopIteration.

(** The [while ranges] loop, run until the next [yield] or the end. One unit
    of [fuel] is one iteration; [None] is a loop still running when the
    fuel is spent. *)
Fixpoint while_ranges (fuel : nat) (light : image) (ranges : list entry)
  : option (py (gen_out * gen_state)) :=
  match fuel with
  | O => None
  | S fuel' =>
      match ranges with
      | [] => Some (Ret (StopIteration, GenDone))
      | _ :: _ =>
          match (best ← py_min entry_ltb ranges;
                 ranges' ← py_remove entry_eqb best ranges;
                 let '((_, base, denom), dark) := best in
                 refined ← _refine_entropy light dark denom base;
                 Ret (ranges', dark, refined)) with
          | Raise e => Some (Raise e)
          | Ret (ranges', dark, (e, base, denom)) =>
              if maxsteps <=? denom
              then Some (Ret (Yield dark base denom, GenSuspended base denom ranges'))
              else while_ranges fuel' light (ranges' ++ [((e, base, denom), dark)])
          end
      end
  end.

(** One [next()] on the generator. *)
Definition gen_next (fuel : nat) (light : image) (st : gen_state)
  : option (py (gen_out * gen_state)) :=
  match st with
  | GenStart darks =>
      match initial_ranges light darks with
      | Raise e => Some (Raise e)
      | Ret ranges => while_ranges fuel light ranges
      end
  | GenSuspended base denom ranges =>
      match weight_ratio base denom with
      | Raise e => Some (Raise e)
      | Ret ratio =>
          if Qltb ratio mink
          then Some (Ret (StopIteration, GenDone))       (* Close enough: break *)
          else
            match initial_ranges light (map snd ranges) with
            | Raise e => Some (Raise e)
            | Ret ranges' => while_ranges fuel light ranges'
            end
      end
  | GenDone => Some (Ret (StopIteration, GenDone))
  end.

(** A [for dark, k_num, k_denom in find_entropy_weights(...)] loop whose
    body [body] rewrites the light buffer; the result is the list of the
    triples yielded and the final buffer. [rounds] bounds the number of
    [next()] calls. *)
Fixpoint for_weights (rounds fuel : nat) (body : image -> Raw -> Z -> Z -> py image)
    (light : image) (st : gen_state) : option (py (list (Raw * Z * Z) * image)) :=
  match rounds with
  | O => None
  | S rounds' =>
      match gen_next fuel light st with
      | None => None
      | Some (Raise e) => Some (Raise e)
      | Some (Ret (StopIteration, _)) => Some (Ret ([], light))
      | Some (Ret (Yield dark k_num k_denom, st')) =>
          match body light dark k_num k_denom with
          | Raise e => Some (Raise e)
          | Ret light' =>
              match for_weights rounds' fuel body light' st' with
              | None => None
              | Some (Raise e) => Some (Raise e)
              | Some (Ret (out, light'')) => Some (Ret ((dark, k_num, k_denom) :: out, light''))
              end
          end
      end
  end.

(** The body of the loop of [Raw.denoise]:
    [dark_weighed = dark.astype(uint32); dark_weighed *= k_num;
     dark_weighed /= k_denom;
     dark_weighed = numpy.minimum(dark_weighed, raw_image);
     raw_image -= dark_weighed] *)
Definition weigh_uint32 (k_num k_denom : Z) (d : Z) : Z :=
  wrap_uint32 (wrap_uint32 (wrap_uint32 d * k_num) / k_denom).

Definition subtract_dark (raw_image : image) (dark : Raw) (k_num k_denom : Z) : py image :=
  let dark_weighed := map (weigh_uint32 k_num k_denom) (raw_pixels dark) in
  dark_weighed ← elementwise Z.min dark_weighed raw_image;
  elementwise (fun l d => wrap_uint16 (l - d)) raw_image dark_weighed.

(** [Raw.denoise(darks)]: the triples applied and the denoised buffer. *)
Definition denoise (rounds fuel : nat) (self : Raw) (darks : list Raw)
  : option (py (list (Raw * Z * Z) * image)) :=
  for_weights rounds fuel subtract_dark (raw_pixels self) (GenStart darks).

(** [list(find_entropy_weights(light, darks))]: the light frame is not
    touched between two [next()] calls. *)
Definition find_entropy_weights (rounds fuel : nat) (light : Raw) (darks : list Raw)
  : option (py (list (Raw * Z * Z))) :=
  match for_weights rounds fuel (fun l _ _ _ => Ret l) (raw_pixels light) (GenStart darks) with
  | None => None
  | Some (Raise e) => Some (Raise e)
  | Some (Ret (out, _)) => Some (Ret out)
  end.

End DarkWeightSearch.

(** ** GridTrackingRop *)

(** [xrange(start, stop, step)] *)
Definition xrange_step (start stop step : Z) : py (list Z) :=
  if decide (step = 0) then Raise ValueError
  else
    let n := if 0 <? step then (stop - start + step - 1) / step
             else (start - stop - step - 1) / (- step) in
    Ret (map (fun i => start + Z.of_nat i * step) (seq 0 (Z.to_nat n))).

(** Integer division of two Python integers. *)
Definition py_div (a b : Z) : py Z :=
  if decide (b = 0) then Raise ZeroDivisionError else Ret (a / b).

(** [int(x)] of a float: truncation towards zero. *)
Definition py_int (x : Q) : Z :=
  if Qle_bool 0 x then Qfloor x else Qceiling x.

(** [raw.rimg.sizes], the fields the constructor reads. *)
Record Sizes : Type := mkSizes {
  top_margin : Z;
  left_margin : Z;
  iheight : Z;
  iwidth : Z
}.

(** The grid coordinates computed by [__init__], in the order the trackers
    are appended: rows of the grid outermost. *)
Definition grid_points (sizes : Sizes) (grid_size : Z * Z) (track_roi : Q * Q * Q * Q)
  : py (list (Z * Z)) :=
  let '(tmargin, lmargin, bmargin, rmargin) := track_roi in
  let t := top_margin sizes + py_int (tmargin * inject_Z (iheight sizes)) in
  let l := left_margin sizes + py_int (lmargin * inject_Z (iwidth sizes)) in
  let b := top_margin sizes + iheight sizes - py_int (bmargin * inject_Z (iheight sizes)) in
  let r := left_margin sizes + iwidth sizes - py_int (rmargin * inject_Z (iwidth sizes)) in
  yspacing ← py_div (b - t) (fst grid_size);
  xspacing ← py_div (r - l) (snd grid_size);
  ys ← xrange_step (t + yspacing / 2) b yspacing;
  match ys with
  | [] => Ret []
  | _ :: _ =>
      xs ← xrange_step (l + xspacing / 2) r xspacing;
      Ret (y ← ys; x ← xs; [(y, x)])
  end.

(** The class attributes [grid_size] and [track_roi]. *)
Definition default_grid_size : Z * Z := (3, 3).
Definition default_track_roi : Q * Q * Q * Q := (0, 0, 0, 0)%Q.

(** A frame is cached under its [name] attribute, or under its [id()]. *)
Definition Key : Type := string + Z.

Section GridTracking.

(** The elements of the float arrays, with the comparison [<], the
    conversion of a Python integer and the in-place division of an element
    by a Python integer; [numpy.median]. *)
Variable F : Type.
Variable F_ltb : F -> F -> bool.
Variable F_of_Z : Z -> F.
Variable F_div : F -> Z -> F.
Variable median : list F -> F.

(** [skimage.transform.estimate_transform(self.transform_type, src, dst)],
    and the squared error
    [numpy.sum(numpy.square(dst - transform(src)), axis=1)] of one row. *)
Variable Transform : Type.
Variable estimate_transform : list (F * F) -> list (F * F) -> Transform.
Variable shift_mag : Transform -> F * F -> F * F -> F.

(** One row of [translations]:
    [grid_coords + translate_coords(bias, *grid_coords)
     + translate_coords(bias, 0, 0)]. *)
Record Row : Type := mkRow {
  col0 : F; col1 : F; col2 : F; col3 : F; col4 : F; col5 : F
}.

(** [translations[:, [3, 2]]] and [translations[:, [1, 0]]] *)
Definition src (r : Row) : F * F := (col3 r, col2 r).
Definition dst (r : Row) : F * F := (col1 r, col0 r).

(** [a.max()] of a non-empty float array *)
Definition F_max (x : F) (xs : list F) : F :=
  fold_left (fun m y => if F_ltb m y then y else m) xs x.

Inductive loop_end : Type :=
| LoopRejected                       (* [return None] inside the loop *)
| LoopExit (median_shift_mag : F) (translations : list Row) (transform : option Transform).

Variable median_shift_limit : F.

(** The squared error of a row under a transform: an element of
    [shift_mags]. *)
Definition row_shift_mag (transform : Transform) (r : Row) : F :=
  shift_mag transform (src r) (dst r).

(** One iteration of the body of the [while] loop, entered with
    [translations] (more than 3 rows): the fitted transform, the median and
    what is left of the samples ([None]: the frame is rejected). The mask
    [shift_mags < shift_mags.max()] selects rows by their own squared
    error. *)
Definition fit_round (translations : list Row) : Transform * F * option (list Row) :=
  let transform := estimate_transform (map src translations) (map dst translations) in
  let shift_mags := map (row_shift_mag transform) translations in
  let median_shift_mag := median shift_mags in
  if F_ltb median_shift_limit median_shift_mag then
    let worst := match shift_mags with [] => median_shift_mag | x :: xs => F_max x xs end in
    let ntranslations :=
      List.filter (fun r => F_ltb (row_shift_mag transform r) worst) translations in
    if 3 <=? Z.of_nat (length ntranslations)
    then (transform, median_shift_mag, Some ntranslations)
    else (transform, median_shift_mag, None)
  else (transform, median_shift_mag, Some translations).

(** The loop
    [while median_shift_mag > self.median_shift_limit and len(translations) > 3]. *)
Fixpoint fit_loop (fuel : nat) (median_shift_mag : F) (translations : list Row)
    (transform : option Transform) : option loop_end :=
  match fuel with
  | O => None
  | S fuel' =>
      if F_ltb median_shift_limit median_shift_mag && (3 <? Z.of_nat (length translations))
      then
        match fit_round translations with
        | (transform', median', Some translations') =>
            fit_loop fuel' median' translations' (Some transform')
        | (_, _, None) => Some LoopRejected
        end
      else Some (LoopExit median_shift_mag translations transform)
  end.

(** After the loop:
    [if median_shift_mag > self.median_shift_limit or len(translations) <= 4:
       return None] and then [return transform, lyscale, lxscale]. *)
Definition fit_end (e : loop_end) : py (option Transform) :=
  match e with
  | LoopRejected => Ret None
  | LoopExit median_shift_mag translations transform =>
      if F_ltb median_shift_limit median_shift_mag || (Z.of_nat (length translations) <=? 4)
      then Ret None
      else
        match transform with
        | Some tr => Ret (Some tr)
        | None => Raise UnboundLocalError        (* [transform] was never bound *)
        end
  end.

(** The number of loop iterations allowed for [translations]: an iteration
    that does not end the loop drops a sample. *)
Definition fit_fuel (translations : list Row) : nat := S (S (length translations)).

(** [detect] from [median_shift_mag = 100] on. *)
Definition fit_transform (translations : list Row) : option (py (option Transform)) :=
  fit_end <$> fit_loop (fit_fuel translations) (F_of_Z 100) translations None.

(** *** The measurement and its cache *)

(** The collaborators: frames and their cache keys
    ([getattr(data, 'name', id(data))]), the raw decoder ([set_raw_image],
    the luma of its preview, the shapes of [raw_image_visible] and of
    [postprocessed]), the optional deglow step and the point trackers
    ([tracker.detect] followed by the two [translate_coords], which may
    update or raise). *)
Variable Frame : Type.
Variable frame_key : Frame -> Key.
Variable RawState : Type.
Variable Luma : Type.
Variable set_raw_image : RawState -> Frame -> RawState.
Variable luma_of : RawState -> Luma.
Variable vshape_of : RawState -> Z * Z.
Variable lshape_of : RawState -> Z * Z.
Variable deglow : option (Frame -> Frame).
Variable TrackerState : Type.
Variable tracker_detect :
  TrackerState -> Frame -> option Frame -> Luma -> py (TrackerState * (F * F * F * F)).

(** [self._raw_pattern.shape] *)
Variable pattern_shape : Z * Z.

Record Tracker : Type := mkTracker {
  grid_coords : Z * Z;
  tracker_state : TrackerState
}.

Definition cache_entry : Type := list Row * (Z * Z) * (Z * Z).

(** The mutable part of a [GridTrackingRop]. [tracker_calls] is ghost
    state: the number of [tracker.detect] calls made so far. *)
Record GridTrackingRop : Type := mkRop {
  raw : RawState;
  trackers : list Tracker;
  tracking_cache : option (gmap Key cache_entry);
  lyscale : option Z;
  lxscale : option Z;
  tracker_calls : nat
}.

(** The closure [detect(tracker)] mapped over [self.trackers], in order. *)
Fixpoint map_detect (data : Frame) (img : option Frame) (luma : Luma) (ts : list Tracker)
  : nat * py (list Tracker * list Row) :=
  match ts with
  | [] => (O, Ret ([], []))
  | t :: ts' =>
      match tracker_detect (tracker_state t) data img luma with
      | Raise e => (1%nat, Raise e)
      | Ret (st, (ty, tx, oy, ox)) =>
          let row := mkRow (F_of_Z (fst (grid_coords t))) (F_of_Z (snd (grid_coords t)))
                           ty tx oy ox in
          let '(n, r) := map_detect data img luma ts' in
          (S n,
           match r with
           | Raise e => Raise e
           | Ret (ts'', rows) => Ret (mkTracker (grid_coords t) st :: ts'', row :: rows)
           end)
      end
  end.

(** [translations[:, [0, 2]] /= ydiv; translations[:, [1, 3]] /= xdiv], on
    the copy of the cached array. *)
Definition rescale (ydiv xdiv : Z) (r : Row) : Row :=
  mkRow (F_div (col0 r) ydiv) (F_div (col1 r) xdiv)
        (F_div (col2 r) ydiv) (F_div (col3 r) xdiv) (col4 r) (col5 r).

(** [detect] after the cache lookup: from [translations.copy()] on. The
    first component is the pair [lyscale, lxscale] stored in [self]. With no
    tracker at all the array of measurements has one dimension only and
    [translations[:, [0, 2]]] raises. *)
Definition detect_fit (entry : cache_entry)
  : (option Z * option Z) * option (py (option (Transform * Z * Z))) :=
  let '(translations, vshape, lshape) := entry in
  match py_div (fst vshape) (fst lshape) with
  | Raise e => ((None, None), Some (Raise e))
  | Ret ly =>
      match py_div (snd vshape) (snd lshape) with
      | Raise e => ((Some ly, None), Some (Raise e))
      | Ret lx =>
          ((Some ly, Some lx),
           let '(ysize, xsize) := pattern_shape in
           match (_ ← (if decide (translations = []) then Raise IndexError else Ret tt);
                  ydiv ← py_div ysize ly; xdiv ← py_div xsize lx; Ret (ydiv, xdiv)) with
           | Raise e => Some (Raise e)
           | Ret (ydiv, xdiv) =>
               match fit_transform (map (rescale ydiv xdiv) translations) with
               | None => None
               | Some (Raise e) => Some (Raise e)
               | Some (Ret None) => Some (Ret None)
               | Some (Ret (Some tr)) => Some (Ret (Some (tr, ly, lx)))
               end
           end)
      end
  end.

Definition or_else {A : Type} (old new : option A) : option A :=
  match new with Some _ => new | None => old end.

(** [detect(data, img=img, set_data=set_data, luma=luma)]: the state after
    the call and its result. [data] is the frame itself (a list of
    components is replaced by its head on entry); [img or data] names the
    frame. An exception in a tracker leaves the cache without the entry. *)
Definition detect (self : GridTrackingRop) (data : Frame) (img : option Frame)
    (set_data : bool) (luma : option Luma)
  : GridTrackingRop * option (py (option (Transform * Z * Z))) :=
  let cache := default ∅ (tracking_cache self) in
  let tracking_key := frame_key (default data img) in
  match cache !! tracking_key with
  | None =>
      let data := if set_data then match deglow with Some f => f data | None => data end
                  else data in
      let raw' := if set_data then set_raw_image (raw self) data else raw self in
      let luma := default (luma_of raw') luma in
      let vshape := vshape_of raw' in
      let lshape := lshape_of raw' in
      let '(calls, mapped) := map_detect data img luma (trackers self) in
      match mapped with
      | Raise e =>
          (mkRop raw' (trackers self) (Some cache) (lyscale self) (lxscale self)
                 (tracker_calls self + calls), Some (Raise e))
      | Ret (trackers', translations) =>
          let entry := (translations, vshape, lshape) in
          let '((ly, lx), result) := detect_fit entry in
          (mkRop raw' trackers' (Some (<[tracking_key := entry]> cache))
                 (or_else (lyscale self) ly) (or_else (lxscale self) lx)
                 (tracker_calls self + calls), result)
      end
  | Some entry =>
      let '((ly, lx), result) := detect_fit entry in
      (mkRop (raw self) (trackers self) (Some cache)
             (or_else (lyscale self) ly) (or_else (lxscale self) lx)
             (tracker_calls self), result)
  end.

(** [__init__]: one tracker per grid point. *)
Variable tracker_init : Z * Z -> TrackerState.

Definition init (raw0 : RawState) (sizes : Sizes) (grid_size : Z * Z)
    (track_roi : Q * Q * Q * Q) : py GridTrackingRop :=
  points ← grid_points sizes grid_size track_roi;
  Ret (mkRop raw0 (map (fun c => mkTracker c (tracker_init c)) points) None None None O).

End GridTracking.

Arguments mkRow {F} _ _ _ _ _ _.
Arguments col0 {F} _.
Arguments col1 {F} _.
Arguments col2 {F} _.
Arguments col3 {F} _.
Arguments col4 {F} _.
Arguments col5 {F} _.
Arguments src {F} _.
Arguments dst {F} _.
Arguments row_shift_mag {F Transform} _ _ _.
Arguments fit_fuel {F} _.
Arguments LoopRejected {F Transform}.
Arguments LoopExit {F Transform} _ _ _.
Arguments mkTracker {TrackerState} _ _.
Arguments grid_coords {TrackerState} _.
Arguments tracker_state {TrackerState} _.
Arguments mkRop {F RawState TrackerState} _ _ _ _ _ _.
Arguments raw {F RawState TrackerState} _.
Arguments trackers {F RawState TrackerState} _.
Arguments tracking_cache {F RawState TrackerState} _.
Arguments lyscale {F RawState TrackerState} _.
Arguments lxscale {F RawState TrackerState} _.
Arguments tracker_calls {F RawState TrackerState} _.

(** ** Exact instances of the numeric parameters *)

(** The float parameters of the registration instantiated on the
    rationals: comparison, division, [numpy.median] (the middle element of
    the sorted array, or the mean of the two middle ones) and the
    least-squares similarity transform [x -> [[a, -b], [b, a]] x + t], whose
    parameters are rational in the data. *)
Module Exact.

Local Open Scope Q_scope.

Definition div_Z (x : Q) (z : Z) : Q := Qred (x / inject_Z z).

Fixpoint insert_sorted (x : Q) (l : list Q) : list Q :=
  match l with
  | [] => [x]
  | y :: l' => if Qle_bool x y then x :: l else y :: insert_sorted x l'
  end.

Definition sort (l : list Q) : list Q := fold_right insert_sorted [] l.

Definition median (l : list Q) : Q :=
  let s := sort l in
  let n := length s in
  if Nat.even n
  then Qred ((nth (n / 2 - 1) s 0 + nth (n / 2) s 0) / 2)
  else nth (n / 2) s 0.

Definition sum (l : list Q) : Q := Qred (fold_right Qplus 0 l).
Definition mean (l : list Q) : Q := Qred (sum l / inject_Z (Z.of_nat (length l))).

(** A similarity transform: [(a, b, tx, ty)]. *)
Definition Similarity : Type := Q * Q * Q * Q.

Definition apply (T : Similarity) (p : Q * Q) : Q * Q :=
  let '(a, b, tx, ty) := T in
  (a * fst p - b * snd p + tx, b * fst p + a * snd p + ty).

Definition estimate (src dst : list (Q * Q)) : Similarity :=
  let sx := mean (map fst src) in
  let sy := mean (map snd src) in
  let dx := mean (map fst dst) in
  let dy := mean (map snd dst) in
  let dot := sum (zip_with (fun s d => (fst s - sx) * (fst d - dx) + (snd s - sy) * (snd d - dy)) src dst) in
  let cross := sum (zip_with (fun s d => (fst s - sx) * (snd d - dy) - (snd s - sy) * (fst d - dx)) src dst) in
  let var := sum (map (fun s => (fst s - sx) * (fst s - sx) + (snd s - sy) * (snd s - sy)) src) in
  let a := Qred (dot / var) in
  let b := Qred (cross / var) in
  (a, b, Qred (dx - (a * sx - b * sy)), Qred (dy - (b * sx + a * sy))).

Definition shift_mag (T : Similarity) (s d : Q * Q) : Q :=
  let p := apply T s in
  Qred ((fst d - fst p) * (fst d - fst p) + (snd d - snd p) * (snd d - snd p)).

Definition row (gy gx ty tx : Z) : Row Q :=
  mkRow (inject_Z gy) (inject_Z gx) (inject_Z ty) (inject_Z tx) 0 0.

Definition fit_round (limit : Q) := fit_round Q Qltb median Similarity estimate shift_mag limit.
Definition fit_loop (limit : Q) := fit_loop Q Qltb median Similarity estimate shift_mag limit.
Definition fit_transform (limit : Q) :=
  fit_transform Q Qltb inject_Z median Similarity estimate shift_mag limit.

(** A static frame seen by a 2x2 grid: every tracker measures its own grid
    position. *)
Definition static_2x2 : list (Row Q) :=
  [row 100 100 100 100; row 100 300 100 300; row 300 100 300 100; row 300 300 300 300].

(** Six trackers of a 2x3 grid whose measurements err by opposite offsets
    at opposite grid points, chosen so that the least-squares fit is the
    identity: the squared errors are 144, 20, 136, 136, 20, 144. *)
Definition symmetric_2x3 : list (Row Q) :=
  [row 150 150 150 138; row 150 450 154 448; row 150 750 160 744;
   row 450 150 440 156; row 450 450 446 452; row 450 750 450 762].

(** A 3x3 grid with one wild measurement. *)
Definition outlier_3x3 : list (Row Q) :=
  [row 150 150 150 150; row 150 450 150 450; row 150 750 150 750;
   row 450 150 450 150; row 450 450 490 410; row 450 750 450 750;
   row 750 150 750 150; row 750 450 750 450; row 750 750 750 750].

End Exact.

(** The order of the Shannon entropies of two histograms of the same
    number of pixels, decided on integers: with [n] the number of pixels,
    [H(counts) = ln n - ln (prod c^c) / n], so a histogram has the lower
    entropy when its product of [c^c] is the larger. *)
Module Rank.

Definition shannon (counts : list Z) : Z :=
  fold_right (fun c acc => c ^ c * acc) 1 counts.
Definition ltb (a b : Z) : bool := b <? a.
Definition eqb (a b : Z) : bool := a =? b.

End Rank.

(** [scipy.stats.entropy(counts)] on the reals: the counts are normalised
    to probabilities [p] and the result is the sum of [- p ln p]. *)
Module Shannon.

Definition total (counts : list Z) : Z := fold_right Z.add 0 counts.

Definition entr (p : R) : R := (- (p * ln p))%R.

Definition entropy (counts : list Z) : R :=
  fold_right (fun c acc => (entr (IZR c / IZR (total counts)) + acc)%R) 0%R counts.

End Shannon.

(** ** Sample frames *)

Module Samples.

Definition light : Raw := mkRaw 0 [60; 120; 40; 100; 28; 56].
Definition dark1 : Raw := mkRaw 1 [80; 200; 40; 160; 16; 72].
Definition dark2 : Raw := mkRaw 2 [0; 3; 1; 2; 5; 0].

(** The parameters [steps=8, maxsteps=512, mink=0.01] of
    [find_entropy_weights]. *)
Definition steps : Z := 8.
Definition maxsteps : Z := 512.
Definition mink : Q := 1 # 100.

Definition gen_next := gen_next Z Rank.ltb Rank.eqb Rank.shannon steps maxsteps mink.
Definition denoise := denoise Z Rank.ltb Rank.eqb Rank.shannon steps maxsteps mink.
Definition find_entropy_weights :=
  find_entropy_weights Z Rank.ltb Rank.eqb Rank.shannon steps maxsteps mink.


(** An accumulator after the two one-pixel frames [[1]] and [[2]], and one
    after two frames of three bright pixels. *)
Definition acc_1_2 : RawAccumulator.t :=
  {| RawAccumulator.accum := Some [3]; RawAccumulator.num_images := 2 |}.
Definition acc_bright : RawAccumulator.t :=
  {| RawAccumulator.accum := Some [131070; 7; 65536]; RawAccumulator.num_images := 2 |}.

End Samples.

(** What the specification asks of [average]: each element is the exact
    quotient of the sum by the number of frames. *)
Definition average_is_exact (self : RawAccumulator.t) : Prop :=
  exists avg a,
    RawAccumulator.average self = Some avg /\ RawAccumulator.accum self = Some a /\
    Forall2 (fun v x => inject_Z v == inject_Z x / inject_Z (RawAccumulator.num_images self))%Q
            avg a.

(** The count a histogram records for the value [v]. *)
Definition hist_count (h : list (Z * Z)) (v : Z) : Z :=
  fold_right (fun e acc => if fst e =? v then snd e + acc else acc) 0 h.

(** One weighted dark applied by [denoise]: at every pixel the amount
    subtracted is the weighted dark clamped to the light value, and the new
    pixel is their difference. *)
Definition clamped_step (before : image) (dark : Raw) (k_num k_denom : Z) (after : image) : Prop :=
  length after = length before /\
  forall (i : nat) (l : Z), before !! i = Some l ->
    exists d, raw_pixels dark !! i = Some d /\
      let w := Z.min (weigh_uint32 k_num k_denom d) l in
      0 <= w <= l /\ after !! i = Some (l - w).

Inductive clamped_run : image -> list (Raw * Z * Z) -> image -> Prop :=
| clamped_run_nil l : clamped_run l [] l
| clamped_run_cons l dark k_num k_denom l' ts l'' :
    clamped_step l dark k_num k_denom l' ->
    clamped_run l' ts l'' ->
    clamped_run l ((dark, k_num, k_denom) :: ts) l''.

(** A registration over stub collaborators: frames are their [id()], the
    raw and its preview have the same 1800x1800 shape, the mosaic pattern
    is 2x2, and every tracker measures its own grid position (a static
    scene). *)
Module Rig.

Definition tracker_detect (st : Z * Z) (data : Z) (img : option Z) (luma : unit)
  : py ((Z * Z) * (Q * Q * Q * Q)) :=
  Ret (st, (inject_Z (fst st), inject_Z (snd st), 0%Q, 0%Q)).

Definition detect :=
  detect Q Qltb inject_Z Exact.div_Z Exact.median Exact.Similarity Exact.estimate
         Exact.shift_mag 2%Q
         Z (fun f => inr f) unit unit (fun _ _ => tt) (fun _ => tt)
         (fun _ => (1800, 1800)) (fun _ => (1800, 1800)) None
         (Z * Z) tracker_detect (2, 2).

Definition rop0 : GridTrackingRop Q unit (Z * Z) :=
  mkRop tt
    (map (fun c => mkTracker c c)
       [(150, 150); (150, 450); (150, 750); (450, 150); (450, 450); (450, 750);
        (750, 150); (750, 450); (750, 750)])
    None None None O.

(** The registration after a first [detect] of the frame 7. *)
Definition rop1 : GridTrackingRop Q unit (Z * Z) := fst (detect rop0 7 None true None).

End Rig.

(** The number of refinements the ranges are away from the ceiling, at
    most: the measure that bounds the [while ranges] loop. *)
Definition range_denom {E : Type} (r : (E * Z * Z) * Raw) : Z := snd (fst r).

Definition ranges_measure {E : Type} (maxsteps : Z) (ranges : list ((E * Z * Z) * Raw)) : nat :=
  fold_right (fun r acc => (Z.to_nat (maxsteps - range_denom r) + acc)%nat) O ranges.

(** ** Uses of the accumulator *)

(** [for raw in frames: acc += raw], and the accumulator of a list of
    frames. *)
Fixpoint iadd_all (self : RawAccumulator.t) (frames : list image) : py RawAccumulator.t :=
  match frames with
  | [] => Ret self
  | raw :: frames' => self' ← RawAccumulator.iadd self raw; iadd_all self' frames'
  end.

Definition accumulate (frames : list image) : py RawAccumulator.t :=
  iadd_all RawAccumulator.init frames.

(** The exact sum of the pixel [i] over the frames. *)
Definition column_sum (frames : list image) (i : nat) : Z :=
  fold_right (fun f acc => default 0 (f !! i) + acc) 0 frames.

(** ** The state of the search *)

(** The dark frames a suspended search still holds. *)
Definition gen_darks {E : Type} (st : gen_state E) : list Raw :=
  match st with
  | GenStart _ darks => darks
  | GenSuspended _ _ _ ranges => map snd ranges
  | GenDone _ => []
  end.

(** Loop iterations that one [next()] needs at most with [n] dark frames:
    every range starts at the denominator [steps] and each iteration but
    the last multiplies one denominator. *)
Definition search_fuel (steps maxsteps : Z) (n : nat) : nat :=
  S (n * Z.to_nat (maxsteps - steps)).

Definition range_base {E : Type} (r : (E * Z * Z) * Raw) : Z := snd (fst (fst r)).

(** The weight of a range is a fraction of [[0, 1)]. *)
Definition unit_range {E : Type} (r : (E * Z * Z) * Raw) : Prop :=
  0 <= range_base r < range_denom r.

(** A range below the ceiling, of a dark frame of the shape of the light
    frame. *)
Definition spinning {E : Type} (maxsteps : Z) (light : image) (r : (E * Z * Z) * Raw) : Prop :=
  range_denom r < maxsteps /\ length (raw_pixels (snd r)) = length light.

(** ** The grid of a tracked region *)

(** [__init__] from [yspacing = (b-t) / self.grid_size[0]] on: the grid
    coordinates for the integer bounds [t], [l], [b], [r] of the tracked
    region, whatever the margins and their truncated products are. *)
Definition grid_of_region (t l b r : Z) (grid_size : Z * Z) : py (list (Z * Z)) :=
  yspacing ← py_div (b - t) (fst grid_size);
  xspacing ← py_div (r - l) (snd grid_size);
  ys ← xrange_step (t + yspacing / 2) b yspacing;
  match ys with
  | [] => Ret []
  | _ :: _ =>
      xs ← xrange_step (l + xspacing / 2) r xspacing;
      Ret (y ← ys; x ← xs; [(y, x)])
  end.

(** The coordinates of [n] cells of size [spacing] from [origin] on, each
    at half a spacing from the start of its cell. *)
Definition cell_centers (origin spacing : Z) (n : nat) : list Z :=
  map (fun i => origin + spacing / 2 + Z.of_nat i * spacing) (seq 0 n).

(** The first two columns of a row of measurements, and what [detect] puts
    there: [list(tracker.grid_coords)]. *)
Definition row_coords {F : Type} (r : Row F) : F * F := (col0 r, col1 r).

Definition tracker_coords {F TrackerState : Type} (F_of_Z : Z -> F)
    (t : Tracker TrackerState) : F * F :=
  (F_of_Z (fst (grid_coords t)), F_of_Z (snd (grid_coords t))).

(** ** GridTrackingRop: saved states *)

Section GridState.

Variable F : Type.
Variable RawState : Type.
Variable TrackerState : Type.

(** The tracker class: [tracker_class(self.raw, copy=False)],
    [set_reference], [get_state] and [load_state]. *)
Variable TrackerSaved : Type.
Variable tracker_class : RawState -> TrackerState.
Variable tracker_set_reference : TrackerState -> Z * Z -> TrackerState.
Variable tracker_get_state : TrackerState -> TrackerSaved.
Variable tracker_load_state : TrackerState -> TrackerSaved -> TrackerState.

(** The dictionary with the keys ['trackers'], ['grid_coords'] and
    ['cache']; [state.get('cache')] of a dictionary without the key is
    [None]. *)
Record State : Type := mkState {
  state_trackers : list TrackerSaved;
  state_grid_coords : list (Z * Z);
  state_cache : option (gmap Key (cache_entry F))
}.

Definition get_state (self : GridTrackingRop F RawState TrackerState) : State :=
  mkState (map (fun t => tracker_get_state (tracker_state t)) (trackers self))
          (map grid_coords (trackers self))
          (tracking_cache self).

(** One tracker per pair of [zip(state['grid_coords'], state['trackers'])]. *)
Definition restore_tracker (raw0 : RawState) (coords : Z * Z) (saved : TrackerSaved)
  : Tracker TrackerState :=
  mkTracker coords
    (tracker_load_state (tracker_set_reference (tracker_class raw0) coords) saved).

Definition load_state (self : GridTrackingRop F RawState TrackerState) (state : State)
  : GridTrackingRop F RawState TrackerState :=
  mkRop (raw self)
        (zip_with (restore_tracker (raw self)) (state_grid_coords state) (state_trackers state))
        (state_cache state) (lyscale self) (lxscale self) (tracker_calls self).

End GridState.

Arguments mkState {F TrackerSaved} _ _ _.
Arguments state_trackers {F TrackerSaved} _.
Arguments state_grid_coords {F TrackerSaved} _.
Arguments state_cache {F TrackerSaved} _.
Arguments get_state {F RawState TrackerState TrackerSaved} _ _.
Arguments restore_tracker {RawState TrackerState TrackerSaved} _ _ _ _ _ _.
Arguments load_state {F RawState TrackerState TrackerSaved} _ _ _ _ _.

(** ** GridTrackingRop.translate_coords *)

Section TranslateCoords.

(** Coordinates are Python numbers, divided and multiplied by the integer
    scales; a transform is called on an array of rows and gives an array of
    rows. *)
Variable F : Type.
Variable F_div : F -> Z -> F.
Variable F_mul : F -> Z -> F.
Variable Transform : Type.
Variable transform_apply : Transform -> list (F * F) -> list (F * F).

(** [x / lxscale] *)
Definition num_div (x : F) (d : Z) : py F :=
  if decide (d = 0) then Raise ZeroDivisionError else Ret (F_div x d).

(** [row * scale] *)
Definition row_mul (r : F * F) (k : Z) : F * F := (F_mul (fst r) k, F_mul (snd r) k).

(** [x, y = transform([[x / lxscale, y / lyscale]])] unpacks the rows of the
    result: there must be exactly two. *)
Definition translate_coords (pattern_shape : Z * Z) (bias : Transform * Z * Z) (y x : F)
  : py ((F * F) * (F * F)) :=
  let '(ysize, xsize) := pattern_shape in
  let '(transform, lyscale, lxscale) := bias in
  let lyscale := lyscale * ysize in
  let lxscale := lxscale * xsize in
  xq ← num_div x lxscale;
  yq ← num_div y lyscale;
  match transform_apply transform [(xq, yq)] with
  | [x'; y'] => Ret (row_mul y' lyscale, row_mul x' lxscale)
  | _ => Raise ValueError
  end.

End TranslateCoords.

(** A rig for saved states: the state of a tracker is its reference point,
    saved as it is. *)
Module RigState.

Definition tracker_class (_ : unit) : Z * Z := (0, 0).
Definition tracker_set_reference (_ : Z * Z) (coords : Z * Z) : Z * Z := coords.
Definition tracker_get_state (st : Z * Z) : Z * Z := st.
Definition tracker_load_state (_ : Z * Z) (saved : Z * Z) : Z * Z := saved.

Definition get_state (self : GridTrackingRop Q unit (Z * Z)) : State Q (Z * Z) :=
  get_state tracker_get_state self.

Definition load_state (self : GridTrackingRop Q unit (Z * Z)) (state : State Q (Z * Z))
  : GridTrackingRop Q unit (Z * Z) :=
  load_state tracker_class tracker_set_reference tracker_load_state self state.

(** A registration with no tracker yet. *)
Definition blank : GridTrackingRop Q unit (Z * Z) := mkRop tt [] None None None 7%nat.

End RigState.

(** ** GridTrackingRop.apply_transform *)

(** [l[o::s]] for a step [s >= 1]: the elements of [l] at the indices
    [o], [o + s], [o + 2 s], ... *)
Fixpoint every {A : Type} (fuel s : nat) (l : list A) : list A :=
  match fuel with
  | O => []
  | S fuel' =>
      match l with
      | [] => []
      | a :: l' => a :: every fuel' s (drop (s - 1) l')
      end
  end.

Definition slice_step {A : Type} (o s : nat) (l : list A) : list A :=
  every (length l) s (drop o l).

(** The indices [l[o::s]] selects. *)
Definition on_stride (o s i : nat) : bool :=
  (o <=? i)%nat && ((i - o) mod s =? 0)%nat.

(** [l[o::s] = v], element by element: the selected element number [k] is
    combined with [v[k]] by [g]. *)
Definition assign_step {A B : Type} (g : A -> B -> A) (o s : nat) (l : list A) (v : list B)
  : list A :=
  imap (fun i a =>
          if on_stride o s i
          then match v !! ((i - o) / s)%nat with Some b => g a b | None => a end
          else a) l.

Section ApplyTransform.

(** A two-dimensional array is the list of its rows. *)
Variable P : Type.

Definition plane : Type := list (list P).

Definition shape (a : plane) : list nat := map length a.

(** [sdata[yoffs::ysize, xoffs::xsize]] *)
Definition channel_get (yoffs ysize xoffs xsize : nat) (sdata : plane) : plane :=
  map (slice_step xoffs xsize) (slice_step yoffs ysize sdata).

(** [sdata[yoffs::ysize, xoffs::xsize] = value]; the value must have the
    shape of the slice (a value that would be broadcast is not a case of
    the code: [warp] returns an array of the shape of its input). *)
Definition channel_set (yoffs ysize xoffs xsize : nat) (sdata value : plane) : py plane :=
  if decide (shape value = shape (channel_get yoffs ysize xoffs xsize sdata))
  then Ret (assign_step (fun row vrow => assign_step (fun _ p => p) xoffs xsize row vrow)
                        yoffs ysize sdata value)
  else Raise ValueError.

(** [skimage.transform.warp(channel, inverse_map=transform, order=self.order,
    mode=self.mode, preserve_range=True)] and [self.demargin(sdata, ...)]. *)
Variable Transform : Type.
Variable warp : Transform -> plane -> plane.
Variable demargin : plane -> plane.

(** [self._raw_pattern.shape] *)
Variable pattern_shape : nat * nat.

(** The pairs [(yoffs, xoffs)] of the two nested [xrange] loops, in order. *)
Definition channels : list (nat * nat) :=
  yoffs ← seq 0 (fst pattern_shape); xoffs ← seq 0 (snd pattern_shape); [(yoffs, xoffs)].

(** One pass of the inner body: the channel is read, warped and written
    back. *)
Definition warp_channel (transform : Transform) (sdata : plane) (c : nat * nat) : py plane :=
  let '(ysize, xsize) := pattern_shape in
  channel_set (fst c) ysize (snd c) xsize sdata
              (warp transform (channel_get (fst c) ysize (snd c) xsize sdata)).

Fixpoint py_fold {S A : Type} (f : S -> A -> py S) (l : list A) (s : S) : py S :=
  match l with
  | [] => Ret s
  | a :: l' => s' ← f s a; py_fold f l' s'
  end.

(** The two loops over the channels of one component. *)
Definition warp_channels (transform : Transform) (sdata : plane) : py plane :=
  py_fold (warp_channel transform) channels sdata.

(** The loop [for sdata in dataset]: the components after the loop (a
    missing component stays missing). *)
Definition warp_dataset (transform : Transform) (dataset : list (option plane))
  : py (list (option plane)) :=
  py_map (fun sdata =>
            match sdata with
            | None => Ret None
            | Some d => d' ← warp_channels transform (demargin d); Ret (Some d')
            end) dataset.

(** [imgdata]: the first component that is not missing. *)
Fixpoint first_component (dataset : list (option plane)) : option plane :=
  match dataset with
  | [] => None
  | Some sdata :: _ => Some sdata
  | None :: dataset' => first_component dataset'
  end.

(** The similarity test: the raw decoder, the filtered luma of its preview
    ([numpy.sum] of [postprocessed], then [white_tophat]) and the error
    between the cropped lumas (which may raise). *)
Variable RawState : Type.
Variable Luma : Type.
Variable F : Type.
Variable F_ltb : F -> F -> bool.
Variable set_raw_image : RawState -> plane -> RawState.
Variable aligned_luma_of : RawState -> Luma.
Variable similarity : Transform -> option Z -> option Z -> Luma -> Luma -> py F.

(** What [apply_transform] reads and writes of [self]. *)
Record AlignState : Type := mkAlign {
  align_raw : RawState;
  ref_luma : option Luma;
  align_lyscale : option Z;
  align_lxscale : option Z
}.

(** The argument [data]: one array, or a list of components. *)
Inductive Data : Type :=
| Single (sdata : plane)
| Components (dataset : list (option plane)).

(** [dataset = data; if isinstance(data, list): data = data[0]
     else: dataset = [data]]: the head of an empty list raises. *)
Definition as_dataset (data : Data) : py (list (option plane)) :=
  match data with
  | Single sdata => Ret [Some sdata]
  | Components [] => Raise IndexError
  | Components dataset => Ret dataset
  end.

(** [apply_transform(data, transform)]: the state after the call, the
    components as the call leaves them (they are changed in place) and the
    result, [None] for a rejected frame. *)
Definition apply_transform (min_sim : option F) (self : AlignState)
    (data : Data) (transform : Transform)
  : py (AlignState * list (option plane) * option (list (option plane))) :=
  dataset ← as_dataset data;
  dataset' ← warp_dataset transform dataset;
  match first_component dataset', min_sim with
  | Some imgdata, Some min_sim =>
      let raw' := set_raw_image (align_raw self) imgdata in
      let aligned_luma := aligned_luma_of raw' in
      match ref_luma self with
      | None =>
          Ret (mkAlign raw' (Some aligned_luma) (align_lyscale self) (align_lxscale self),
               dataset', Some dataset')
      | Some ref =>
          sim ← similarity transform (align_lxscale self) (align_lyscale self) aligned_luma ref;
          let self' := mkAlign raw' (Some ref) (align_lyscale self) (align_lxscale self) in
          if F_ltb sim min_sim
          then Ret (self', dataset', None)
          else Ret (self', dataset', Some dataset')
      end
  | _, _ => Ret (self, dataset', Some dataset')
  end.

End ApplyTransform.

Arguments shape {P} _.
Arguments channel_get {P} _ _ _ _ _.
Arguments channel_set {P} _ _ _ _ _ _.
Arguments first_component {P} _.
Arguments Single {P} _.
Arguments Components {P} _.
Arguments as_dataset {P} _.
Arguments mkAlign {RawState Luma} _ _ _ _.
Arguments align_raw {RawState Luma} _.
Arguments ref_luma {RawState Luma} _.
Arguments align_lyscale {RawState Luma} _.
Arguments align_lxscale {RawState Luma} _.

(** A rig for [apply_transform]: integer pixels, a warp that brightens its
    input, no margins, a 2 x 2 pattern. *)
Module RigWarp.

Definition warp (_ : unit) (c : plane Z) : plane Z := map (map (fun p => p + 100)) c.
Definition demargin (sdata : plane Z) : plane Z := sdata.
Definition pattern_shape : nat * nat := (2%nat, 2%nat).
Definition sample : plane Z := [[1; 2; 3; 4; 5]; [6; 7; 8; 9; 10]; [11; 12; 13; 14; 15]].

Definition apply_transform (min_sim : option Q) :=
  apply_transform Z unit warp demargin pattern_shape unit unit Q Qltb
                  (fun _ _ => tt) (fun _ => tt) (fun _ _ _ _ _ => Ret 0%Q) min_sim.

End RigWarp.

(** ** Raw: the decoded file and its preview *)

Section RawObject.

(** rawpy: the sensor buffer [rawpy.imread(self.name).raw_image] of the
    file, and the rendering [rimg.postprocess(self.postprocessing_params)]
    of a buffer. *)
Variable Preview : Type.
Variable imread : image.
Variable rawpy_postprocess : image -> Preview.

(** [_rimg], as the buffer [_rimg.raw_image] that [denoise] changes in
    place, and [_postprocessed]. [reads] is ghost state: the number of
    [rawpy.imread] calls made so far. *)
Record RawObject : Type := mkRawObject {
  _rimg : option image;
  _postprocessed : option Preview;
  reads : nat
}.

(** [__init__] *)
Definition raw_new : RawObject := mkRawObject None None O.

(** [close] *)
Definition close (self : RawObject) : RawObject := mkRawObject None None (reads self).

(** The property [rimg], as the buffer of the decoded file. *)
Definition rimg (self : RawObject) : RawObject * image :=
  match _rimg self with
  | Some buffer => (self, buffer)
  | None => (mkRawObject (Some imread) (_postprocessed self) (S (reads self)), imread)
  end.

(** [postprocess] *)
Definition postprocess (self : RawObject) : RawObject * Preview :=
  let '(self1, buffer) := rimg self in
  let preview := rawpy_postprocess buffer in
  (mkRawObject (_rimg self1) (Some preview) (reads self1), preview).

(** The property [postprocessed] *)
Definition postprocessed (self : RawObject) : RawObject * Preview :=
  match _postprocessed self with
  | Some preview => (self, preview)
  | None => postprocess self
  end.

(** [denoise(darks)] on the object: the search and the subtractions work
    on the buffer of [self.rimg]. [name] is the identity of the object. *)
Definition denoise_object (E : Type) (E_ltb E_eqb : E -> E -> bool) (shannon : list Z -> E)
    (steps maxsteps : Z) (mink : Q) (rounds fuel : nat)
    (name : Z) (self : RawObject) (darks : list Raw) : option (py RawObject) :=
  let '(self1, buffer) := rimg self in
  match denoise E E_ltb E_eqb shannon steps maxsteps mink rounds fuel
                (mkRaw name buffer) darks with
  | None => None
  | Some (Raise e) => Some (Raise e)
  | Some (Ret (_, out)) =>
      Some (Ret (mkRawObject (Some out) (_postprocessed self1) (reads self1)))
  end.

End RawObject.

Arguments mkRawObject {Preview} _ _ _.
Arguments _rimg {Preview} _.
Arguments _postprocessed {Preview} _.
Arguments reads {Preview} _.
Arguments raw_new {Preview}.
Arguments close {Preview} _.
Arguments rimg {Preview} _ _.
Arguments postprocess {Preview} _ _ _.
Arguments postprocessed {Preview} _ _ _.

(** ** The tracking cache as a shared dictionary *)

Section SharedCache.

Variable F : Type.
Variable F_ltb : F -> F -> bool.
Variable F_of_Z : Z -> F.
Variable F_div : F -> Z -> F.
Variable median : list F -> F.
Variable Transform : Type.
Variable estimate_transform : list (F * F) -> list (F * F) -> Transform.
Variable shift_mag : Transform -> F * F -> F * F -> F.
Variable median_shift_limit : F.
Variable Frame : Type.
Variable frame_key : Frame -> Key.
Variable RawState : Type.
Variable Luma : Type.
Variable set_raw_image : RawState -> Frame -> RawState.
Variable luma_of : RawState -> Luma.
Variable vshape_of : RawState -> Z * Z.
Variable lshape_of : RawState -> Z * Z.
Variable deglow : option (Frame -> Frame).
Variable TrackerState : Type.
Variable tracker_detect :
  TrackerState -> Frame -> option Frame -> Luma -> py (TrackerState * (F * F * F * F)).
Variable pattern_shape : Z * Z.
Variable TrackerSaved : Type.
Variable tracker_class : RawState -> TrackerState.
Variable tracker_set_reference : TrackerState -> Z * Z -> TrackerState.
Variable tracker_get_state : TrackerState -> TrackerSaved.
Variable tracker_load_state : TrackerState -> TrackerSaved -> TrackerState.

(** [get_state] puts the dictionary [self.tracking_cache] itself into the
    state and [load_state] takes it from there, so registrations and saved
    states hold references to dictionaries. The store gives the dictionary
    behind each reference, as it is now. *)
Definition Store : Type := list (gmap Key (cache_entry F)).

(** A registration whose cache is a reference: the field [tracking_cache]
    of [rop_fields] is not used. *)
Record SharedRop : Type := mkSharedRop {
  cache_ref : option nat;
  rop_fields : GridTrackingRop F RawState TrackerState
}.

Record SharedState : Type := mkSharedState {
  shared_trackers : list TrackerSaved;
  shared_grid_coords : list (Z * Z);
  shared_cache : option nat
}.

Definition deref (store : Store) (ref : option nat) : option (gmap Key (cache_entry F)) :=
  l ← ref; store !! l.

(** [detect]: the dictionary is read through the reference and written
    back in place; a registration without a dictionary gets a new one. *)
Definition detect_shared (store : Store) (self : SharedRop) (data : Frame)
    (img : option Frame) (set_data : bool) (luma : option Luma)
  : Store * SharedRop * option (py (option (Transform * Z * Z))) :=
  let fields := rop_fields self in
  let self0 := mkRop (raw fields) (trackers fields) (deref store (cache_ref self))
                     (lyscale fields) (lxscale fields) (tracker_calls fields) in
  let '(self1, result) :=
    detect F F_ltb F_of_Z F_div median Transform estimate_transform shift_mag
           median_shift_limit Frame frame_key RawState Luma set_raw_image luma_of
           vshape_of lshape_of deglow TrackerState tracker_detect pattern_shape
           self0 data img set_data luma in
  let cache1 := default ∅ (tracking_cache self1) in
  match cache_ref self with
  | Some l => (<[l := cache1]> store, mkSharedRop (Some l) self1, result)
  | None => (store ++ [cache1], mkSharedRop (Some (length store)) self1, result)
  end.

Definition get_state_shared (self : SharedRop) : SharedState :=
  mkSharedState
    (map (fun t => tracker_get_state (tracker_state t)) (trackers (rop_fields self)))
    (map grid_coords (trackers (rop_fields self)))
    (cache_ref self).

Definition load_state_shared (self : SharedRop) (state : SharedState) : SharedRop :=
  let fields := rop_fields self in
  mkSharedRop
    (shared_cache state)
    (mkRop (raw fields)
           (zip_with (restore_tracker tracker_class tracker_set_reference tracker_load_state
                                      (raw fields))
                     (shared_grid_coords state) (shared_trackers state))
           None (lyscale fields) (lxscale fields) (tracker_calls fields)).

End SharedCache.

Arguments mkSharedRop {F RawState TrackerState} _ _.
Arguments cache_ref {F RawState TrackerState} _.
Arguments rop_fields {F RawState TrackerState} _.
Arguments mkSharedState {TrackerSaved} _ _ _.
Arguments shared_trackers {TrackerSaved} _.
Arguments shared_grid_coords {TrackerSaved} _.
Arguments shared_cache {TrackerSaved} _.
Arguments deref {F} _ _.

(** A rig for shared caches and for the raw object. *)
Module RigShared.

Definition detect_shared :=
  detect_shared Q Qltb inject_Z Exact.div_Z Exact.median Exact.Similarity Exact.estimate
                Exact.shift_mag 2%Q
                Z (fun f => inr f) unit unit (fun _ _ => tt) (fun _ => tt)
                (fun _ => (1800, 1800)) (fun _ => (1800, 1800)) None
                (Z * Z) Rig.tracker_detect (2, 2).

Definition load_state_shared :=
  load_state_shared Q unit (Z * Z) (Z * Z) RigState.tracker_class
                    RigState.tracker_set_reference RigState.tracker_load_state.

(** A state saved by a registration that had a cache, still empty. *)
Definition state : SharedState (Z * Z) :=
  mkSharedState (map grid_coords (trackers Rig.rop0)) (map grid_coords (trackers Rig.rop0))
                (Some O).

Definition store : Store Q := [∅].

Definition blank : SharedRop Q unit (Z * Z) := mkSharedRop None RigState.blank.

(** The preview of a buffer: its brightest pixel. *)
Definition preview (buffer : image) : Z := fold_right Z.max 0 buffer.

Definition denoise_object :=
  denoise_object Z (raw_pixels Samples.light) Z Rank.ltb Rank.eqb Rank.shannon
                 Samples.steps Samples.maxsteps Samples.mink.

End RigShared.

(** A dim light frame and a bright dark frame: the weighted dark exceeds
    the light at the last pixel. *)
Module Saturated.

Definition light : Raw := mkRaw 3 [10; 20; 30; 40; 50; 0].
Definition dark : Raw := mkRaw 4 [20; 40; 60; 80; 100; 50].

End Saturated.

(** * Properties *)

(** ** Fixed-width integers and arrays *)

Lemma wrap_uint32_range z : is_uint32 (wrap_uint32 z).
Proof. unfold is_uint32, wrap_uint32. apply Z.mod_pos_bound. lia. Qed.

Lemma wrap_uint16_small z : is_uint16 z -> wrap_uint16 z = z.
Proof. unfold is_uint16, wrap_uint16. intros H. apply Z.mod_small. lia. Qed.

Ltac uint16_pixels :=
  repeat (constructor; [unfold is_uint16; lia|]); constructor.

Lemma astype_uint16_id (a : image) : Forall is_uint16 a -> astype_uint16 a = a.
Proof.
  unfold astype_uint16. induction 1 as [|p l Hp _ IH]; simpl; [done|].
  by rewrite wrap_uint16_small, IH.
Qed.

Lemma wrap_int32_small z : - 2 ^ 31 <= z < 2 ^ 31 -> wrap_int32 z = z.
Proof. unfold wrap_int32. intros H. rewrite Z.mod_small; lia. Qed.

Lemma elementwise_Ret f a b :
  length a = length b -> elementwise f a b = Ret (zip_with f a b).
Proof. intros H. unfold elementwise. by rewrite decide_True. Qed.

Lemma elementwise_inv f a b c :
  elementwise f a b = Ret c -> length a = length b /\ c = zip_with f a b.
Proof. unfold elementwise. case_decide; [|done]. intros [= <-]. done. Qed.

Lemma Forall_zip_with_any (P : Z -> Prop) f (a b : image) :
  (forall x y, P (f x y)) -> Forall P (zip_with f a b).
Proof.
  intros Hf. revert b. induction a as [|x a IH]; intros [|y b]; simpl; constructor; auto.
Qed.

Lemma fold_max_ge (xs : list Z) x : x <= fold_left Z.max xs x.
Proof.
  revert x. induction xs as [|y xs IH]; intros x; simpl; [lia|].
  specialize (IH (Z.max x y)). lia.
Qed.

Lemma fold_max_upper (xs : list Z) x y : In y xs -> y <= fold_left Z.max xs x.
Proof.
  revert x. induction xs as [|z xs IH]; intros x; simpl; [tauto|].
  intros [->|Hin]; [|by apply IH].
  pose proof (fold_max_ge xs (Z.max x y)). lia.
Qed.

Lemma array_max_upper a m y : array_max a = Ret m -> In y a -> y <= m.
Proof.
  destruct a as [|x xs]; simpl; [done|]. intros [= <-] [->|Hin].
  - apply fold_max_ge.
  - by apply fold_max_upper.
Qed.

Lemma array_max_In a m : array_max a = Ret m -> In m a.
Proof.
  destruct a as [|x xs]; simpl; [done|]. intros [= <-].
  revert x. induction xs as [|y xs IH]; intros x; simpl; [by left|].
  destruct (IH (Z.max x y)) as [H|H]; [|by right; right].
  destruct (Z.max_spec x y) as [[_ E]|[_ E]]; rewrite E in *; [right; left|left]; exact H.
Qed.

(** ** RawAccumulator *)

Lemma shift_loop_eq shift maxval :
  RawAccumulator.shift_loop shift maxval =
  if 65535 <? maxval then RawAccumulator.shift_loop (shift + 1) (maxval / 2) else shift.
Proof.
  destruct maxval as [|p|p]; simpl; try done.
  destruct p as [q|q|]; simpl RawAccumulator.shift_loop_pos.
  - destruct (65535 <? Z.pos q~1) eqn:E; [|done].
    replace (Z.pos q~1 / 2) with (Z.pos q); [done|].
    rewrite Pos2Z.inj_xI. apply Z.div_unique with 1; lia.
  - destruct (65535 <? Z.pos q~0) eqn:E; [|done].
    replace (Z.pos q~0 / 2) with (Z.pos q); [done|].
    rewrite Pos2Z.inj_xO. apply Z.div_unique with 0; lia.
  - done.
Qed.

Lemma shiftr_succ m j : 0 <= j -> Z.shiftr m (j + 1) = Z.shiftr (m / 2) j.
Proof.
  intros Hj. rewrite Z.add_comm, <- Z.shiftr_shiftr by lia.
  f_equal. rewrite Z.shiftr_div_pow2 by lia. done.
Qed.

Lemma shift_loop_pos_spec p shift :
  let k := RawAccumulator.shift_loop_pos shift p - shift in
  0 <= k /\ Z.shiftr (Z.pos p) k <= 65535 /\
  forall j, 0 <= j < k -> 65535 < Z.shiftr (Z.pos p) j.
Proof.
  revert shift.
  assert (Hstep : forall q m shift,
    (forall shift', let k := RawAccumulator.shift_loop_pos shift' q - shift' in
       0 <= k /\ Z.shiftr (Z.pos q) k <= 65535 /\
       forall j, 0 <= j < k -> 65535 < Z.shiftr (Z.pos q) j) ->
    m / 2 = Z.pos q -> 65535 < m ->
    let k := RawAccumulator.shift_loop_pos (shift + 1) q - shift in
    0 <= k /\ Z.shiftr m k <= 65535 /\ forall j, 0 <= j < k -> 65535 < Z.shiftr m j).
  { intros q m shift IH Hm Hlt. specialize (IH (shift + 1)). simpl in *.
    destruct IH as (Hk & Hle & Hmin).
    set (r := RawAccumulator.shift_loop_pos (shift + 1) q) in *.
    replace (r - shift) with (r - (shift + 1) + 1) by lia.
    split; [lia|]. split.
    - rewrite shiftr_succ by lia. by rewrite Hm.
    - intros j Hj. destruct (decide (j = 0)) as [->|Hne]; [by rewrite Z.shiftr_0_r|].
      replace j with (j - 1 + 1) by lia. rewrite shiftr_succ by lia.
      rewrite Hm. apply Hmin. lia. }
  induction p as [q IH|q IH|]; intros shift; cbv zeta; simpl RawAccumulator.shift_loop_pos.
  - destruct (65535 <? Z.pos q~1) eqn:E.
    + apply Z.ltb_lt in E. apply Hstep; [exact IH| |lia].
      rewrite Pos2Z.inj_xI. symmetry. apply Z.div_unique with 1; lia.
    + apply Z.ltb_ge in E. replace (shift - shift) with 0 by lia. rewrite Z.shiftr_0_r.
      split; [lia|]. split; lia.
  - destruct (65535 <? Z.pos q~0) eqn:E.
    + apply Z.ltb_lt in E. apply Hstep; [exact IH| |lia].
      rewrite Pos2Z.inj_xO. symmetry. apply Z.div_unique with 0; lia.
    + apply Z.ltb_ge in E. replace (shift - shift) with 0 by lia. rewrite Z.shiftr_0_r.
      split; [lia|]. split; lia.
  - simpl. replace (shift - shift) with 0 by lia. rewrite Z.shiftr_0_r. split; [lia|]. split; lia.
Qed.

Lemma shift_loop_spec m :
  0 <= m ->
  let k := RawAccumulator.shift_loop 0 m in
  0 <= k /\ Z.shiftr m k <= 65535 /\ forall j, 0 <= j < k -> 65535 < Z.shiftr m j.
Proof.
  intros Hm. destruct m as [|p|p]; [| |lia].
  - simpl. split; [lia|]. split; [done|]. intros; lia.
  - pose proof (shift_loop_pos_spec p 0) as H. simpl in H.
    rewrite Z.sub_0_r in H. exact H.
Qed.

Lemma reachable_inv self :
  RawAccumulator.reachable self ->
  match RawAccumulator.accum self with
  | None => RawAccumulator.num_images self = 0
  | Some a => 1 <= RawAccumulator.num_images self /\ Forall is_uint32 a
  end.
Proof.
  induction 1 as [|self raw self' Hr IH Hadd]; [done|].
  unfold RawAccumulator.iadd in Hadd.
  destruct (RawAccumulator.accum self) as [a|].
  - destruct (elementwise _ a raw) as [a'|] eqn:E; [|done].
    apply elementwise_inv in E as [_ ->]. simpl in Hadd. injection Hadd as <-. simpl.
    split; [lia|]. apply Forall_zip_with_any. intros. apply wrap_uint32_range.
  - injection Hadd as <-. simpl. split; [lia|].
    unfold astype_uint32. induction raw; simpl; constructor; auto using wrap_uint32_range.
Qed.

Lemma reachable_acc_1_2 : RawAccumulator.reachable Samples.acc_1_2.
Proof.
  apply RawAccumulator.reachable_iadd with
    (self := {| RawAccumulator.accum := Some [1]; RawAccumulator.num_images := 1 |})
    (raw := [2]); [|reflexivity].
  apply RawAccumulator.reachable_iadd with (self := RawAccumulator.init) (raw := [1]);
    [constructor|reflexivity].
Qed.

Lemma reachable_acc_bright : RawAccumulator.reachable Samples.acc_bright.
Proof.
  apply RawAccumulator.reachable_iadd with
    (self := {| RawAccumulator.accum := Some [65535; 3; 32768];
                RawAccumulator.num_images := 1 |})
    (raw := [65535; 4; 32768]); [|reflexivity].
  apply RawAccumulator.reachable_iadd with
    (self := RawAccumulator.init) (raw := [65535; 3; 32768]); [constructor|reflexivity].
Qed.

(** C4, as the specification states it, fails: after the frames [[1]] and
    [[2]] the sum is [[3]], the count is 2 and [average] is [[1]], not 3/2. *)
Lemma average_not_exact :
  RawAccumulator.reachable Samples.acc_1_2 /\
  RawAccumulator.average Samples.acc_1_2 = Some [1] /\
  ~ average_is_exact Samples.acc_1_2.
Proof.
  split; [apply reachable_acc_1_2|]. split; [reflexivity|].
  intros (avg & a & Hav & Hacc & HF).
  injection Hav as <-. injection Hacc as <-.
  apply Forall2_cons_1 in HF as [HF _].
  revert HF. unfold Qeq. simpl. lia.
Qed.

(** C4 (amended): for every accumulator state with at least one accumulated
    frame, [average] returns, element by element, the floor of the running
    sum divided by the frame count: the integer quotient [v] with
    [N * v <= sum < N * (v + 1)]. *)
Theorem average_is_floor_quotient (self : RawAccumulator.t) (a : image) :
  RawAccumulator.reachable self ->
  RawAccumulator.accum self = Some a ->
  exists avg,
    RawAccumulator.average self = Some avg /\
    Forall2 (fun v x => RawAccumulator.num_images self * v <= x
                        < RawAccumulator.num_images self * (v + 1)) avg a.
Proof.
  intros Hr Ha. apply reachable_inv in Hr. rewrite Ha in Hr. destruct Hr as [Hn _].
  unfold RawAccumulator.average. rewrite Ha. eexists. split; [reflexivity|].
  set (n := RawAccumulator.num_images self) in *.
  clear Ha. induction a as [|x a IH]; simpl; constructor; [|exact IH].
  pose proof (Z.mul_div_le x n ltac:(lia)).
  pose proof (Z.mul_succ_div_gt x n ltac:(lia)). lia.
Qed.

Lemma average_is_floor_quotient_witness :
  RawAccumulator.reachable Samples.acc_1_2 /\
  RawAccumulator.accum Samples.acc_1_2 = Some [3] /\
  exists avg,
    RawAccumulator.average Samples.acc_1_2 = Some avg /\
    Forall2 (fun v x => RawAccumulator.num_images Samples.acc_1_2 * v <= x
                        < RawAccumulator.num_images Samples.acc_1_2 * (v + 1)) avg [3].
Proof.
  split; [apply reachable_acc_1_2|]. split; [reflexivity|].
  apply (average_is_floor_quotient Samples.acc_1_2 [3]);
    [apply reachable_acc_1_2|reflexivity].
Defined.

(** C5: for every accumulator state with at least one accumulated frame
    (of at least one pixel), [raw_image] is the running sum shifted right by
    [shift] bits, every pixel of it is at most 65535, and [shift] is the
    least number of halvings that brings the largest accumulated pixel
    under the 16-bit ceiling. *)
Theorem raw_image_bounded (self : RawAccumulator.t) (a : image) :
  RawAccumulator.reachable self ->
  RawAccumulator.accum self = Some a ->
  a <> [] ->
  exists img m shift,
    RawAccumulator.raw_image self = Ret (Some img) /\
    array_max a = Ret m /\
    0 <= shift /\
    img = map (fun x => Z.shiftr x shift) a /\
    Forall (fun p => 0 <= p <= 65535) img /\
    Z.shiftr m shift <= 65535 /\
    (forall s, 0 <= s < shift -> 65535 < Z.shiftr m s).
Proof.
  intros Hr Ha Hne. apply reachable_inv in Hr. rewrite Ha in Hr. destruct Hr as [_ Hu].
  destruct (array_max a) as [m|] eqn:Hm; [|by destruct a].
  assert (Hm0 : 0 <= m).
  { apply array_max_In in Hm. rewrite Forall_forall in Hu.
    apply list_elem_of_In, Hu in Hm. unfold is_uint32 in Hm. lia. }
  destruct (shift_loop_spec m Hm0) as (Hk & Hle & Hmin).
  set (k := RawAccumulator.shift_loop 0 m) in *.
  assert (Hpix : Forall (fun p => 0 <= p <= 65535) (map (fun x => Z.shiftr x k) a)).
  { apply Forall_forall. intros p Hp. apply list_elem_of_In, in_map_iff in Hp as (x & <- & Hx).
    pose proof (array_max_upper a m x Hm Hx) as Hxm.
    rewrite Forall_forall in Hu. apply list_elem_of_In, Hu in Hx. unfold is_uint32 in Hx.
    split; [apply Z.shiftr_nonneg; lia|].
    rewrite !Z.shiftr_div_pow2 in * by lia.
    etrans; [|exact Hle]. apply Z.div_le_mono; [|lia].
    apply Z.pow_pos_nonneg; lia. }
  exists (map (fun x => Z.shiftr x k) a), m, k.
  split; [|done].
  unfold RawAccumulator.raw_image. rewrite Ha, Hm. simpl. fold k. do 2 f_equal.
  assert (Hsame : (if decide (k = 0) then a else map (fun x => Z.shiftr x k) a)
                  = map (fun x => Z.shiftr x k) a).
  { case_decide as Hk0; [|done]. rewrite Hk0.
    clear. induction a as [|x a IH]; simpl; [done|]. by rewrite Z.shiftr_0_r, <- IH. }
  rewrite Hsame. by apply astype_uint16_id.
Qed.

Lemma raw_image_bounded_witness :
  RawAccumulator.reachable Samples.acc_bright /\
  RawAccumulator.accum Samples.acc_bright = Some [131070; 7; 65536] /\
  [131070; 7; 65536] <> [] /\
  exists img m shift,
    RawAccumulator.raw_image Samples.acc_bright = Ret (Some img) /\
    array_max [131070; 7; 65536] = Ret m /\
    0 <= shift /\
    img = map (fun x => Z.shiftr x shift) [131070; 7; 65536] /\
    Forall (fun p => 0 <= p <= 65535) img /\
    Z.shiftr m shift <= 65535 /\
    (forall s, 0 <= s < shift -> 65535 < Z.shiftr m s).
Proof.
  split; [apply reachable_acc_bright|]. split; [reflexivity|]. split; [discriminate|].
  apply (raw_image_bounded Samples.acc_bright [131070; 7; 65536]);
    [apply reachable_acc_bright|reflexivity|discriminate].
Defined.

Example raw_image_bright :
  RawAccumulator.raw_image Samples.acc_bright = Ret (Some [65535; 3; 32768]).
Proof. reflexivity. Qed.

(** C10: for every accumulator state with no accumulated frame (count
    zero), both [average] and [raw_image] return [None]; neither raises. *)
Theorem empty_accumulator_None (self : RawAccumulator.t) :
  RawAccumulator.reachable self ->
  RawAccumulator.num_images self = 0 ->
  RawAccumulator.average self = None /\ RawAccumulator.raw_image self = Ret None.
Proof.
  intros Hr Hn. apply reachable_inv in Hr.
  unfold RawAccumulator.average, RawAccumulator.raw_image.
  destruct (RawAccumulator.accum self); [lia|done].
Qed.

Lemma empty_accumulator_None_witness :
  RawAccumulator.reachable RawAccumulator.init /\
  RawAccumulator.num_images RawAccumulator.init = 0 /\
  RawAccumulator.average RawAccumulator.init = None /\
  RawAccumulator.raw_image RawAccumulator.init = Ret None.
Proof.
  split; [constructor|]. split; [reflexivity|].
  apply (empty_accumulator_None RawAccumulator.init); [constructor|reflexivity].
Defined.

(** ** The entropy objective *)

Lemma count_insert_count x h v :
  hist_count (count_insert x h) v = hist_count h v + (if x =? v then 1 else 0).
Proof.
  induction h as [|[l c] h IH]; simpl.
  - destruct (x =? v); lia.
  - destruct (x <? l) eqn:E1; simpl.
    + destruct (x =? v), (l =? v); lia.
    + destruct (x =? l) eqn:E2; simpl.
      * apply Z.eqb_eq in E2 as ->. destruct (l =? v); lia.
      * rewrite IH. destruct (l =? v); lia.
Qed.

Lemma unique_counts_count (a : image) v :
  hist_count (unique_counts a) v = Z.of_nat (count_occ Z.eq_dec a v).
Proof.
  induction a as [|x a IH]; simpl; [done|].
  rewrite count_insert_count, IH.
  destruct (Z.eq_dec x v) as [->|Hne].
  - rewrite Z.eqb_refl. lia.
  - apply Z.eqb_neq in Hne. rewrite Hne. lia.
Qed.

Lemma count_insert_labels x h :
  Forall (fun l => l = x \/ In l (map fst h)) (map fst (count_insert x h)).
Proof.
  induction h as [|[l c] h IH]; simpl; [constructor; auto|].
  destruct (x <? l); [|destruct (x =? l)]; simpl.
  - constructor; [auto|]. constructor; [auto|].
    apply Forall_forall. intros y Hy. apply list_elem_of_In in Hy. auto.
  - constructor; [auto|]. apply Forall_forall. intros y Hy. apply list_elem_of_In in Hy. auto.
  - constructor; [auto|]. eapply Forall_impl; [exact IH|]. simpl. tauto.
Qed.

Lemma count_insert_sorted x h :
  StronglySorted Z.lt (map fst h) -> StronglySorted Z.lt (map fst (count_insert x h)).
Proof.
  induction h as [|[l c] h IH]; simpl; intros Hs.
  - repeat constructor.
  - apply StronglySorted_inv in Hs as [Hs Hl].
    destruct (x <? l) eqn:E1; simpl.
    + apply Z.ltb_lt in E1. constructor; [by constructor|].
      constructor; [done|]. eapply Forall_impl; [exact Hl|]. simpl. lia.
    + destruct (x =? l) eqn:E2; simpl; [by constructor|].
      apply Z.ltb_ge in E1. apply Z.eqb_neq in E2.
      constructor; [by apply IH|].
      pose proof (count_insert_labels x h) as HL.
      rewrite Forall_forall in HL, Hl. apply Forall_forall. intros y Hy.
      destruct (HL y Hy) as [->|Hin]; [lia|]. apply Hl. by apply list_elem_of_In.
Qed.

Lemma unique_counts_sorted (a : image) : StronglySorted Z.lt (map fst (unique_counts a)).
Proof.
  induction a as [|x a IH]; simpl; [constructor|]. by apply count_insert_sorted.
Qed.

Lemma unique_counts_positive (a : image) : Forall (fun c => 0 < c) (map snd (unique_counts a)).
Proof.
  induction a as [|x a IH]; simpl; [constructor|].
  revert IH. generalize (unique_counts a). intros h.
  induction h as [|[l c] h IHh]; simpl; intros Hp.
  - repeat constructor.
  - apply Forall_cons in Hp as [Hc Hp].
    destruct (x <? l); [|destruct (x =? l)]; simpl; repeat constructor; auto; lia.
Qed.

(** With 16-bit pixels and a weight numerator of at most 32768 nothing wraps
    in the 32-bit arithmetic of [entropy]. *)
Lemma entropy_residual_exact (light dark : image) k_denom k_num :
  length light = length dark ->
  Forall is_uint16 light -> Forall is_uint16 dark ->
  0 <= k_num <= 32768 -> 0 < k_denom ->
  entropy_residual light dark k_denom k_num =
  Ret (zip_with (fun l d => Z.abs (l - d * k_num / k_denom)) light dark).
Proof.
  intros Hlen Hl Hd Hn Hk. unfold entropy_residual, astype_int32.
  rewrite elementwise_Ret by (by rewrite !length_map).
  simpl. f_equal. revert dark Hlen Hd.
  induction Hl as [|l light Hl _ IH]; intros [|d dark] Hlen Hd; simpl; try done.
  apply Forall_cons in Hd as [Hd Hd']. unfold is_uint16 in *.
  f_equal; [|apply IH; [simpl in Hlen; lia|done]].
  assert (Hw : weigh_int32 k_num k_denom d = d * k_num / k_denom /\
               0 <= d * k_num / k_denom < 2 ^ 31).
  { unfold weigh_int32. rewrite (wrap_int32_small d) by lia.
    assert (0 <= d * k_num <= 65535 * 32768) by nia.
    rewrite (wrap_int32_small (d * k_num)) by lia.
    assert (0 <= d * k_num / k_denom <= d * k_num).
    { split; [apply Z.div_pos; lia|]. apply Z.div_le_upper_bound; [lia|]. nia. }
    rewrite wrap_int32_small by lia. lia. }
  destruct Hw as [-> Hw].
  rewrite (wrap_int32_small l) by lia.
  rewrite (wrap_int32_small (l - _)) by lia.
  apply wrap_int32_small. lia.
Qed.

Lemma clamped_residual_same (light dark : image) k_denom k_num :
  Forall2 (fun l d => d * k_num / k_denom <= l) light dark ->
  clamped_residual light dark k_denom k_num =
  Ret (zip_with (fun l d => Z.abs (l - d * k_num / k_denom)) light dark).
Proof.
  intros HF. unfold clamped_residual.
  rewrite elementwise_Ret by (by eapply Forall2_length).
  simpl. f_equal. induction HF as [|l d light dark H _ IH]; simpl; [done|].
  rewrite IH. f_equal. f_equal. lia.
Qed.

(** C3, as the specification states it, fails: [entropy] does not clamp
    the weighted dark. With the light pixels [[1; 1]], the dark pixels
    [[2; 4]] and the weight 1/1 the residual magnitudes are [[1; 3]], their
    counts [[1; 1]] and the entropy [ln 2]; clamping would give the
    residuals [[0; 0]], the counts [[2]] and the entropy 0. *)
Lemma entropy_does_not_clamp :
  entropy R Shannon.entropy [1; 1] (mkRaw 1 [2; 4]) 1 1 <>
  entropy_clamped R Shannon.entropy [1; 1] (mkRaw 1 [2; 4]) 1 1.
Proof.
  unfold entropy, entropy_clamped.
  replace (entropy_counts [1; 1] (raw_pixels (mkRaw 1 [2; 4])) 1 1)
    with (Ret (A:=list Z) [1; 1]) by (vm_compute; reflexivity).
  replace (clamped_counts [1; 1] (raw_pixels (mkRaw 1 [2; 4])) 1 1)
    with (Ret (A:=list Z) [2]) by (vm_compute; reflexivity).
  simpl. intros [= H]. revert H.
  unfold Shannon.entropy, Shannon.total, Shannon.entr. simpl.
  change (IZR (1 + (1 + 0))) with 2%R. change (IZR (2 + 0)) with 2%R.
  replace (2 / 2)%R with 1%R by lra. rewrite ln_1.
  replace (1 / 2)%R with (/ 2)%R by lra. rewrite ln_Rinv by lra.
  pose proof ln_lt_2. lra.
Qed.

Section EntropyObjective.

Context {E : Type} (shannon : list Z -> E).

(** C3 (amended): for every light frame and dark frame of the same shape
    with 16-bit pixels and every weight [k_num / k_denom] with
    [0 <= k_num <= 32768] and [0 < k_denom], [entropy] computes the residual
    as light minus the weighted dark (integer quotient), without any clamp,
    takes the absolute value, counts the occurrences of each distinct
    magnitude and returns the entropy of these counts; it agrees with the
    clamped objective whenever the weighted dark exceeds the light at no
    pixel. *)
Theorem entropy_unclamped (light : image) (dark : Raw) (k_denom k_num : Z) :
  length light = length (raw_pixels dark) ->
  Forall is_uint16 light -> Forall is_uint16 (raw_pixels dark) ->
  0 <= k_num <= 32768 -> 0 < k_denom ->
  let residual := zip_with (fun l d => Z.abs (l - d * k_num / k_denom)) light (raw_pixels dark) in
  let hist := unique_counts residual in
  entropy E shannon light dark k_denom k_num = Ret (shannon (map snd hist), k_num, k_denom) /\
  StronglySorted Z.lt (map fst hist) /\
  (forall v, hist_count hist v = Z.of_nat (count_occ Z.eq_dec residual v)) /\
  (Forall2 (fun l d => d * k_num / k_denom <= l) light (raw_pixels dark) ->
   entropy_clamped E shannon light dark k_denom k_num =
   entropy E shannon light dark k_denom k_num).
Proof.
  intros Hlen Hl Hd Hn Hk residual hist.
  assert (He : entropy E shannon light dark k_denom k_num
               = Ret (shannon (map snd hist), k_num, k_denom)).
  { unfold entropy, entropy_counts.
    by rewrite entropy_residual_exact. }
  split; [exact He|]. split; [apply unique_counts_sorted|].
  split; [intros v; apply unique_counts_count|].
  intros HF. rewrite He. unfold entropy_clamped, clamped_counts.
  by rewrite clamped_residual_same.
Qed.

End EntropyObjective.

Lemma entropy_unclamped_witness :
  let light := raw_pixels Samples.light in
  let dark := Samples.dark1 in
  length light = length (raw_pixels dark) /\
  Forall is_uint16 light /\ Forall is_uint16 (raw_pixels dark) /\
  0 <= 3 <= 32768 /\ 0 < 8 /\
  let residual := zip_with (fun l d => Z.abs (l - d * 3 / 8)) light (raw_pixels dark) in
  let hist := unique_counts residual in
  entropy Z Rank.shannon light dark 8 3 = Ret (Rank.shannon (map snd hist), 3, 8) /\
  StronglySorted Z.lt (map fst hist) /\
  (forall v, hist_count hist v = Z.of_nat (count_occ Z.eq_dec residual v)) /\
  (Forall2 (fun l d => d * 3 / 8 <= l) light (raw_pixels dark) ->
   entropy_clamped Z Rank.shannon light dark 8 3 = entropy Z Rank.shannon light dark 8 3).
Proof.
  split; [reflexivity|].
  split; [uint16_pixels|]. split; [uint16_pixels|].
  split; [lia|]. split; [lia|].
  apply (entropy_unclamped Rank.shannon (raw_pixels Samples.light) Samples.dark1 8 3);
    [reflexivity|uint16_pixels|uint16_pixels|lia|lia].
Defined.

(** ** The integer order of Shannon entropies *)

Lemma rank_positive (counts : list Z) :
  Forall (fun c => 0 < c) counts -> 0 < Rank.shannon counts.
Proof.
  induction 1 as [|c counts Hc _ IH]; simpl; [lia|].
  apply Z.mul_pos_pos; [|exact IH]. apply Z.pow_pos_nonneg; lia.
Qed.

Lemma ln_self_power (c : Z) : 0 < c -> ln (IZR (c ^ c)) = (IZR c * ln (IZR c))%R.
Proof.
  intros Hc. rewrite <- (Z2Nat.id c) at 2 by lia.
  rewrite <- pow_IZR, ln_pow by (apply IZR_lt; lia).
  by rewrite INR_IZR_INZ, Z2Nat.id by lia.
Qed.

(** The sum of [scipy.stats.entropy], with the normalisation [n] kept
    apart: [(total * ln n - ln (prod c^c)) / n]. *)
Lemma entropy_sum_rank (n : R) (counts : list Z) :
  (0 < n)%R -> Forall (fun c => 0 < c) counts ->
  fold_right (fun c acc => (Shannon.entr (IZR c / n) + acc)%R) 0%R counts =
  ((IZR (Shannon.total counts) * ln n - ln (IZR (Rank.shannon counts))) / n)%R.
Proof.
  intros Hn. induction 1 as [|c counts Hc Hpos IH]; simpl.
  - rewrite ln_1. field. lra.
  - rewrite IH. unfold Shannon.entr.
    pose proof (rank_positive counts Hpos) as Hr.
    assert (Hc' : (0 < IZR c)%R) by (apply IZR_lt; lia).
    rewrite mult_IZR, plus_IZR.
    rewrite ln_mult by (apply IZR_lt; try apply Z.pow_pos_nonneg; lia).
    rewrite ln_self_power by lia.
    unfold Rdiv at 2. rewrite ln_mult by (try apply Rinv_0_lt_compat; lra).
    rewrite ln_Rinv by lra. field. lra.
Qed.

(** Among histograms of the same number of pixels, the order of the
    entropies is the order of [Rank]. *)
Lemma rank_orders_entropy (c1 c2 : list Z) :
  Shannon.total c1 = Shannon.total c2 -> 0 < Shannon.total c1 ->
  Forall (fun c => 0 < c) c1 -> Forall (fun c => 0 < c) c2 ->
  ((Shannon.entropy c1 < Shannon.entropy c2)%R <->
   Rank.ltb (Rank.shannon c1) (Rank.shannon c2) = true) /\
  (Shannon.entropy c1 = Shannon.entropy c2 <->
   Rank.eqb (Rank.shannon c1) (Rank.shannon c2) = true).
Proof.
  intros Ht Hn H1 H2. unfold Shannon.entropy. rewrite <- Ht.
  assert (Hn' : (0 < IZR (Shannon.total c1))%R) by (apply IZR_lt; lia).
  rewrite !entropy_sum_rank by done. rewrite <- Ht.
  set (n := IZR (Shannon.total c1)) in *.
  pose proof (rank_positive c1 H1) as Hr1. pose proof (rank_positive c2 H2) as Hr2.
  apply IZR_lt in Hr1, Hr2.
  set (r1 := Rank.shannon c1) in *. set (r2 := Rank.shannon c2) in *.
  assert (Hinv : (0 < / n)%R) by (by apply Rinv_0_lt_compat).
  unfold Rank.ltb, Rank.eqb. rewrite Z.ltb_lt, Z.eqb_eq. split; split.
  - intros H. apply lt_IZR, ln_lt_inv; [lra..|].
    unfold Rdiv in H. apply Rmult_lt_reg_r in H; [lra|done].
  - intros H. apply IZR_lt, ln_increasing in H; [|lra].
    unfold Rdiv. apply Rmult_lt_compat_r; [done|lra].
  - intros H. apply eq_IZR, ln_inv; [lra..|].
    unfold Rdiv in H. apply Rmult_eq_reg_r in H; [lra|lra].
  - by intros ->.
Qed.

(** ** Raw.denoise *)

Lemma weigh_uint32_nonneg k_num k_denom d : 0 <= weigh_uint32 k_num k_denom d.
Proof. unfold weigh_uint32. apply wrap_uint32_range. Qed.

Lemma subtract_pixels (light dpix : image) k_num k_denom :
  length dpix = length light -> Forall is_uint16 light ->
  let out := zip_with (fun l d => wrap_uint16 (l - d)) light
               (zip_with Z.min (map (weigh_uint32 k_num k_denom) dpix) light) in
  length out = length light /\ Forall is_uint16 out /\
  forall (i : nat) (l : Z), light !! i = Some l ->
    exists d, dpix !! i = Some d /\
      let w := Z.min (weigh_uint32 k_num k_denom d) l in
      0 <= w <= l /\ out !! i = Some (l - w).
Proof.
  intros Hlen Hl. revert dpix Hlen.
  induction Hl as [|l light Hl _ IH]; intros [|d dpix] Hlen; simpl in *; try done.
  destruct (IH dpix ltac:(lia)) as (IH1 & IH2 & IH3).
  pose proof (weigh_uint32_nonneg k_num k_denom d) as Hw.
  unfold is_uint16 in Hl.
  assert (Hs : wrap_uint16 (l - Z.min (weigh_uint32 k_num k_denom d) l)
               = l - Z.min (weigh_uint32 k_num k_denom d) l).
  { apply wrap_uint16_small. unfold is_uint16. lia. }
  rewrite Hs. split; [by rewrite IH1|]. split.
  - constructor; [unfold is_uint16; lia|exact IH2].
  - intros [|i] l0 Hi; simpl in *.
    + injection Hi as <-. exists d. split; [done|]. split; [lia|done].
    + by apply IH3.
Qed.

Lemma subtract_dark_clamped (light : image) (dark : Raw) k_num k_denom out :
  Forall is_uint16 light ->
  subtract_dark light dark k_num k_denom = Ret out ->
  clamped_step light dark k_num k_denom out /\ Forall is_uint16 out.
Proof.
  intros Hl Hs. unfold subtract_dark in Hs.
  destruct (elementwise Z.min _ light) as [dw|] eqn:E1; [|done].
  apply elementwise_inv in E1 as [Hlen ->]. rewrite length_map in Hlen.
  simpl in Hs. apply elementwise_inv in Hs as [_ ->].
  destruct (subtract_pixels light (raw_pixels dark) k_num k_denom Hlen Hl) as (H1 & H2 & H3).
  split; [|exact H2]. split; [exact H1|exact H3].
Qed.

(** With a dark frame of the shape of the light frame the subtraction does
    not raise. *)
Lemma subtract_dark_returns (light : image) (dark : Raw) k_num k_denom :
  length (raw_pixels dark) = length light ->
  exists out, subtract_dark light dark k_num k_denom = Ret out.
Proof.
  intros Hlen. unfold subtract_dark.
  rewrite elementwise_Ret by (by rewrite length_map). simpl.
  rewrite elementwise_Ret; [by eexists|].
  rewrite length_zip_with, length_map. lia.
Qed.

Section Denoise.

Context {E : Type} (E_ltb E_eqb : E -> E -> bool) (shannon : list Z -> E).
Context (steps maxsteps : Z) (mink : Q).

Lemma for_weights_clamped rounds fuel (light : image) (st : gen_state E) triples out :
  Forall is_uint16 light ->
  for_weights E E_ltb E_eqb shannon steps maxsteps mink rounds fuel subtract_dark light st
    = Some (Ret (triples, out)) ->
  clamped_run light triples out /\ Forall is_uint16 out.
Proof.
  revert light st triples out.
  induction rounds as [|rounds IH]; intros light st triples out Hl Hrun; simpl in Hrun; [done|].
  destruct (gen_next _ _ _ _ _ _ _ fuel light st) as [[[[dark k_num k_denom|] st']|e]|];
    try done.
  - destruct (subtract_dark light dark k_num k_denom) as [light'|] eqn:Hsub; [|done].
    destruct (subtract_dark_clamped _ _ _ _ _ Hl Hsub) as [Hstep Hl'].
    destruct (for_weights _ _ _ _ _ _ _ rounds fuel subtract_dark light' st')
      as [[[ts out']|]|] eqn:Hrest; try done.
    injection Hrun as <- <-.
    destruct (IH _ _ _ _ Hl' Hrest) as [Hr Ho].
    split; [|exact Ho]. econstructor; eauto.
  - injection Hrun as <- <-. split; [constructor|exact Hl].
Qed.

(** C6: for every triple [(dark, k_num, k_denom)] that [denoise] applies
    and every pixel, the weighted dark value subtracted is clamped to the
    light pixel, so that the pixel after the subtraction is the
    non-negative difference and no unsigned wrap-around occurs: the run of
    [denoise] is a chain of clamped subtractions that keeps every pixel
    within 16 bits. *)
Theorem denoise_clamped rounds fuel (self : Raw) (darks : list Raw) triples out :
  Forall is_uint16 (raw_pixels self) ->
  denoise E E_ltb E_eqb shannon steps maxsteps mink rounds fuel self darks
    = Some (Ret (triples, out)) ->
  clamped_run (raw_pixels self) triples out /\ Forall is_uint16 out.
Proof. intros Hl Hrun. by eapply for_weights_clamped. Qed.

End Denoise.

Example denoise_sample :
  Samples.denoise 3 4 Samples.light [Samples.dark1; Samples.dark2] =
  Some (Ret ([(Samples.dark1, 256, 512); (Samples.dark2, 0, 512)], [20; 20; 20; 20; 20; 20])).
Proof. vm_compute. reflexivity. Qed.

(** A run in which the clamp binds: the search settles on the weight
    256/512, and at the last pixel the weighted dark is 25 where the light
    is 0, so that 0 is subtracted and the pixel stays 0. *)
Lemma denoise_clamped_witness :
  Forall is_uint16 (raw_pixels Saturated.light) /\
  Samples.denoise 2 4 Saturated.light [Saturated.dark] =
    Some (Ret ([(Saturated.dark, 256, 512)], [0; 0; 0; 0; 0; 0])) /\
  (raw_pixels Saturated.light !! 5%nat = Some 0 /\
   raw_pixels Saturated.dark !! 5%nat = Some 50 /\
   weigh_uint32 256 512 50 = 25 /\
   Z.min (weigh_uint32 256 512 50) 0 = 0) /\
  clamped_run (raw_pixels Saturated.light) [(Saturated.dark, 256, 512)] [0; 0; 0; 0; 0; 0] /\
  Forall is_uint16 [0; 0; 0; 0; 0; 0].
Proof.
  split; [uint16_pixels|]. split; [vm_compute; reflexivity|].
  split; [repeat split; vm_compute; reflexivity|].
  apply (denoise_clamped Rank.ltb Rank.eqb Rank.shannon Samples.steps Samples.maxsteps
           Samples.mink 2 4 Saturated.light [Saturated.dark]);
    [uint16_pixels|vm_compute; reflexivity].
Defined.

(** ** find_entropy_weights *)

Section WeightSearch.

Context {E : Type} (E_ltb E_eqb : E -> E -> bool) (shannon : list Z -> E).
Context (steps maxsteps : Z) (mink : Q).

Local Abbreviation while_ranges' := (while_ranges E E_ltb E_eqb shannon steps maxsteps).
Local Abbreviation gen_next' := (gen_next E E_ltb E_eqb shannon steps maxsteps mink).
Local Abbreviation for_weights' := (for_weights E E_ltb E_eqb shannon steps maxsteps mink).

(** A [yield] leaves the generator suspended on the weight it yielded, which
    has reached the ceiling. *)
Lemma while_ranges_yield fuel light ranges dark base denom st' :
  while_ranges' fuel light ranges = Some (Ret (Yield dark base denom, st')) ->
  exists ranges', st' = GenSuspended E base denom ranges' /\ maxsteps <= denom.
Proof.
  revert ranges. induction fuel as [|fuel IH]; intros ranges; simpl; [done|].
  destruct ranges as [|r ranges]; [done|].
  destruct (_ ≫= _) as [[[ranges' dark'] [[e base'] denom']]|]; [|done].
  destruct (maxsteps <=? denom') eqn:Hd.
  - intros [= <- <- <- <-]. apply Z.leb_le in Hd. eauto.
  - apply IH.
Qed.

Lemma gen_next_yield fuel light st dark base denom st' :
  gen_next' fuel light st = Some (Ret (Yield dark base denom, st')) ->
  exists ranges', st' = GenSuspended E base denom ranges' /\ maxsteps <= denom.
Proof.
  destruct st as [darks|b d ranges|]; simpl; [| |done].
  - destruct (initial_ranges _ _ _ _ _ _) as [ranges|]; [|done]. apply while_ranges_yield.
  - destruct (weight_ratio b d) as [ratio|]; [|done].
    destruct (Qltb ratio mink); [done|].
    destruct (initial_ranges _ _ _ _ _ _) as [ranges'|]; [|done]. apply while_ranges_yield.
Qed.

(** Resumed on a weight below [mink], the generator breaks out of its loop:
    whatever the fuel and the light buffer. *)
Lemma suspended_low_stops base denom ranges ratio fuel light :
  weight_ratio base denom = Ret ratio ->
  Qltb ratio mink = true ->
  gen_next' fuel light (GenSuspended E base denom ranges)
  = Some (Ret (StopIteration, GenDone E)).
Proof. intros Hr Hlt. simpl. by rewrite Hr, Hlt. Qed.

Lemma for_weights_stop rounds fuel body light st :
  gen_next' fuel light st = Some (Ret (StopIteration, GenDone E)) ->
  for_weights' (S rounds) fuel body light st = Some (Ret ([], light)).
Proof. intros H. cbn [for_weights]. by rewrite H. Qed.

(** C7: once the search has emitted a finalized weight whose ratio
    [base / denom] is below [mink], it emits no further triple and
    terminates: the next [next()] ends the generator with [StopIteration],
    not with an exception, whatever fuel it is given, so a loop over the
    rest of the search sees nothing more. *)
Theorem low_weight_stops_search fuel light st dark base denom st' ratio :
  gen_next E E_ltb E_eqb shannon steps maxsteps mink fuel light st
    = Some (Ret (Yield dark base denom, st')) ->
  weight_ratio base denom = Ret ratio ->
  Qltb ratio mink = true ->
  forall rounds fuel' body light',
    gen_next E E_ltb E_eqb shannon steps maxsteps mink fuel' light' st'
      = Some (Ret (StopIteration, GenDone E)) /\
    for_weights E E_ltb E_eqb shannon steps maxsteps mink (S rounds) fuel' body light' st'
      = Some (Ret ([], light')).
Proof.
  intros Hy Hr Hlt rounds fuel' body light'.
  apply gen_next_yield in Hy as (ranges' & -> & _).
  pose proof (suspended_low_stops base denom ranges' ratio fuel' light' Hr Hlt) as Hstop.
  split; [exact Hstop|]. by apply for_weights_stop.
Qed.

(** In the list of the triples of a whole run, a weight below [mink] is
    the last one. *)
Lemma for_weights_last rounds fuel body light st out light' :
  for_weights' rounds fuel body light st = Some (Ret (out, light')) ->
  forall (i : nat) dark base denom ratio,
    out !! i = Some (dark, base, denom) ->
    weight_ratio base denom = Ret ratio -> Qltb ratio mink = true ->
    S i = length out.
Proof.
  revert light st out light'.
  induction rounds as [|rounds IH]; intros light st out light' Hrun; [done|].
  cbn [for_weights] in Hrun.
  destruct (gen_next' fuel light st) as [[[[dark k_num k_denom|] st']|e]|] eqn:Hg; try done.
  - destruct (body light dark k_num k_denom) as [light1|]; [|done].
    destruct (for_weights' rounds fuel body light1 st') as [[[ts out']|]|] eqn:Hrest; try done.
    injection Hrun as <- <-.
    intros [|i] d b dn ratio Hi Hr Hlt; simpl in Hi.
    + injection Hi as <- <- <-.
      apply gen_next_yield in Hg as (ranges' & -> & _).
      destruct rounds; [done|].
      rewrite (for_weights_stop rounds fuel body light1) in Hrest
        by (by eapply suspended_low_stops).
      by injection Hrest as <- <-.
    + simpl. f_equal. eapply IH; eauto.
  - injection Hrun as <- <-. intros i ? ? ? ? Hi. done.
Qed.

End WeightSearch.

(** A search over two dark frames with [mink = 0.6]: the first weight
    emitted, 256/512 for the first dark frame, is below [mink] while the
    second dark frame is still waiting in [ranges]; the search ends
    there. *)
Lemma low_weight_stops_search_witness :
  let mink := (6 # 10)%Q in
  let st' := GenSuspended Z 256 512 [((1, 0, 8), Samples.dark2)] in
  gen_next Z Rank.ltb Rank.eqb Rank.shannon Samples.steps Samples.maxsteps mink
           4 (raw_pixels Samples.light) (GenStart Z [Samples.dark1; Samples.dark2])
    = Some (Ret (Yield Samples.dark1 256 512, st')) /\
  gen_darks st' = [Samples.dark2] /\
  weight_ratio 256 512 = Ret (256 / 512)%Q /\
  Qltb (256 / 512)%Q mink = true /\
  forall rounds fuel' body light',
    gen_next Z Rank.ltb Rank.eqb Rank.shannon Samples.steps Samples.maxsteps mink
             fuel' light' st'
      = Some (Ret (StopIteration, GenDone Z)) /\
    for_weights Z Rank.ltb Rank.eqb Rank.shannon Samples.steps Samples.maxsteps mink
      (S rounds) fuel' body light' st' = Some (Ret ([], light')).
Proof.
  intros mink st'.
  split; [vm_compute; reflexivity|]. split; [reflexivity|].
  split; [reflexivity|]. split; [reflexivity|].
  apply (low_weight_stops_search Rank.ltb Rank.eqb Rank.shannon
           Samples.steps Samples.maxsteps mink
           4%nat (raw_pixels Samples.light) (GenStart Z [Samples.dark1; Samples.dark2])
           Samples.dark1 256 512 st' (256 / 512)%Q);
    [vm_compute; reflexivity|reflexivity|reflexivity].
Defined.

(** The same search with [mink = 0.01] and with [mink = 0.6], the light
    frame untouched: the weight 256/512 ends the second one, and the second
    dark frame gets no weight. *)
Example search_cut_short :
  for_weights Z Rank.ltb Rank.eqb Rank.shannon Samples.steps Samples.maxsteps (1 # 100)
              4 8 (fun l _ _ _ => Ret l) (raw_pixels Samples.light)
              (GenStart Z [Samples.dark1; Samples.dark2])
    = Some (Ret ([(Samples.dark1, 256, 512); (Samples.dark2, 0, 512)],
                 raw_pixels Samples.light)) /\
  for_weights Z Rank.ltb Rank.eqb Rank.shannon Samples.steps Samples.maxsteps (6 # 10)
              4 8 (fun l _ _ _ => Ret l) (raw_pixels Samples.light)
              (GenStart Z [Samples.dark1; Samples.dark2])
    = Some (Ret ([(Samples.dark1, 256, 512)], raw_pixels Samples.light)).
Proof. split; vm_compute; reflexivity. Qed.

(** ** find_entropy_weights: termination *)

Lemma py_min_In {A : Type} (lt : A -> A -> bool) (l : list A) (x : A) :
  py_min lt l = Ret x -> In x l.
Proof.
  destruct l as [|a l]; simpl; [done|]. intros [= <-].
  revert a. induction l as [|b l IH]; intros a; simpl; [by left|].
  destruct (IH (if lt b a then b else a)) as [H|H]; [|by right; right].
  destruct (lt b a); [right; left|left]; exact H.
Qed.

Lemma py_map_In {A B : Type} (f : A -> py B) (l : list A) (ys : list B) (y : B) :
  py_map f l = Ret ys -> In y ys -> exists x, In x l /\ f x = Ret y.
Proof.
  revert ys. induction l as [|a l IH]; intros ys; simpl.
  - by intros [= <-] [].
  - destruct (f a) as [b|] eqn:Hb; [|done]. simpl.
    destruct (py_map f l) as [bs|]; [|done]. simpl. intros [= <-] [<-|Hin].
    + exists a. split; [by left|done].
    + destruct (IH bs eq_refl Hin) as (x & ? & ?). exists x. split; [by right|done].
Qed.

Lemma py_map_length {A B : Type} (f : A -> py B) (l : list A) (ys : list B) :
  py_map f l = Ret ys -> length ys = length l.
Proof.
  revert ys. induction l as [|a l IH]; intros ys; simpl; [by intros [= <-]|].
  destruct (f a) as [b|]; [|done]. simpl.
  destruct (py_map f l) as [bs|]; [|done]. simpl. intros [= <-]. simpl. f_equal. by apply IH.
Qed.

Lemma py_remove_split {A : Type} (eqb : A -> A -> bool) (x : A) (l l' : list A) :
  py_remove eqb x l = Ret l' ->
  exists l1 y l2, l = l1 ++ y :: l2 /\ l' = l1 ++ l2 /\ eqb y x = true.
Proof.
  revert l'. induction l as [|a l IH]; intros l'; simpl; [done|].
  destruct (eqb a x) eqn:Ha.
  - intros [= <-]. by exists [], a, l.
  - destruct (py_remove eqb x l) as [r|]; [|done]. simpl. intros [= <-].
    destruct (IH r eq_refl) as (l1 & y & l2 & -> & -> & Hy).
    by exists (a :: l1), y, l2.
Qed.

Section SearchTermination.

Context {E : Type} (E_ltb E_eqb : E -> E -> bool) (shannon : list Z -> E).
Context (steps maxsteps : Z) (mink : Q).

Local Abbreviation refine' := (_refine_entropy E E_ltb E_eqb shannon steps).
Local Abbreviation while_ranges' := (while_ranges E E_ltb E_eqb shannon steps maxsteps).
Local Abbreviation gen_next' := (gen_next E E_ltb E_eqb shannon steps maxsteps mink).
Local Abbreviation initial_ranges' := (initial_ranges E E_ltb E_eqb shannon steps).
Local Abbreviation measure := (@ranges_measure E maxsteps).

(** A refinement multiplies the denominator by [steps]. *)
Lemma refine_denom light dark denom base e b d :
  refine' light dark denom base = Ret (e, b, d) -> d = denom * steps.
Proof.
  unfold _refine_entropy.
  destruct (py_map _ _) as [cands|] eqn:Hmap; [|done]. simpl. intros Hmin.
  apply py_min_In in Hmin.
  destruct (py_map_In _ _ _ _ Hmap Hmin) as (k & _ & Hk).
  unfold entropy in Hk. destruct (entropy_counts _ _ _ _); [|done].
  simpl in Hk. by injection Hk as _ _ <-.
Qed.

Lemma initial_ranges_denom light darks ranges :
  initial_ranges' light darks = Ret ranges ->
  Forall (fun r => range_denom r = steps) ranges.
Proof.
  intros H. apply Forall_forall. intros r Hr. apply list_elem_of_In in Hr.
  destruct (py_map_In _ _ _ _ H Hr) as (dark & _ & Hd).
  destruct (refine' light dark 1 0) as [[[e b] d]|] eqn:Href; [|done].
  simpl in Hd. injection Hd as <-. apply refine_denom in Href. unfold range_denom. simpl. lia.
Qed.

Lemma measure_app r1 r2 : measure (r1 ++ r2) = (measure r1 + measure r2)%nat.
Proof. induction r1 as [|r r1 IH]; simpl; [done|]. rewrite IH. lia. Qed.

Hypothesis steps_ge_2 : 2 <= steps.

(** Every iteration that does not yield brings the ranges closer to the
    ceiling, so the loop ends: with a [yield], with the end of the
    generator or with an exception. *)
Lemma while_ranges_terminates fuel light ranges :
  Forall (fun r => 1 <= range_denom r) ranges ->
  (measure ranges < fuel)%nat ->
  while_ranges' fuel light ranges <> None.
Proof.
  revert ranges. induction fuel as [|fuel IH]; intros ranges Hinv Hfuel; [lia|].
  cbn [while_ranges].
  destruct ranges as [|r0 ranges0]; [done|].
  set (ranges := r0 :: ranges0) in *.
  destruct (py_min (entry_ltb E E_ltb E_eqb) ranges) as [best|] eqn:Hbest; [|done].
  cbn [mbind py_bind].
  destruct (py_remove (entry_eqb E E_eqb) best ranges) as [ranges'|] eqn:Hrem; [|done].
  cbn [mbind py_bind].
  destruct best as [[[e0 b0] d0] dark].
  destruct (refine' light dark d0 b0) as [[[e b] d]|] eqn:Href; [|done].
  cbn [mbind py_bind].
  destruct (maxsteps <=? d) eqn:Hd; [done|].
  apply Z.leb_gt in Hd. apply refine_denom in Href. subst d.
  destruct (py_remove_split _ _ _ _ Hrem) as (l1 & y & l2 & Hl & -> & Hy).
  assert (Hyd : range_denom y = d0).
  { unfold entry_eqb, range_eqb in Hy. destruct y as [[[ey by'] dy] darky]. simpl in Hy.
    apply andb_prop in Hy as [Hy _]. apply andb_prop in Hy as [_ Hy].
    apply Z.eqb_eq in Hy. exact Hy. }
  rewrite Hl in Hinv, Hfuel.
  apply Forall_app in Hinv as [Hinv1 Hinv2]. apply Forall_cons in Hinv2 as [Hy1 Hinv2].
  rewrite Hyd in Hy1.
  apply IH.
  - apply Forall_app. split; [apply Forall_app; by split|].
    constructor; [|constructor]. unfold range_denom. simpl. nia.
  - rewrite measure_app in Hfuel. simpl in Hfuel. rewrite Hyd in Hfuel.
    rewrite !measure_app. simpl. unfold range_denom at 1. simpl.
    assert (Z.to_nat (maxsteps - d0 * steps) < Z.to_nat (maxsteps - d0))%nat by nia.
    lia.
Qed.

(** Every [next()] on the generator returns, given enough fuel. *)
Lemma gen_next_terminates light st :
  exists fuel, gen_next' fuel light st <> None.
Proof.
  assert (Hinit : forall darks, exists fuel,
            match initial_ranges' light darks with
            | Raise e => Some (Raise e)
            | Ret ranges => while_ranges' fuel light ranges
            end <> None).
  { intros darks. destruct (initial_ranges' light darks) as [ranges|] eqn:Hi; [|by exists O].
    exists (S (measure ranges)).
    apply while_ranges_terminates; [|lia].
    eapply Forall_impl; [by eapply initial_ranges_denom|]. simpl. intros r ->. lia. }
  destruct st as [darks|base denom ranges|]; simpl.
  - apply Hinit.
  - destruct (weight_ratio base denom) as [ratio|]; [|by exists O].
    destruct (Qltb ratio mink); [by exists O|]. apply Hinit.
  - by exists O.
Qed.

End SearchTermination.

(** ** GridTrackingRop: the grid *)

Lemma xrange_step_3 start stop step :
  0 < step -> 0 <= start + 3 * step - stop < step ->
  xrange_step start stop step = Ret [start; start + step; start + 2 * step].
Proof.
  intros Hs Hr. unfold xrange_step.
  rewrite decide_False by lia.
  replace (0 <? step) with true by (symmetry; apply Z.ltb_lt; lia).
  replace ((stop - start + step - 1) / step) with 3.
  - simpl. repeat f_equal; lia.
  - apply Z.div_unique with (step - 1 - (start + 3 * step - stop)); lia.
Qed.

Lemma grid_points_900 tm lm :
  grid_points (mkSizes tm lm 900 900) default_grid_size default_track_roi =
  Ret [(tm + 150, lm + 150); (tm + 150, lm + 450); (tm + 150, lm + 750);
       (tm + 450, lm + 150); (tm + 450, lm + 450); (tm + 450, lm + 750);
       (tm + 750, lm + 150); (tm + 750, lm + 450); (tm + 750, lm + 750)].
Proof.
  unfold grid_points, default_grid_size, default_track_roi.
  cbn [top_margin left_margin iheight iwidth fst snd].
  change (py_int (0 * inject_Z 900)) with 0.
  replace (tm + 900 - 0 - (tm + 0)) with 900 by lia.
  replace (lm + 900 - 0 - (lm + 0)) with 900 by lia.
  change (py_div 900 3) with (Ret (A:=Z) 300). cbn [mbind py_bind].
  change (300 / 2) with 150.
  rewrite (xrange_step_3 (tm + 0 + 150) (tm + 900 - 0) 300) by lia.
  rewrite (xrange_step_3 (lm + 0 + 150) (lm + 900 - 0) 300) by lia.
  cbn. rewrite !Z.add_0_r, <- !Z.add_assoc. reflexivity.
Qed.

(** C9: constructing the registration with the default 3x3 grid over a
    900x900 valid region (whatever its origin [(top_margin, left_margin)])
    and a zero region-of-interest margin creates exactly 9 trackers, whose
    grid coordinates are 300 pixels apart in each axis and start at offset
    150 from the origin of the valid region. *)
Theorem default_grid_900 {F RawState TrackerState : Type}
    (tracker_init : Z * Z -> TrackerState) (raw0 : RawState) (tm lm : Z) :
  exists rop : GridTrackingRop F RawState TrackerState,
    init F RawState TrackerState tracker_init raw0
         (mkSizes tm lm 900 900) default_grid_size default_track_roi = Ret rop /\
    length (trackers rop) = 9%nat /\
    map grid_coords (trackers rop) =
      [(tm + 150, lm + 150); (tm + 150, lm + 450); (tm + 150, lm + 750);
       (tm + 450, lm + 150); (tm + 450, lm + 450); (tm + 450, lm + 750);
       (tm + 750, lm + 150); (tm + 750, lm + 450); (tm + 750, lm + 750)].
Proof.
  unfold init. rewrite grid_points_900. cbn [mbind py_bind].
  eexists. split; [reflexivity|]. split; reflexivity.
Qed.

(** ** GridTrackingRop: the robust fit loop *)

Lemma filter_length_le {A : Type} (f : A -> bool) (l : list A) :
  (length (List.filter f l) <= length l)%nat.
Proof. induction l as [|a l IH]; simpl; [lia|]. destruct (f a); simpl; lia. Qed.

Lemma filter_length_lt {A : Type} (f : A -> bool) (l : list A) (x : A) :
  In x l -> f x = false -> (length (List.filter f l) < length l)%nat.
Proof.
  induction l as [|a l IH]; simpl; [done|]. intros [->|Hin] Hx.
  - rewrite Hx. pose proof (filter_length_le f l). lia.
  - specialize (IH Hin Hx). destruct (f a); simpl; lia.
Qed.

Lemma filter_all {A : Type} (f : A -> bool) (l : list A) :
  Forall (fun x => f x = true) l -> List.filter f l = l.
Proof. induction 1 as [|a l Ha _ IH]; simpl; [done|]. by rewrite Ha, IH. Qed.

Lemma filter_sublist {A : Type} (f : A -> bool) (l : list A) : sublist (List.filter f l) l.
Proof.
  induction l as [|a l IH]; simpl; [constructor|].
  destruct (f a); by constructor.
Qed.

Section FitLoop.

Context {F : Type} (F_ltb : F -> F -> bool) (F_of_Z : Z -> F) (median : list F -> F).
Context {Transform : Type}.
Context (estimate_transform : list (F * F) -> list (F * F) -> Transform).
Context (shift_mag : Transform -> F * F -> F * F -> F).
Context (limit : F).

Local Abbreviation fit_round' :=
  (fit_round F F_ltb median Transform estimate_transform shift_mag limit).
Local Abbreviation fit_loop' :=
  (fit_loop F F_ltb median Transform estimate_transform shift_mag limit).
Local Abbreviation fit_transform' :=
  (fit_transform F F_ltb F_of_Z median Transform estimate_transform shift_mag limit).
Local Abbreviation resid := (row_shift_mag shift_mag).

(** The comparison [<] of floats is a strict order, NaN included. *)
Hypothesis F_ltb_irrefl : forall x, F_ltb x x = false.
Hypothesis F_ltb_trans :
  forall x y z, F_ltb x y = true -> F_ltb y z = true -> F_ltb x z = true.

Lemma F_max_In x xs : In (F_max F F_ltb x xs) (x :: xs).
Proof.
  unfold F_max. revert x. induction xs as [|y xs IH]; intros x; simpl; [by left|].
  destruct (IH (if F_ltb x y then y else x)) as [H|H]; [|by right; right].
  destruct (F_ltb x y); [right; left|left]; exact H.
Qed.

Lemma F_max_seen xs x seen :
  (forall y, In y seen -> F_ltb x y = false) ->
  forall y, In y (seen ++ x :: xs) -> F_ltb (F_max F F_ltb x xs) y = false.
Proof.
  unfold F_max. revert x seen. induction xs as [|z xs IH]; intros x seen Hseen y Hy; simpl.
  - apply in_app_or in Hy as [Hy|[<-|[]]]; [by apply Hseen|apply F_ltb_irrefl].
  - apply (IH _ (seen ++ [x; z])).
    + intros y' Hy'. apply in_app_or in Hy' as [Hy'|[<-|[<-|[]]]].
      * destruct (F_ltb x z) eqn:E; [|by apply Hseen].
        destruct (F_ltb z y') eqn:E'; [|done].
        pose proof (F_ltb_trans _ _ _ E E') as H. by rewrite (Hseen y' Hy') in H.
      * destruct (F_ltb x z) eqn:E; [|apply F_ltb_irrefl].
        destruct (F_ltb z x) eqn:E'; [|done].
        pose proof (F_ltb_trans _ _ _ E E') as H. by rewrite F_ltb_irrefl in H.
      * destruct (F_ltb x z) eqn:E; [apply F_ltb_irrefl|done].
    + apply in_or_app. apply in_app_or in Hy as [Hy|[<-|[<-|Hy]]].
      * left. apply in_or_app. by left.
      * left. apply in_or_app. right. by left.
      * left. apply in_or_app. right. right. by left.
      * right. by right.
Qed.

Lemma F_max_upper x xs y : In y (x :: xs) -> F_ltb (F_max F F_ltb x xs) y = false.
Proof. intros Hy. apply (F_max_seen xs x []); [intros ? []|exact Hy]. Qed.

(** What one round does when the median is over the limit: every sample
    whose error is not below the largest error goes. *)
Lemma fit_round_over ts t m res :
  ts <> [] ->
  fit_round' ts = (t, m, res) ->
  F_ltb limit m = true ->
  exists worst,
    (exists w, In w ts /\ resid t w = worst) /\
    (forall r, In r ts -> F_ltb worst (resid t r) = false) /\
    let kept := List.filter (fun r => F_ltb (resid t r) worst) ts in
    res = (if 3 <=? Z.of_nat (length kept) then Some kept else None) /\
    (length kept < length ts)%nat.
Proof.
  intros Hne. unfold fit_round.
  set (t0 := estimate_transform _ _).
  destruct (F_ltb limit (median (map (resid t0) ts))) eqn:Hm.
  2:{ intros [= <- <- <-] H. by rewrite H in Hm. }
  destruct ts as [|r0 ts0]; [done|].
  set (ts := r0 :: ts0) in *.
  change (map (resid t0) ts) with (resid t0 r0 :: map (resid t0) ts0).
  set (worst := F_max F F_ltb (resid t0 r0) (map (resid t0) ts0)).
  intros Hr _.
  assert (Ht : t = t0) by (destruct (3 <=? _); by injection Hr).
  subst t. exists worst.
  assert (Hin : exists w, In w ts /\ resid t0 w = worst).
  { pose proof (F_max_In (resid t0 r0) (map (resid t0) ts0)) as H.
    change (In worst (map (resid t0) ts)) in H.
    apply in_map_iff in H as (w & Hw & Hi). eauto. }
  assert (Hup : forall r, In r ts -> F_ltb worst (resid t0 r) = false).
  { intros r Hi. apply F_max_upper. change (In (resid t0 r) (map (resid t0) ts)).
    by apply in_map. }
  split; [exact Hin|]. split; [exact Hup|]. cbv zeta. split.
  - destruct (3 <=? _); by injection Hr.
  - destruct Hin as (w & Hw & <-). apply filter_length_lt with w; [done|apply F_ltb_irrefl].
Qed.

(** A round whose median is within the limit removes nothing. *)
Lemma fit_round_within ts t m res :
  fit_round' ts = (t, m, res) ->
  F_ltb limit m = false ->
  res = Some ts.
Proof.
  unfold fit_round. set (t0 := estimate_transform _ _).
  destruct (F_ltb limit (median (map (resid t0) ts))) eqn:Hm.
  - destruct (3 <=? _); intros [= <- <- <-] H; by rewrite H in Hm.
  - by intros [= <- <- <-] _.
Qed.

Lemma fit_round_fit ts t m res :
  fit_round' ts = (t, m, res) ->
  t = estimate_transform (map src ts) (map dst ts) /\ m = median (map (resid t) ts).
Proof.
  unfold fit_round. set (t0 := estimate_transform _ _).
  destruct (F_ltb limit _); [destruct (3 <=? _)|]; by intros [= <- <- <-].
Qed.

Lemma fit_round_sublist ts t m ts' :
  fit_round' ts = (t, m, Some ts') -> sublist ts' ts.
Proof.
  unfold fit_round. set (t0 := estimate_transform _ _).
  destruct (F_ltb limit _); [destruct (3 <=? _)|]; intros [= <- <- <-]; [|done].
  apply filter_sublist.
Qed.

(** The loop ends within [fit_fuel] iterations. *)
Lemma fit_loop_total fuel m ts tr :
  (S (length ts) < fuel)%nat -> exists e, fit_loop' fuel m ts tr = Some e.
Proof.
  revert m ts tr. induction fuel as [|fuel IH]; intros m ts tr Hf; [lia|].
  cbn [fit_loop].
  destruct (F_ltb limit m && (3 <? Z.of_nat (length ts))) eqn:Hc; [|eauto].
  apply andb_prop in Hc as [Hm Hlen]. apply Z.ltb_lt in Hlen.
  destruct (fit_round' ts) as [[t' m'] [ts'|]] eqn:Hr; [|eauto].
  destruct (F_ltb limit m') eqn:Hm'.
  - destruct (fit_round_over ts t' m' (Some ts')) as (worst & _ & _ & Hres & Hlt);
      [by destruct ts|done|done|].
    cbv zeta in Hres. destruct (3 <=? _); [|done]. injection Hres as ->.
    apply IH. lia.
  - destruct fuel as [|fuel]; [lia|]. cbn [fit_loop]. rewrite Hm'. simpl. eauto.
Qed.

(** A loop entered over the limit and left within it has just fitted the
    samples it is left with. *)
Lemma fit_loop_exit_within fuel m0 ts0 tr0 m ts tr :
  fit_loop' fuel m0 ts0 tr0 = Some (LoopExit m ts tr) ->
  F_ltb limit m0 = true -> F_ltb limit m = false ->
  exists t, tr = Some t /\
    t = estimate_transform (map src ts) (map dst ts) /\
    m = median (map (resid t) ts) /\
    (3 < length ts)%nat /\ sublist ts ts0.
Proof.
  revert m0 ts0 tr0. induction fuel as [|fuel IH]; intros m0 ts0 tr0; [done|].
  cbn [fit_loop]. intros Hl Hm0 Hm.
  destruct (F_ltb limit m0 && (3 <? Z.of_nat (length ts0))) eqn:Hc.
  2:{ injection Hl as <- <- <-. by rewrite Hm0 in Hm. }
  apply andb_prop in Hc as [_ Hlen]. apply Z.ltb_lt in Hlen.
  destruct (fit_round' ts0) as [[t' m'] [ts'|]] eqn:Hr; [|done].
  destruct (F_ltb limit m') eqn:Hm'.
  - destruct (IH _ _ _ Hl Hm' Hm) as (t & -> & Ht & Hmed & Hn & Hsub).
    exists t. repeat split; try done.
    etrans; [exact Hsub|]. by eapply fit_round_sublist.
  - pose proof (fit_round_within _ _ _ _ Hr Hm') as [= ->].
    destruct fuel as [|fuel]; [done|]. cbn [fit_loop] in Hl. rewrite Hm' in Hl.
    simpl in Hl. injection Hl as <- <- <-.
    destruct (fit_round_fit _ _ _ _ Hr) as [Ht Hmed].
    exists t'. repeat split; try done. lia.
Qed.

(** With exactly four samples the frame is always rejected. *)
Lemma four_samples_rejected ts :
  length ts = 4%nat -> fit_transform' ts = Some (Ret None).
Proof.
  intros H4. unfold fit_transform.
  destruct (fit_loop_total (fit_fuel ts) (F_of_Z 100) ts None) as [e He];
    [unfold fit_fuel; lia|].
  rewrite He. simpl. f_equal.
  destruct e as [|m ts' tr]; [done|]. simpl.
  assert (Hlen : (length ts' <= 4)%nat).
  { clear -He H4. rewrite <- H4. generalize dependent (fit_fuel ts).
    generalize (F_of_Z 100) (@None Transform). revert ts H4.
    assert (G : forall fuel ts0 m0 tr0,
               fit_loop' fuel m0 ts0 tr0 = Some (LoopExit m ts' tr) ->
               (length ts' <= length ts0)%nat).
    { induction fuel as [|fuel IH]; intros ts0 m0 tr0; [done|]. cbn [fit_loop].
      destruct (_ && _).
      - destruct (fit_round' ts0) as [[t' m'] [ts1|]] eqn:Hr; [|done].
        intros Hl. apply IH in Hl. apply fit_round_sublist, sublist_length in Hr. lia.
      - by intros [= <- <- <-]. }
    intros ts _ m0 tr0 fuel. apply G. }
  replace (Z.of_nat (length ts') <=? 4) with true by (symmetry; apply Z.leb_le; lia).
  by rewrite orb_true_r.
Qed.

(** C2 (amended): in every iteration of the fit loop where the median error
    exceeds the limit, every sample whose error is not below the largest
    error is dropped before refitting (or, when fewer than 3 samples would
    remain, the frame is rejected): at least one sample, exactly one when
    a single sample has the largest error, and all of them when several
    samples tie for it. *)
Theorem worst_samples_removed ts t m res :
  ts <> [] ->
  fit_round F F_ltb median Transform estimate_transform shift_mag limit ts = (t, m, res) ->
  F_ltb limit m = true ->
  exists worst,
    (exists w, In w ts /\ row_shift_mag shift_mag t w = worst) /\
    (forall r, In r ts -> F_ltb worst (row_shift_mag shift_mag t r) = false) /\
    let kept := List.filter (fun r => F_ltb (row_shift_mag shift_mag t r) worst) ts in
    res = (if 3 <=? Z.of_nat (length kept) then Some kept else None) /\
    (length kept < length ts)%nat /\
    (forall l1 w l2, ts = l1 ++ w :: l2 ->
       Forall (fun r => F_ltb (row_shift_mag shift_mag t r)
                              (row_shift_mag shift_mag t w) = true) (l1 ++ l2) ->
       kept = l1 ++ l2).
Proof.
  intros Hne Hr Hm.
  destruct (fit_round_over ts t m res Hne Hr Hm) as (worst & Hin & Hup & Hres & Hlt).
  exists worst. split; [exact Hin|]. split; [exact Hup|]. cbv zeta in *.
  split; [exact Hres|]. split; [exact Hlt|].
  intros l1 w l2 Hts Hbelow.
  assert (Hw : worst = resid t w).
  { destruct Hin as (w0 & Hw0 & <-). rewrite Hts in Hw0.
    assert (Hin_w : In w ts) by (rewrite Hts; apply in_or_app; right; by left).
    pose proof (Hup w Hin_w) as Hnot.
    apply Forall_app in Hbelow as [H1 H2]. rewrite Forall_forall in H1, H2.
    apply in_app_or in Hw0 as [Hw0|[->|Hw0]]; [|done|].
    - apply list_elem_of_In, H1 in Hw0. by rewrite Hw0 in Hnot.
    - apply list_elem_of_In, H2 in Hw0. by rewrite Hw0 in Hnot. }
  rewrite Hw, Hts, List.filter_app. simpl. rewrite F_ltb_irrefl.
  apply Forall_app in Hbelow as [H1 H2].
  by rewrite (filter_all _ l1 H1), (filter_all _ l2 H2).
Qed.

(** C1 (amended): the loop always ends; [detect] returns the fitted
    transform exactly when the loop ends with the median error within the
    limit and at least 5 samples left, and then the transform is the fit of
    these samples; it returns [None] exactly when the loop rejects the
    frame (an outlier removal would leave fewer than 3 samples), or ends
    with the median error over the limit, or with at most 4 samples left.
    (For a limit below the initial value 100 of the median.) *)
Theorem fitted_transform_iff ts :
  F_ltb limit (F_of_Z 100) = true ->
  let result :=
    fit_transform F F_ltb F_of_Z median Transform estimate_transform shift_mag limit ts in
  exists e,
    fit_loop F F_ltb median Transform estimate_transform shift_mag limit
             (fit_fuel ts) (F_of_Z 100) ts None = Some e /\
    (forall t, result = Some (Ret (Some t)) <->
       exists m ts', e = LoopExit m ts' (Some t) /\
         F_ltb limit m = false /\ (5 <= length ts')%nat) /\
    (result = Some (Ret None) <->
       e = LoopRejected \/
       exists m ts' tr, e = LoopExit m ts' tr /\
         (F_ltb limit m = true \/ (length ts' <= 4)%nat)) /\
    (forall m ts' t, e = LoopExit m ts' (Some t) -> F_ltb limit m = false ->
       t = estimate_transform (map src ts') (map dst ts') /\
       m = median (map (row_shift_mag shift_mag t) ts') /\ sublist ts' ts) /\
    (result = Some (Ret None) \/ exists t, result = Some (Ret (Some t))).
Proof.
  intros H100 result. subst result.
  destruct (fit_loop_total (fit_fuel ts) (F_of_Z 100) ts None) as [e He];
    [unfold fit_fuel; lia|].
  exists e. split; [exact He|].
  assert (Hfit : fit_transform' ts = Some (fit_end F F_ltb Transform limit e)).
  { unfold fit_transform. by rewrite He. }
  assert (Hexit : forall m ts' tr, e = LoopExit m ts' tr -> F_ltb limit m = false ->
            exists t, tr = Some t /\ t = estimate_transform (map src ts') (map dst ts') /\
              m = median (map (resid t) ts') /\ sublist ts' ts).
  { intros m ts' tr -> Hm.
    destruct (fit_loop_exit_within _ _ _ _ _ _ _ He H100 Hm) as (t & -> & ? & ? & _ & ?).
    eauto. }
  rewrite Hfit. clear Hfit He.
  destruct e as [|m ts' tr]; simpl.
  - split; [|split; [|split]].
    + intros t. split; [done|]. by intros (? & ? & ? & _).
    + split; [by left|done].
    + by intros.
    + by left.
  - destruct (F_ltb limit m) eqn:Hm; simpl.
    + split; [|split; [|split]].
      * intros t. split; [done|]. intros (? & ? & [= -> -> ->] & Hm' & _). congruence.
      * split; [right; by eauto 6|done].
      * intros ? ? ? [= -> -> ->] Hm'. congruence.
      * by left.
    + destruct (Hexit m ts' tr eq_refl Hm) as (t & -> & Ht & Hmed & Hsub).
      destruct (Z.leb_spec (Z.of_nat (length ts')) 4) as [Hle|Hgt].
      * split; [|split; [|split]].
        -- intros t'. split; [done|]. intros (? & ? & [= -> -> ->] & _ & H5). lia.
        -- split; [right; exists m, ts', (Some t); split; [done|right; lia]|done].
        -- by intros ? ? ? [= -> -> ->] _.
        -- by left.
      * split; [|split; [|split]].
        -- intros t'. split.
           ++ intros [= ->]. exists m, ts'. split; [done|]. split; [done|lia].
           ++ by intros (? & ? & [= -> -> ->] & _).
        -- split; [done|]. intros [|(? & ? & ? & [= -> -> ->] & [|])]; [done|congruence|lia].
        -- by intros ? ? ? [= -> -> ->] _.
        -- right. by eexists.
Qed.

End FitLoop.

Lemma Qltb_lt (a b : Q) : Qltb a b = true <-> (a < b)%Q.
Proof.
  unfold Qltb. rewrite negb_true_iff. split.
  - intros H. apply Qnot_le_lt. intros Hle. apply Qle_bool_iff in Hle. congruence.
  - intros H. destruct (Qle_bool b a) eqn:E; [|done].
    apply Qle_bool_iff in E. by apply Qle_not_lt in E.
Qed.

Lemma Qltb_irrefl (x : Q) : Qltb x x = false.
Proof.
  destruct (Qltb x x) eqn:E; [|done]. apply Qltb_lt in E. by apply Qlt_irrefl in E.
Qed.

Lemma Qltb_trans (x y z : Q) : Qltb x y = true -> Qltb y z = true -> Qltb x z = true.
Proof. rewrite !Qltb_lt. apply Qlt_trans. Qed.

(** C1, as the specification states it, fails: a static frame seen by four
    trackers ends the loop with the median error 0, within the limit 2, and
    4 samples left, and [detect] returns [None]. *)
Lemma four_good_samples_rejected :
  Exact.fit_loop 2 (fit_fuel Exact.static_2x2) (inject_Z 100) Exact.static_2x2 None
    = Some (LoopExit 0%Q Exact.static_2x2 (Some (1, 0, 0, 0)%Q)) /\
  Qltb 2 0 = false /\
  (4 <= length Exact.static_2x2)%nat /\
  Exact.fit_transform 2 Exact.static_2x2 = Some (Ret None).
Proof. split; [vm_compute; reflexivity|]. split; [reflexivity|]. split; [simpl; lia|reflexivity]. Qed.

Lemma fitted_transform_iff_witness :
  Qltb 2 (inject_Z 100) = true /\
  let result := Exact.fit_transform 2 Exact.outlier_3x3 in
  exists e,
    Exact.fit_loop 2 (fit_fuel Exact.outlier_3x3) (inject_Z 100) Exact.outlier_3x3 None = Some e /\
    (forall t, result = Some (Ret (Some t)) <->
       exists m ts', e = LoopExit m ts' (Some t) /\
         Qltb 2 m = false /\ (5 <= length ts')%nat) /\
    (result = Some (Ret None) <->
       e = LoopRejected \/
       exists m ts' tr, e = LoopExit m ts' tr /\
         (Qltb 2 m = true \/ (length ts' <= 4)%nat)) /\
    (forall m ts' t, e = LoopExit m ts' (Some t) -> Qltb 2 m = false ->
       t = Exact.estimate (map src ts') (map dst ts') /\
       m = Exact.median (map (row_shift_mag Exact.shift_mag t) ts') /\
       sublist ts' Exact.outlier_3x3) /\
    (result = Some (Ret None) \/ exists t, result = Some (Ret (Some t))).
Proof.
  split; [reflexivity|].
  apply (fitted_transform_iff Qltb inject_Z Exact.median Exact.estimate Exact.shift_mag 2%Q
           Qltb_irrefl Qltb_trans Exact.outlier_3x3).
  reflexivity.
Defined.

Example outlier_3x3_fitted :
  Exact.fit_transform 2 Exact.outlier_3x3 = Some (Ret (Some (1, 0, 0, 0)%Q)).
Proof. vm_compute. reflexivity. Qed.

(** C2, as the specification states it, fails: with six samples whose
    errors are equal in pairs, the first iteration finds the median error
    136 over the limit 2 and drops the two samples of error 144 at once. *)
Lemma tied_samples_removed_together :
  map (row_shift_mag Exact.shift_mag (1, 0, 0, 0)%Q) Exact.symmetric_2x3
    = [144; 20; 136; 136; 20; 144]%Q /\
  Exact.fit_round 2 Exact.symmetric_2x3 =
    ((1, 0, 0, 0)%Q, 136%Q,
     Some [Exact.row 150 450 154 448; Exact.row 150 750 160 744;
           Exact.row 450 150 440 156; Exact.row 450 450 446 452]) /\
  Qltb 2 136 = true /\
  length Exact.symmetric_2x3 = 6%nat.
Proof.
  split; [vm_compute; reflexivity|]. split; [vm_compute; reflexivity|]. split; reflexivity.
Qed.

Lemma worst_samples_removed_witness :
  let ts := Exact.outlier_3x3 in
  let t := fst (fst (Exact.fit_round 2 ts)) in
  let m := snd (fst (Exact.fit_round 2 ts)) in
  let res := snd (Exact.fit_round 2 ts) in
  ts <> [] /\
  Exact.fit_round 2 ts = (t, m, res) /\
  Qltb 2 m = true /\
  exists worst,
    (exists w, In w ts /\ row_shift_mag Exact.shift_mag t w = worst) /\
    (forall r, In r ts -> Qltb worst (row_shift_mag Exact.shift_mag t r) = false) /\
    let kept := List.filter (fun r => Qltb (row_shift_mag Exact.shift_mag t r) worst) ts in
    res = (if 3 <=? Z.of_nat (length kept) then Some kept else None) /\
    (length kept < length ts)%nat /\
    (forall l1 w l2, ts = l1 ++ w :: l2 ->
       Forall (fun r => Qltb (row_shift_mag Exact.shift_mag t r)
                             (row_shift_mag Exact.shift_mag t w) = true) (l1 ++ l2) ->
       kept = l1 ++ l2).
Proof.
  intros ts t m res.
  assert (Hr : Exact.fit_round 2 ts = (t, m, res)).
  { subst t m res. by destruct (Exact.fit_round 2 ts) as [[? ?] ?]. }
  split; [discriminate|]. split; [exact Hr|].
  split; [vm_compute; reflexivity|].
  apply (worst_samples_removed Qltb Exact.median Exact.estimate Exact.shift_mag 2%Q
           Qltb_irrefl Qltb_trans ts t m res);
    [discriminate|exact Hr|vm_compute; reflexivity].
Defined.

(** ** GridTrackingRop: the tracking cache *)

Section Cache.

Context {F : Type} (F_ltb : F -> F -> bool) (F_of_Z : Z -> F) (F_div : F -> Z -> F).
Context (median : list F -> F).
Context {Transform : Type}.
Context (estimate_transform : list (F * F) -> list (F * F) -> Transform).
Context (shift_mag : Transform -> F * F -> F * F -> F).
Context (limit : F).
Context {Frame : Type} (frame_key : Frame -> Key).
Context {RawState Luma : Type}.
Context (set_raw_image : RawState -> Frame -> RawState) (luma_of : RawState -> Luma).
Context (vshape_of lshape_of : RawState -> Z * Z).
Context (deglow : option (Frame -> Frame)).
Context {TrackerState : Type}.
Context (tracker_detect :
  TrackerState -> Frame -> option Frame -> Luma -> py (TrackerState * (F * F * F * F))).
Context (pattern_shape : Z * Z).

Local Abbreviation detect' :=
  (detect F F_ltb F_of_Z F_div median Transform estimate_transform shift_mag limit
          Frame frame_key RawState Luma set_raw_image luma_of vshape_of lshape_of deglow
          TrackerState tracker_detect pattern_shape).
Local Abbreviation detect_fit' :=
  (detect_fit F F_ltb F_of_Z F_div median Transform estimate_transform shift_mag limit
              pattern_shape).

(** With at least one tracker and non-zero scales, [detect] returns what
    the fit of the rescaled measurements returns, with the two scales. *)
Lemma detect_fit_transform translations vshape lshape ly lx ydiv xdiv :
  translations <> [] ->
  py_div (fst vshape) (fst lshape) = Ret ly ->
  py_div (snd vshape) (snd lshape) = Ret lx ->
  py_div (fst pattern_shape) ly = Ret ydiv ->
  py_div (snd pattern_shape) lx = Ret xdiv ->
  detect_fit' (translations, vshape, lshape) =
  ((Some ly, Some lx),
   match fit_transform F F_ltb F_of_Z median Transform estimate_transform shift_mag limit
           (map (rescale F F_div ydiv xdiv) translations) with
   | None => None
   | Some (Raise e) => Some (Raise e)
   | Some (Ret None) => Some (Ret None)
   | Some (Ret (Some tr)) => Some (Ret (Some (tr, ly, lx)))
   end).
Proof.
  intros Hne Hly Hlx Hy Hx. unfold detect_fit. rewrite Hly, Hlx.
  destruct pattern_shape as [ysize xsize]. simpl in Hy, Hx.
  rewrite decide_False by done. cbn [mbind py_bind]. rewrite Hy. cbn [mbind py_bind].
  rewrite Hx. cbn [mbind py_bind]. reflexivity.
Qed.

(** A call that returns leaves the measurement it used in the cache, under
    the key of the frame. *)
Lemma detect_fills_cache self data img set_data luma self1 r :
  detect' self data img set_data luma = (self1, Some (Ret r)) ->
  exists cache entry,
    tracking_cache self1 = Some cache /\
    cache !! frame_key (default data img) = Some entry /\
    snd (detect_fit' entry) = Some (Ret r).
Proof.
  unfold detect.
  destruct (default ∅ (tracking_cache self) !! frame_key (default data img))
    as [entry|] eqn:Hc.
  - destruct (detect_fit' entry) as [[ly lx] result] eqn:Hfit.
    intros [= <- <-]. exists (default ∅ (tracking_cache self)), entry.
    by rewrite Hfit.
  - destruct (map_detect _ _ _ _ _ _ _ _ _ _) as [calls [[trackers' translations]|e]];
      [|by intros [= _ ?]].
    destruct (detect_fit' _) as [[ly lx] result] eqn:Hfit.
    intros [= <- <-]. eexists _, _. simpl. split; [done|].
    split; [apply lookup_insert_eq|]. by rewrite Hfit.
Qed.

(** A cache hit: no tracker is asked, the raw is not touched. *)
Lemma detect_hit self data img set_data luma cache entry :
  tracking_cache self = Some cache ->
  cache !! frame_key (default data img) = Some entry ->
  exists ly lx,
    detect' self data img set_data luma =
    (mkRop (raw self) (trackers self) (Some cache) ly lx (tracker_calls self),
     snd (detect_fit' entry)).
Proof.
  intros Hc He. unfold detect. rewrite Hc. simpl. rewrite He.
  destruct (detect_fit' entry) as [[ly lx] result]. by eexists _, _.
Qed.

(** C8: a second [detect] of a frame with the same identity key as a frame
    already detected makes no call to any tracker (the trackers are not
    mapped over again and the raw is not set) and returns the very result
    of the first call, transform and scales. *)
Theorem detect_twice self data img set_data luma self1 r
    data' img' set_data' luma' :
  detect F F_ltb F_of_Z F_div median Transform estimate_transform shift_mag limit
         Frame frame_key RawState Luma set_raw_image luma_of vshape_of lshape_of deglow
         TrackerState tracker_detect pattern_shape
         self data img set_data luma = (self1, Some (Ret r)) ->
  frame_key (default data' img') = frame_key (default data img) ->
  exists self2,
    detect F F_ltb F_of_Z F_div median Transform estimate_transform shift_mag limit
           Frame frame_key RawState Luma set_raw_image luma_of vshape_of lshape_of deglow
           TrackerState tracker_detect pattern_shape
           self1 data' img' set_data' luma' = (self2, Some (Ret r)) /\
    tracker_calls self2 = tracker_calls self1 /\
    trackers self2 = trackers self1 /\
    raw self2 = raw self1 /\
    tracking_cache self2 = tracking_cache self1.
Proof.
  intros H1 Hkey.
  destruct (detect_fills_cache _ _ _ _ _ _ _ H1) as (cache & entry & Hc & He & Hr).
  rewrite <- Hkey in He.
  destruct (detect_hit self1 data' img' set_data' luma' cache entry Hc He) as (ly & lx & H2).
  rewrite Hr in H2. eexists. split; [exact H2|]. simpl. by rewrite Hc.
Qed.

End Cache.

Lemma detect_twice_witness :
  let r := Some ((1, 0, 0, 0)%Q, 1, 1) in
  Rig.detect Rig.rop0 7 None true None = (Rig.rop1, Some (Ret r)) /\
  @inr string Z (default 7 (Some 7)) = inr (default 7 None) /\
  exists self2,
    Rig.detect Rig.rop1 7 (Some 7) true None = (self2, Some (Ret r)) /\
    tracker_calls self2 = tracker_calls Rig.rop1 /\
    trackers self2 = trackers Rig.rop1 /\
    raw self2 = raw Rig.rop1 /\
    tracking_cache self2 = tracking_cache Rig.rop1.
Proof.
  intros r.
  assert (H1 : Rig.detect Rig.rop0 7 None true None = (Rig.rop1, Some (Ret r))).
  { unfold Rig.rop1. destruct (Rig.detect Rig.rop0 7 None true None) as [s1 r1] eqn:E.
    simpl. f_equal. change r1 with (snd (s1, r1)). rewrite <- E. vm_compute. reflexivity. }
  split; [exact H1|]. split; [reflexivity|].
  apply (detect_twice Qltb inject_Z Exact.div_Z Exact.median Exact.estimate
           Exact.shift_mag 2%Q (fun f : Z => @inr string Z f) (fun _ _ => tt) (fun _ => tt)
           (fun _ => (1800, 1800)) (fun _ => (1800, 1800)) None Rig.tracker_detect (2, 2)
           Rig.rop0 7 None true None Rig.rop1 r 7 (Some 7) true None);
    [exact H1|reflexivity].
Defined.

Example first_detect_asks_trackers : tracker_calls Rig.rop1 = 9%nat.
Proof. vm_compute. reflexivity. Qed.

(** ** RawAccumulator: sums and averages *)

Lemma zip_with_wrap_sum (a f : image) (k : Z) :
  length f = length a -> 0 <= k < 65537 ->
  Forall (fun x => 0 <= x <= k * 65535) a -> Forall is_uint16 f ->
  let s := zip_with (fun x y => wrap_uint32 (x + y)) a f in
  length s = length a /\
  Forall (fun x => 0 <= x <= (k + 1) * 65535) s /\
  forall i : nat, (i < length a)%nat ->
    s !! i = Some (default 0 (a !! i) + default 0 (f !! i)).
Proof.
  intros Hlen Hk Ha. revert f Hlen.
  induction Ha as [|x a Hx _ IH]; intros [|y f] Hlen Hf; simpl in *; try done.
  - split; [done|]. split; [constructor|]. intros i Hi. lia.
  - apply Forall_cons in Hf as [Hy Hf]. unfold is_uint16 in Hy.
    destruct (IH f ltac:(lia) Hf) as (IH1 & IH2 & IH3).
    assert (Hw : wrap_uint32 (x + y) = x + y).
    { unfold wrap_uint32. apply Z.mod_small. nia. }
    rewrite Hw. split; [by rewrite IH1|]. split.
    + constructor; [nia|exact IH2].
    + intros [|i] Hi; simpl; [done|]. apply IH3. lia.
Qed.

Lemma iadd_all_sum (frames : list image) (a : image) (k : Z) :
  0 <= k -> k + Z.of_nat (length frames) <= 65537 ->
  Forall (fun x => 0 <= x <= k * 65535) a ->
  Forall (fun f => length f = length a /\ Forall is_uint16 f) frames ->
  exists s,
    iadd_all {| RawAccumulator.accum := Some a; RawAccumulator.num_images := k |} frames
    = Ret {| RawAccumulator.accum := Some s;
             RawAccumulator.num_images := k + Z.of_nat (length frames) |} /\
    length s = length a /\
    forall i : nat, (i < length a)%nat ->
      s !! i = Some (default 0 (a !! i) + column_sum frames i).
Proof.
  revert a k. induction frames as [|f frames IH]; intros a k Hk Hn Ha Hfs.
  - exists a. simpl. rewrite Z.add_0_r. split; [done|]. split; [done|].
    intros i Hi. destruct (a !! i) as [x|] eqn:E; [simpl; f_equal; unfold column_sum; simpl; lia|].
    apply lookup_ge_None in E. lia.
  - apply Forall_cons in Hfs as [[Hlen Hf] Hfs]. cbn [length] in Hn. rewrite Nat2Z.inj_succ in Hn.
    destruct (zip_with_wrap_sum a f k Hlen ltac:(lia) Ha Hf) as (Hl & Hb & Hs).
    cbn [iadd_all]. unfold RawAccumulator.iadd. cbn [RawAccumulator.accum].
    rewrite elementwise_Ret by done. cbn [mbind py_bind RawAccumulator.num_images].
    destruct (IH _ (k + 1) ltac:(lia) ltac:(lia) Hb) as (s & Hrun & Hls & Hsum).
    { eapply Forall_impl; [exact Hfs|]. simpl. intros g [Hg ?]. split; [lia|done]. }
    exists s. split.
    + rewrite Hrun. do 2 f_equal. cbn [length]. lia.
    + split; [lia|]. intros i Hi. rewrite Hsum by lia. rewrite Hs by done.
      simpl. f_equal. lia.
Qed.

Lemma accumulate_sum_run (frames : list image) (n : nat) :
  frames <> [] ->
  Z.of_nat (length frames) <= 65537 ->
  Forall (fun f => length f = n /\ Forall is_uint16 f) frames ->
  exists acc s,
    accumulate frames = Ret acc /\
    RawAccumulator.num_images acc = Z.of_nat (length frames) /\
    RawAccumulator.accum acc = Some s /\
    length s = n /\
    forall i : nat, (i < n)%nat -> s !! i = Some (column_sum frames i).
Proof.
  intros Hne Hlen Hfs. destruct frames as [|f frames]; [done|].
  apply Forall_cons in Hfs as [[Hn Hf] Hfs]. cbn [length] in Hlen. rewrite Nat2Z.inj_succ in Hlen.
  unfold accumulate. cbn [iadd_all]. unfold RawAccumulator.iadd. simpl RawAccumulator.accum.
  cbn [mbind py_bind].
  assert (Hid : astype_uint32 f = f).
  { unfold astype_uint32. clear -Hf. induction Hf as [|x f Hx _ IH]; simpl; [done|].
    rewrite IH. f_equal. unfold wrap_uint32, is_uint16 in *. apply Z.mod_small. lia. }
  rewrite Hid.
  destruct (iadd_all_sum frames f 1) as (s & Hrun & Hls & Hsum); [lia|lia| | |].
  { eapply Forall_impl; [exact Hf|]. unfold is_uint16. simpl. lia. }
  { eapply Forall_impl; [exact Hfs|]. simpl. intros g [Hg ?]. split; [lia|done]. }
  eexists _, s. split; [exact Hrun|]. cbn [RawAccumulator.num_images RawAccumulator.accum length].
  split; [lia|]. split; [done|].
  split; [lia|]. intros i Hi. rewrite Hsum by lia. done.
Qed.

(** X1: accumulating up to 65537 frames of 16-bit pixels of one shape never
    wraps the 32-bit sum: the count is the number of frames and every
    accumulated pixel is the exact sum of this pixel over the frames. *)
Theorem accumulate_exact_sum (frames : list image) (n : nat) :
  frames <> [] ->
  Z.of_nat (length frames) <= 65537 ->
  Forall (fun f => length f = n /\ Forall is_uint16 f) frames ->
  exists acc s,
    accumulate frames = Ret acc /\
    RawAccumulator.num_images acc = Z.of_nat (length frames) /\
    RawAccumulator.accum acc = Some s /\
    length s = n /\
    forall i : nat, (i < n)%nat -> s !! i = Some (column_sum frames i).
Proof. apply accumulate_sum_run. Qed.

Lemma accumulate_exact_sum_witness :
  let frames := [[65535; 3; 32768]; [65535; 4; 32768]] in
  frames <> [] /\ Z.of_nat (length frames) <= 65537 /\
  Forall (fun f => length f = 3%nat /\ Forall is_uint16 f) frames /\
  exists acc s,
    accumulate frames = Ret acc /\
    RawAccumulator.num_images acc = Z.of_nat (length frames) /\
    RawAccumulator.accum acc = Some s /\
    length s = 3%nat /\
    forall i : nat, (i < 3)%nat -> s !! i = Some (column_sum frames i).
Proof.
  intros frames.
  assert (Hfs : Forall (fun f => length f = 3%nat /\ Forall is_uint16 f) frames).
  { repeat (constructor; [split; [reflexivity|uint16_pixels]|]). constructor. }
  split; [discriminate|]. split; [simpl; lia|]. split; [exact Hfs|].
  apply (accumulate_exact_sum frames 3); [discriminate|simpl; lia|exact Hfs].
Defined.

Lemma lookup_map {A B : Type} (g : A -> B) (l : list A) (i : nat) :
  map g l !! i = g <$> (l !! i).
Proof. revert i. induction l as [|a l IH]; intros [|i]; simpl; auto. Qed.

Lemma column_sum_replicate (k : nat) (f : image) (i : nat) (x : Z) :
  f !! i = Some x -> column_sum (replicate k f) i = Z.of_nat k * x.
Proof.
  intros Hx. induction k as [|k IH]; [done|].
  change (replicate (S k) f) with (f :: replicate k f).
  unfold column_sum in *. cbn [fold_right]. rewrite IH, Hx. simpl. lia.
Qed.

(** X2: the average of [k] copies of one 16-bit frame ([1 <= k <= 65537])
    is this frame, pixel for pixel; nothing is lost to the integer
    division. *)
Theorem average_of_copies (f : image) (k : nat) :
  1 <= Z.of_nat k <= 65537 ->
  Forall is_uint16 f ->
  exists acc,
    accumulate (replicate k f) = Ret acc /\
    RawAccumulator.average acc = Some f.
Proof.
  intros Hk Hf.
  destruct (accumulate_sum_run (replicate k f) (length f)) as (acc & s & Hrun & Hn & Hs & Hl & Hsum).
  { destruct k; [lia|done]. }
  { rewrite length_replicate. lia. }
  { apply Forall_replicate. done. }
  exists acc. split; [exact Hrun|].
  unfold RawAccumulator.average. rewrite Hs, Hn, length_replicate. f_equal.
  apply list_eq. intros i. rewrite lookup_map.
  destruct (f !! i) as [x|] eqn:Hx.
  - rewrite Hsum by (by eapply lookup_lt_Some).
    symmetry. etrans; [exact Hx|]. simpl. f_equal.
    rewrite (column_sum_replicate k f i x Hx).
    rewrite Z.mul_comm. symmetry. apply Z.div_mul. lia.
  - rewrite (proj2 (lookup_ge_None s i)) by (apply lookup_ge_None in Hx; lia).
    symmetry. exact Hx.
Qed.

Lemma average_of_copies_witness :
  1 <= Z.of_nat 3 <= 65537 /\ Forall is_uint16 [65535; 3; 32768] /\
  exists acc,
    accumulate (replicate 3 [65535; 3; 32768]) = Ret acc /\
    RawAccumulator.average acc = Some [65535; 3; 32768].
Proof.
  split; [lia|]. split; [uint16_pixels|].
  apply (average_of_copies [65535; 3; 32768] 3); [lia|uint16_pixels].
Defined.

(** ** find_entropy_weights: what a run emits *)

Lemma xrange_In (a b k : Z) : In k (xrange a b) -> a <= k < b.
Proof.
  unfold xrange. intros H. apply in_map_iff in H as (i & <- & Hi).
  apply in_seq in Hi. lia.
Qed.

Lemma py_remove_length {A : Type} (eqb : A -> A -> bool) (x : A) (l l' : list A) :
  py_remove eqb x l = Ret l' ->
  S (length l') = length l /\ forall y, In y l' -> In y l.
Proof.
  intros H. destruct (py_remove_split _ _ _ _ H) as (l1 & y & l2 & -> & -> & _).
  rewrite !length_app. simpl. split; [lia|].
  intros z Hz. apply in_app_or in Hz as [Hz|Hz]; apply in_or_app; [by left|right; by right].
Qed.

Lemma unit_ratio (b d : Z) :
  0 <= b < d -> (0 <= inject_Z b / inject_Z d)%Q /\ (inject_Z b / inject_Z d < 1)%Q.
Proof.
  intros H.
  assert (Hd : (0 < inject_Z d)%Q).
  { change 0%Q with (inject_Z 0). rewrite <- Zlt_Qlt. lia. }
  split.
  - apply Qle_shift_div_l; [done|]. rewrite Qmult_0_l.
    change 0%Q with (inject_Z 0). rewrite <- Zle_Qle. lia.
  - apply Qlt_shift_div_r; [done|]. rewrite Qmult_1_l. rewrite <- Zlt_Qlt. lia.
Qed.

Section SearchRuns.

Context {E : Type} (E_ltb E_eqb : E -> E -> bool) (shannon : list Z -> E).
Context (steps maxsteps : Z) (mink : Q).

Local Abbreviation refine' := (_refine_entropy E E_ltb E_eqb shannon steps).
Local Abbreviation while_ranges' := (while_ranges E E_ltb E_eqb shannon steps maxsteps).
Local Abbreviation gen_next' := (gen_next E E_ltb E_eqb shannon steps maxsteps mink).
Local Abbreviation for_weights' := (for_weights E E_ltb E_eqb shannon steps maxsteps mink).
Local Abbreviation initial_ranges' := (initial_ranges E E_ltb E_eqb shannon steps).

(** A refinement picks its numerator among the [steps] candidates. *)
Lemma refine_base light dark denom base e b d :
  refine' light dark denom base = Ret (e, b, d) ->
  d = denom * steps /\ base * steps <= b < base * steps + steps.
Proof.
  unfold _refine_entropy.
  destruct (py_map _ _) as [cands|] eqn:Hmap; [|done]. simpl. intros Hmin.
  apply py_min_In in Hmin.
  destruct (py_map_In _ _ _ _ Hmap Hmin) as (k & Hk & Hent).
  apply xrange_In in Hk.
  unfold entropy in Hent. destruct (entropy_counts _ _ _ _); [|done].
  simpl in Hent. injection Hent as _ <- <-. split; [done|lia].
Qed.

Lemma refine_unit light dark d0 b0 e b d :
  0 <= b0 < d0 -> refine' light dark d0 b0 = Ret (e, b, d) -> 0 <= b < d.
Proof. intros H0 Hr. apply refine_base in Hr as [-> Hb]. nia. Qed.

Lemma initial_ranges_spec light darks ranges :
  initial_ranges' light darks = Ret ranges ->
  map snd ranges = darks /\ Forall unit_range ranges.
Proof.
  unfold initial_ranges. revert ranges.
  induction darks as [|dark darks IH]; intros ranges; cbn [py_map].
  - intros [= <-]. split; [done|constructor].
  - destruct (refine' light dark 1 0) as [[[e b] d]|] eqn:Href; cbn [mbind py_bind]; [|done].
    destruct (py_map _ darks) as [rs|] eqn:Hrs; cbn [mbind py_bind]; [|done]. intros [= <-].
    destruct (IH rs) as [Hm Hu]; [done|]. simpl. split; [by rewrite Hm|].
    constructor; [|exact Hu]. unfold unit_range, range_base, range_denom. simpl.
    eapply refine_unit; [|exact Href]. lia.
Qed.

(** What a [yield] leaves behind. *)
Lemma while_ranges_emits fuel light ranges dark base denom st' :
  while_ranges' fuel light ranges = Some (Ret (Yield dark base denom, st')) ->
  Forall unit_range ranges ->
  exists ranges',
    st' = GenSuspended E base denom ranges' /\
    S (length ranges') = length ranges /\
    In dark (map snd ranges) /\
    (forall d, In d (map snd ranges') -> In d (map snd ranges)) /\
    0 <= base < denom /\ maxsteps <= denom.
Proof.
  revert ranges. induction fuel as [|fuel IH]; intros ranges; [done|].
  cbn [while_ranges].
  destruct ranges as [|r0 ranges0]; [done|].
  set (ranges := r0 :: ranges0).
  destruct (py_min (entry_ltb E E_ltb E_eqb) ranges) as [best|] eqn:Hbest; [|done].
  cbn [mbind py_bind].
  destruct (py_remove (entry_eqb E E_eqb) best ranges) as [ranges'|] eqn:Hrem; [|done].
  cbn [mbind py_bind].
  destruct best as [[[e0 b0] d0] dark0].
  destruct (refine' light dark0 d0 b0) as [[[e b] d]|] eqn:Href; [|done].
  cbn [mbind py_bind].
  intros Hrun Hu.
  apply py_min_In in Hbest.
  destruct (py_remove_length _ _ _ _ Hrem) as [Hlen Hsub].
  assert (Hb0 : 0 <= b0 < d0).
  { rewrite Forall_forall in Hu. apply list_elem_of_In, Hu in Hbest. exact Hbest. }
  pose proof (refine_unit _ _ _ _ _ _ _ Hb0 Href) as Hb.
  assert (Hdark : In dark0 (map snd ranges)).
  { apply in_map_iff. by exists (e0, b0, d0, dark0). }
  assert (Hsnd : forall x, In x (map snd ranges') -> In x (map snd ranges)).
  { intros x Hx. apply in_map_iff in Hx as (y & <- & Hy). apply in_map. by apply Hsub. }
  destruct (maxsteps <=? d) eqn:Hd.
  - injection Hrun as <- <- <- <-. apply Z.leb_le in Hd.
    exists ranges'. repeat split; try done; lia.
  - destruct (IH _ Hrun) as (rs & -> & Hl & Hin & Hs & Hbd).
    { apply Forall_app. split.
      - apply Forall_forall. intros y Hy. apply list_elem_of_In, Hsub in Hy.
        rewrite Forall_forall in Hu. by apply Hu, list_elem_of_In.
      - constructor; [|constructor]. exact Hb. }
    rewrite length_app in Hl. simpl in Hl.
    assert (Hstep : forall x, In x (map snd (ranges' ++ [(e, b, d, dark0)])) ->
                              In x (map snd ranges)).
    { intros x Hx. rewrite map_app in Hx. apply in_app_or in Hx as [Hx|[<-|[]]]; auto. }
    exists rs. repeat split; try tauto; try lia; auto.
Qed.

Lemma gen_next_emits fuel light st dark base denom st' :
  gen_next' fuel light st = Some (Ret (Yield dark base denom, st')) ->
  (length (gen_darks st') < length (gen_darks st))%nat /\
  In dark (gen_darks st) /\
  (forall d, In d (gen_darks st') -> In d (gen_darks st)) /\
  0 <= base < denom /\ maxsteps <= denom.
Proof.
  assert (Hinit : forall darks,
            match initial_ranges' light darks with
            | Raise e => Some (Raise e)
            | Ret ranges => while_ranges' fuel light ranges
            end = Some (Ret (Yield dark base denom, st')) ->
            (length (gen_darks st') < length darks)%nat /\
            In dark darks /\ (forall d, In d (gen_darks st') -> In d darks) /\
            0 <= base < denom /\ maxsteps <= denom).
  { intros darks. destruct (initial_ranges' light darks) as [ranges|] eqn:Hi; [|done].
    apply initial_ranges_spec in Hi as [<- Hu]. intros Hrun.
    destruct (while_ranges_emits _ _ _ _ _ _ _ Hrun Hu) as (rs & -> & Hl & Hin & Hs & Hb).
    simpl. rewrite !length_map. unfold entry in *. repeat split; auto; try lia. }
  destruct st as [darks|b d ranges|]; simpl; [apply Hinit| |done].
  destruct (weight_ratio b d) as [ratio|]; [|done].
  destruct (Qltb ratio mink); [done|]. apply Hinit.
Qed.

Lemma for_weights_emits rounds fuel body light st out light' :
  for_weights' rounds fuel body light st = Some (Ret (out, light')) ->
  (length out <= length (gen_darks st))%nat /\
  Forall (fun t => In (fst (fst t)) (gen_darks st) /\
                   0 <= snd (fst t) < snd t /\ maxsteps <= snd t) out.
Proof.
  revert light st out light'.
  induction rounds as [|rounds IH]; intros light st out light' Hrun; [done|].
  cbn [for_weights] in Hrun.
  destruct (gen_next' fuel light st) as [[[[dark k_num k_denom|] st']|e]|] eqn:Hg; try done.
  - destruct (body light dark k_num k_denom) as [light1|]; [|done].
    destruct (for_weights' rounds fuel body light1 st') as [[[ts out']|]|] eqn:Hrest; try done.
    injection Hrun as <- <-.
    destruct (gen_next_emits _ _ _ _ _ _ _ Hg) as (Hlen & Hin & Hsub & Hb & Hm).
    destruct (IH _ _ _ _ Hrest) as [Hl Hall]. simpl. split; [lia|].
    constructor; [done|]. eapply Forall_impl; [exact Hall|]. simpl.
    intros t (Ht & ?). split; [by apply Hsub|done].
  - injection Hrun as <- <-. split; [simpl; lia|constructor].
Qed.

Lemma py_remove_perm {A : Type} (eqb : A -> A -> bool) (x : A) (l l' : list A) :
  py_remove eqb x l = Ret l' -> exists y, eqb y x = true /\ l ≡ₚ y :: l'.
Proof.
  intros H. destruct (py_remove_split _ _ _ _ H) as (l1 & y & l2 & -> & -> & Hy).
  exists y. split; [exact Hy|]. symmetry. apply Permutation_middle.
Qed.

(** The identities of the dark frames of the ranges are neither lost nor
    duplicated by the loop: the frame emitted and the frames left are,
    together, the frames the loop started with. *)
Lemma while_ranges_ids fuel light ranges dark base denom st' :
  while_ranges' fuel light ranges = Some (Ret (Yield dark base denom, st')) ->
  raw_id dark :: map raw_id (gen_darks st') ≡ₚ map raw_id (map snd ranges).
Proof.
  revert ranges. induction fuel as [|fuel IH]; intros ranges; [done|].
  cbn [while_ranges].
  destruct ranges as [|r0 ranges0]; [done|].
  set (ranges := r0 :: ranges0).
  destruct (py_min (entry_ltb E E_ltb E_eqb) ranges) as [best|] eqn:Hbest; [|done].
  cbn [mbind py_bind].
  destruct (py_remove (entry_eqb E E_eqb) best ranges) as [ranges'|] eqn:Hrem; [|done].
  cbn [mbind py_bind].
  destruct (py_remove_perm _ _ _ _ Hrem) as (y & Hy & Hperm).
  assert (Hid : raw_id (snd y) = raw_id (snd best)).
  { unfold entry_eqb in Hy. apply andb_true_iff in Hy as [_ Hy]. by apply Z.eqb_eq. }
  destruct best as [[[e0 b0] d0] dark0]. cbn [snd] in Hid.
  destruct (refine' light dark0 d0 b0) as [[[e b] d]|] eqn:Href; [|done].
  cbn [mbind py_bind].
  assert (Hids : raw_id dark0 :: map raw_id (map snd ranges') ≡ₚ map raw_id (map snd ranges)).
  { rewrite Hperm. cbn [map]. by rewrite Hid. }
  destruct (maxsteps <=? d).
  - intros [= <- <- <- <-]. exact Hids.
  - intros Hrun. rewrite (IH _ Hrun), <- Hids, !map_app. cbn [map snd].
    symmetry. apply Permutation_cons_append.
Qed.

Lemma gen_next_ids fuel light st dark base denom st' :
  gen_next' fuel light st = Some (Ret (Yield dark base denom, st')) ->
  raw_id dark :: map raw_id (gen_darks st') ≡ₚ map raw_id (gen_darks st).
Proof.
  assert (Hinit : forall darks,
            match initial_ranges' light darks with
            | Raise e => Some (Raise e)
            | Ret ranges => while_ranges' fuel light ranges
            end = Some (Ret (Yield dark base denom, st')) ->
            raw_id dark :: map raw_id (gen_darks st') ≡ₚ map raw_id darks).
  { intros darks. destruct (initial_ranges' light darks) as [ranges|] eqn:Hi; [|done].
    apply initial_ranges_spec in Hi as [<- _]. apply while_ranges_ids. }
  destruct st as [darks|b d ranges|]; simpl; [apply Hinit| |done].
  destruct (weight_ratio b d) as [ratio|]; [|done].
  destruct (Qltb ratio mink); [done|]. apply Hinit.
Qed.

Lemma for_weights_ids rounds fuel body light st out light' :
  for_weights' rounds fuel body light st = Some (Ret (out, light')) ->
  map (fun t => raw_id (fst (fst t))) out ⊆+ map raw_id (gen_darks st).
Proof.
  revert light st out light'.
  induction rounds as [|rounds IH]; intros light st out light' Hrun; [done|].
  cbn [for_weights] in Hrun.
  destruct (gen_next' fuel light st) as [[[[dark k_num k_denom|] st']|e]|] eqn:Hg; try done.
  - destruct (body light dark k_num k_denom) as [light1|]; [|done].
    destruct (for_weights' rounds fuel body light1 st') as [[[ts out']|]|] eqn:Hrest; try done.
    injection Hrun as <- <-. cbn [map fst].
    rewrite <- (gen_next_ids _ _ _ _ _ _ _ Hg). apply submseteq_skip. by eapply IH.
  - injection Hrun as <- <-. apply submseteq_nil_l.
Qed.

(** X3: a search over [darks] emits weights for frames of [darks] only, and
    for each frame (frames are told apart by their identity) at most as
    many weights as the frame has occurrences in [darks]: at most one
    triple per dark frame, and no frame twice when the frames of [darks]
    are distinct. *)
Theorem search_emits_given_darks rounds fuel body light darks out light' :
  for_weights E E_ltb E_eqb shannon steps maxsteps mink rounds fuel body light
              (GenStart E darks) = Some (Ret (out, light')) ->
  Forall (fun t => In (fst (fst t)) darks) out /\
  map (fun t => raw_id (fst (fst t))) out ⊆+ map raw_id darks /\
  (length out <= length darks)%nat /\
  (NoDup (map raw_id darks) -> NoDup (map (fun t => raw_id (fst (fst t))) out)).
Proof.
  intros Hrun. destruct (for_weights_emits _ _ _ _ _ _ _ Hrun) as [Hl Hall].
  pose proof (for_weights_ids _ _ _ _ _ _ _ Hrun) as Hids. cbn [gen_darks] in Hids.
  split; [eapply Forall_impl; [exact Hall|]; simpl; tauto|].
  split; [exact Hids|]. split; [exact Hl|].
  intros Hnd. apply submseteq_Permutation in Hids as [k Hk].
  rewrite Hk in Hnd. by apply NoDup_app in Hnd as [? _].
Qed.

(** X4: every weight the search emits is a fraction [base / denom] of
    [[0, 1)] whose denominator has reached the ceiling [maxsteps]; the test
    of its ratio against [mink] cannot divide by zero. *)
Theorem search_weights_below_one rounds fuel body light st out light' :
  for_weights E E_ltb E_eqb shannon steps maxsteps mink rounds fuel body light st
    = Some (Ret (out, light')) ->
  Forall (fun t =>
            0 <= snd (fst t) < snd t /\ maxsteps <= snd t /\
            exists q, weight_ratio (snd (fst t)) (snd t) = Ret q /\ (0 <= q)%Q /\ (q < 1)%Q)
         out.
Proof.
  intros Hrun. destruct (for_weights_emits _ _ _ _ _ _ _ Hrun) as [_ Hall].
  eapply Forall_impl; [exact Hall|]. simpl. intros [[dark b] d] (_ & Hb & Hm). simpl in *.
  split; [done|]. split; [done|].
  unfold weight_ratio. rewrite decide_False by lia. eexists. split; [reflexivity|].
  by apply unit_ratio.
Qed.

End SearchRuns.

Lemma search_emits_given_darks_witness :
  let darks := [Samples.dark1; Samples.dark2] in
  let triples := [(Samples.dark1, 256, 512); (Samples.dark2, 0, 512)] in
  for_weights Z Rank.ltb Rank.eqb Rank.shannon Samples.steps Samples.maxsteps Samples.mink
              3 4 subtract_dark (raw_pixels Samples.light) (GenStart Z darks)
    = Some (Ret (triples, [20; 20; 20; 20; 20; 20])) /\
  Forall (fun t => In (fst (fst t)) darks) triples /\
  map (fun t => raw_id (fst (fst t))) triples ⊆+ map raw_id darks /\
  (length triples <= length darks)%nat /\
  (NoDup (map raw_id darks) -> NoDup (map (fun t => raw_id (fst (fst t))) triples)).
Proof.
  intros darks triples. split; [vm_compute; reflexivity|].
  apply (search_emits_given_darks Rank.ltb Rank.eqb Rank.shannon Samples.steps
           Samples.maxsteps Samples.mink 3 4 subtract_dark (raw_pixels Samples.light)
           darks triples [20; 20; 20; 20; 20; 20]).
  vm_compute. reflexivity.
Defined.

Lemma search_weights_below_one_witness :
  let triples := [(Samples.dark1, 256, 512); (Samples.dark2, 0, 512)] in
  for_weights Z Rank.ltb Rank.eqb Rank.shannon Samples.steps Samples.maxsteps Samples.mink
              3 4 subtract_dark (raw_pixels Samples.light)
              (GenStart Z [Samples.dark1; Samples.dark2])
    = Some (Ret (triples, [20; 20; 20; 20; 20; 20])) /\
  Forall (fun t =>
            0 <= snd (fst t) < snd t /\ Samples.maxsteps <= snd t /\
            exists q, weight_ratio (snd (fst t)) (snd t) = Ret q /\ (0 <= q)%Q /\ (q < 1)%Q)
         triples.
Proof.
  intros triples. split; [vm_compute; reflexivity|].
  apply (search_weights_below_one Rank.ltb Rank.eqb Rank.shannon Samples.steps
           Samples.maxsteps Samples.mink 3 4 subtract_dark (raw_pixels Samples.light)
           (GenStart Z [Samples.dark1; Samples.dark2]) triples [20; 20; 20; 20; 20; 20]).
  vm_compute. reflexivity.
Defined.

(** ** find_entropy_weights: how long a run takes *)

Section SearchBounds.

Context {E : Type} (E_ltb E_eqb : E -> E -> bool) (shannon : list Z -> E).
Context (steps maxsteps : Z) (mink : Q).

Local Abbreviation while_ranges' := (while_ranges E E_ltb E_eqb shannon steps maxsteps).
Local Abbreviation gen_next' := (gen_next E E_ltb E_eqb shannon steps maxsteps mink).
Local Abbreviation for_weights' := (for_weights E E_ltb E_eqb shannon steps maxsteps mink).
Local Abbreviation initial_ranges' := (initial_ranges E E_ltb E_eqb shannon steps).

Lemma measure_initial (ranges : list (entry E)) :
  Forall (fun r => range_denom r = steps) ranges ->
  ranges_measure maxsteps ranges = (length ranges * Z.to_nat (maxsteps - steps))%nat.
Proof.
  induction 1 as [|r ranges Hr _ IH]; [done|].
  cbn [ranges_measure fold_right length] in *. unfold ranges_measure in IH.
  rewrite IH, Hr. lia.
Qed.

Hypothesis steps_ge_2 : 2 <= steps.

Lemma gen_next_within_fuel (n : nat) light st :
  (length (gen_darks st) <= n)%nat ->
  gen_next' (search_fuel steps maxsteps n) light st <> None.
Proof.
  assert (Hinit : forall darks, (length darks <= n)%nat ->
            match initial_ranges' light darks with
            | Raise e => Some (Raise e)
            | Ret ranges => while_ranges' (search_fuel steps maxsteps n) light ranges
            end <> None).
  { intros darks Hn. destruct (initial_ranges' light darks) as [ranges|] eqn:Hi; [|done].
    pose proof (initial_ranges_denom _ _ _ _ _ _ _ Hi) as Hd.
    apply initial_ranges_spec in Hi as [Hm _].
    apply while_ranges_terminates; [exact steps_ge_2| |].
    - eapply Forall_impl; [exact Hd|]. simpl. intros r ->. lia.
    - rewrite (measure_initial _ Hd). unfold search_fuel.
      assert (length ranges = length darks) by (by rewrite <- Hm, length_map).
      unfold entry in *. nia. }
  destruct st as [darks|base denom ranges|]; simpl; intros Hn.
  - by apply Hinit.
  - destruct (weight_ratio base denom) as [ratio|]; [|done].
    destruct (Qltb ratio mink); [done|]. by apply Hinit.
  - done.
Qed.

Lemma for_weights_within (n rounds : nat) body light st :
  (length (gen_darks st) <= n)%nat ->
  (length (gen_darks st) < rounds)%nat ->
  for_weights' rounds (search_fuel steps maxsteps n) body light st <> None.
Proof.
  revert light st. induction rounds as [|rounds IH]; intros light st Hn Hr; [lia|].
  cbn [for_weights].
  pose proof (gen_next_within_fuel n light st Hn) as Hg.
  destruct (gen_next' _ light st) as [[[[dark k_num k_denom|] st']|e]|] eqn:Hnext; try done.
  destruct (body light dark k_num k_denom) as [light1|]; [|done].
  destruct (gen_next_emits _ _ _ _ _ _ _ _ _ _ _ _ _ Hnext) as (Hlen & _).
  specialize (IH light1 st' ltac:(lia) ltac:(lia)).
  by destruct (for_weights' rounds _ body light1 st') as [[[ts out']|]|].
Qed.

End SearchBounds.

(** ** find_entropy_weights: a single step per round *)

Lemma py_remove_member {A : Type} (eqb : A -> A -> bool) (x : A) (l : list A) :
  In x l -> eqb x x = true -> exists l', py_remove eqb x l = Ret l'.
Proof.
  induction l as [|a l IH]; simpl; [done|]. intros Hin Hx.
  destruct (eqb a x) eqn:Ha; [by eexists|].
  destruct Hin as [->|Hin]; [congruence|].
  destruct (IH Hin Hx) as [l' ->]. simpl. by eexists.
Qed.

Section SingleStep.

Context {E : Type} (E_ltb E_eqb : E -> E -> bool) (shannon : list Z -> E).
Context (maxsteps : Z) (mink : Q).

Local Abbreviation refine1 := (_refine_entropy E E_ltb E_eqb shannon 1).
Local Abbreviation while_ranges1 := (while_ranges E E_ltb E_eqb shannon 1 maxsteps).

(** An entropy value equals itself (no NaN). *)
Hypothesis E_eqb_refl : forall e, E_eqb e e = true.
Hypothesis maxsteps_gt_1 : 1 < maxsteps.

(** With [steps = 1] a refinement has one candidate and returns the range
    it was given. *)
Lemma refine_single light dark denom base :
  length (raw_pixels dark) = length light ->
  exists e, refine1 light dark denom base = Ret (e, base, denom).
Proof.
  intros Hlen. unfold _refine_entropy.
  replace (base * 1 + 1) with (base + 1) by lia. rewrite !Z.mul_1_r.
  unfold xrange. replace (base + 1 - base) with 1 by lia.
  change (Z.to_nat 1) with 1%nat. cbn [seq map py_map].
  unfold entropy, entropy_counts, entropy_residual.
  rewrite elementwise_Ret by (unfold astype_int32; by rewrite !length_map).
  cbn [mbind py_bind py_min fold_left]. rewrite Z.add_0_r. by eexists.
Qed.

Lemma while_ranges_spins fuel light ranges :
  ranges <> [] -> Forall (spinning maxsteps light) ranges ->
  while_ranges1 fuel light ranges = None.
Proof.
  revert ranges. induction fuel as [|fuel IH]; intros ranges Hne Hs; [done|].
  cbn [while_ranges].
  destruct ranges as [|r0 ranges0]; [done|].
  set (ranges := r0 :: ranges0) in *.
  destruct (py_min (entry_ltb E E_ltb E_eqb) ranges) as [best|] eqn:Hbest; [|done].
  apply py_min_In in Hbest. cbn [mbind py_bind].
  destruct (py_remove_member (entry_eqb E E_eqb) best ranges Hbest) as [ranges' Hrem].
  { destruct best as [[[e b] d] dark]. unfold entry_eqb, range_eqb. simpl.
    by rewrite E_eqb_refl, !Z.eqb_refl. }
  rewrite Hrem. cbn [mbind py_bind].
  destruct (py_remove_length _ _ _ _ Hrem) as [_ Hsub].
  assert (Hb : spinning maxsteps light best).
  { rewrite Forall_forall in Hs. by apply Hs, list_elem_of_In. }
  destruct best as [[[e0 b0] d0] dark]. destruct Hb as [Hd Hshape]. simpl in Hd, Hshape.
  destruct (refine_single light dark d0 b0 Hshape) as [e ->]. cbn [mbind py_bind].
  unfold range_denom in Hd. simpl in Hd.
  replace (maxsteps <=? d0) with false by (symmetry; apply Z.leb_gt; lia).
  apply IH; [by destruct ranges'|].
  apply Forall_app. split.
  - apply Forall_forall. intros y Hy. apply list_elem_of_In, Hsub in Hy.
    rewrite Forall_forall in Hs. by apply Hs, list_elem_of_In.
  - constructor; [|constructor]. by split.
Qed.

(** X6: with [steps = 1] (and a ceiling above 1) the search over a
    non-empty list of dark frames of the shape of the light frame never
    yields and never ends: each round refines a range into itself, and any
    number of iterations leaves the loop still running. *)
Theorem single_step_search_never_ends fuel light (darks : list Raw) :
  darks <> [] ->
  Forall (fun dark => length (raw_pixels dark) = length light) darks ->
  gen_next E E_ltb E_eqb shannon 1 maxsteps mink fuel light (GenStart E darks) = None.
Proof.
  intros Hne Hshape. cbn [gen_next].
  assert (Hinit : exists ranges,
            initial_ranges E E_ltb E_eqb shannon 1 light darks = Ret ranges /\
            length ranges = length darks /\ Forall (spinning maxsteps light) ranges).
  { clear Hne. unfold initial_ranges. induction Hshape as [|dark darks Hd _ IH]; cbn [py_map].
    - exists []. by repeat split.
    - destruct (refine_single light dark 1 0 Hd) as [e ->]. cbn [mbind py_bind].
      destruct IH as (rs & -> & Hl & Hs). cbn [mbind py_bind].
      eexists. split; [reflexivity|]. split; [simpl; by rewrite Hl|].
      constructor; [|exact Hs]. split; [exact maxsteps_gt_1|exact Hd]. }
  destruct Hinit as (ranges & -> & Hl & Hs).
  apply while_ranges_spins; [|exact Hs].
  destruct ranges; [by destruct darks|done].
Qed.

End SingleStep.

Lemma single_step_search_never_ends_witness :
  (forall e, Rank.eqb e e = true) /\ 1 < Samples.maxsteps /\
  [Samples.dark1] <> [] /\
  Forall (fun dark => length (raw_pixels dark) = length (raw_pixels Samples.light))
         [Samples.dark1] /\
  gen_next Z Rank.ltb Rank.eqb Rank.shannon 1 Samples.maxsteps Samples.mink
           1000 (raw_pixels Samples.light) (GenStart Z [Samples.dark1]) = None.
Proof.
  assert (Hrefl : forall e, Rank.eqb e e = true) by (intros e; apply Z.eqb_refl).
  split; [exact Hrefl|]. split; [reflexivity|]. split; [discriminate|].
  split; [by repeat constructor|].
  apply (single_step_search_never_ends Rank.ltb Rank.eqb Rank.shannon Samples.maxsteps
           Samples.mink Hrefl ltac:(reflexivity) 1000 (raw_pixels Samples.light)
           [Samples.dark1]); [discriminate|by repeat constructor].
Defined.

(** ** Raw.denoise: the arithmetic of one subtraction *)

Lemma subtract_pixels_exact (light dpix : image) k_num k_denom :
  length dpix = length light -> Forall is_uint16 light -> Forall is_uint16 dpix ->
  0 <= k_num <= 65537 -> 0 < k_denom ->
  zip_with (fun l d => wrap_uint16 (l - d)) light
    (zip_with Z.min (map (weigh_uint32 k_num k_denom) dpix) light)
  = zip_with (fun l d => Z.max 0 (l - d * k_num / k_denom)) light dpix.
Proof.
  intros Hlen Hl. revert dpix Hlen.
  induction Hl as [|l light Hl _ IH]; intros [|d dpix] Hlen Hd Hn Hk; simpl in *; try done.
  apply Forall_cons in Hd as [Hd Hd']. unfold is_uint16 in *.
  rewrite IH by (done || lia). f_equal.
  assert (Hw : weigh_uint32 k_num k_denom d = d * k_num / k_denom /\ 0 <= d * k_num / k_denom).
  { unfold weigh_uint32, wrap_uint32. rewrite (Z.mod_small d) by lia.
    assert (0 <= d * k_num < 2 ^ 32) by nia.
    rewrite (Z.mod_small (d * k_num)) by lia.
    assert (0 <= d * k_num / k_denom <= d * k_num).
    { split; [apply Z.div_pos; lia|]. apply Z.div_le_upper_bound; [lia|]. nia. }
    rewrite Z.mod_small by lia. lia. }
  destruct Hw as [-> Hw]. rewrite wrap_uint16_small by (unfold is_uint16; lia). lia.
Qed.

(** X7: for 16-bit frames of one shape and a weight [k_num / k_denom] with
    [0 <= k_num <= 65537] and [k_denom > 0] nothing wraps in the 32-bit
    product, and one step of [denoise] is the saturating subtraction of
    the weighted dark: each pixel becomes
    [max(0, light - dark * k_num / k_denom)] (integer quotient). *)
Theorem subtract_dark_saturating (raw_image : image) (dark : Raw) (k_num k_denom : Z) :
  length (raw_pixels dark) = length raw_image ->
  Forall is_uint16 raw_image -> Forall is_uint16 (raw_pixels dark) ->
  0 <= k_num <= 65537 -> 0 < k_denom ->
  subtract_dark raw_image dark k_num k_denom =
  Ret (zip_with (fun l d => Z.max 0 (l - d * k_num / k_denom)) raw_image (raw_pixels dark)).
Proof.
  intros Hlen Hl Hd Hn Hk. unfold subtract_dark.
  rewrite elementwise_Ret by (by rewrite length_map). cbn [mbind py_bind].
  rewrite elementwise_Ret by (rewrite length_zip_with, length_map; lia).
  f_equal. by apply subtract_pixels_exact.
Qed.

Lemma subtract_dark_saturating_witness :
  let light := raw_pixels Samples.light in
  length (raw_pixels Samples.dark1) = length light /\
  Forall is_uint16 light /\ Forall is_uint16 (raw_pixels Samples.dark1) /\
  0 <= 700 <= 65537 /\ 0 < 512 /\
  subtract_dark light Samples.dark1 700 512 =
  Ret (zip_with (fun l d => Z.max 0 (l - d * 700 / 512)) light (raw_pixels Samples.dark1)).
Proof.
  intros light. split; [reflexivity|]. split; [uint16_pixels|]. split; [uint16_pixels|].
  split; [lia|]. split; [lia|].
  apply (subtract_dark_saturating light Samples.dark1 700 512);
    [reflexivity|uint16_pixels|uint16_pixels|lia|lia].
Defined.

(** ** GridTrackingRop: the grid in general *)

Lemma xrange_step_pos start stop step :
  0 < step ->
  xrange_step start stop step =
  Ret (map (fun i => start + Z.of_nat i * step)
           (seq 0 (Z.to_nat ((stop - start + step - 1) / step)))).
Proof.
  intros Hs. unfold xrange_step. rewrite decide_False by lia.
  by replace (0 <? step) with true by (symmetry; apply Z.ltb_lt; lia).
Qed.

Lemma xrange_step_bounds start stop step y :
  0 < step ->
  In y (map (fun i => start + Z.of_nat i * step)
            (seq 0 (Z.to_nat ((stop - start + step - 1) / step)))) ->
  start <= y < stop.
Proof.
  intros Hs Hy. apply in_map_iff in Hy as (i & <- & Hi). apply in_seq in Hi.
  set (c := (stop - start + step - 1) / step) in *.
  assert (Hc : c * step <= stop - start + step - 1).
  { rewrite Z.mul_comm. apply Z.mul_div_le. lia. }
  split; [nia|]. assert (Z.of_nat i + 1 <= c) by lia. nia.
Qed.



Lemma bind_pairs_In (ys xs : list Z) (y x : Z) :
  In (y, x) (y' ← ys; x' ← xs; [(y', x')]) -> In y ys /\ In x xs.
Proof.
  intros H. apply list_elem_of_In, list_elem_of_bind in H as (y' & H & Hy).
  apply list_elem_of_bind in H as (x' & H & Hx).
  apply list_elem_of_singleton in H as [= -> ->].
  split; by apply list_elem_of_In.
Qed.

(** The number of cells along an axis of length [len] cut in [n]: [n], or
    more when the remainder of the division is over half a spacing. *)
Lemma axis_count (len n : Z) :
  0 < n -> n <= len ->
  let spacing := len / n in
  let count := (len - spacing / 2 + spacing - 1) / spacing in
  0 < spacing /\ n <= count /\
  (len mod n <= spacing / 2 -> count = n) /\
  (spacing / 2 < len mod n -> n < count).
Proof.
  intros Hn Hlen spacing count.
  assert (Hsp : 0 < spacing).
  { unfold spacing. apply Z.div_str_pos. lia. }
  pose proof (Z.div_mod len n ltac:(lia)) as Hdiv. fold spacing in Hdiv.
  pose proof (Z.mod_pos_bound len n Hn) as Hrem.
  set (rem := len mod n) in *.
  pose proof (Z.div_mod spacing 2 ltac:(lia)) as Hh.
  pose proof (Z.mod_pos_bound spacing 2 ltac:(lia)) as Hh2.
  set (h := spacing / 2) in *.
  assert (Hcount1 : count * spacing <= len - h + spacing - 1).
  { unfold count. rewrite Z.mul_comm. apply Z.mul_div_le. lia. }
  assert (Hcount2 : len - h + spacing - 1 < (count + 1) * spacing).
  { unfold count. rewrite Z.mul_comm. rewrite Z.mul_add_distr_l, Z.mul_1_r.
    pose proof (Z.mod_pos_bound (len - h + spacing - 1) spacing Hsp).
    pose proof (Z.div_mod (len - h + spacing - 1) spacing ltac:(lia)). lia. }
  split; [exact Hsp|]. repeat split; nia.
Qed.

(** With the default margins, all zero, the tracked region is the whole
    image area and [__init__] computes the grid of this region. *)
Lemma grid_points_whole_image (sizes : Sizes) (grid_size : Z * Z) :
  grid_points sizes grid_size default_track_roi =
  grid_of_region (top_margin sizes) (left_margin sizes)
                 (top_margin sizes + iheight sizes) (left_margin sizes + iwidth sizes)
                 grid_size.
Proof.
  unfold grid_points, grid_of_region, default_track_roi.
  assert (Hz : forall h, py_int (0 * inject_Z h) = 0).
  { intros h. unfold py_int, Qmult, inject_Z. simpl. by destruct h. }
  rewrite !Hz. by rewrite !Z.add_0_r, !Z.sub_0_r.
Qed.

Section GridGeometry.

(** The bounds of the tracked region, as [__init__] has them in [t], [l],
    [b] and [r], and the grid size. *)
Context (t l b r : Z) (grid_size : Z * Z).

Lemma grid_of_region_cells :
  0 < fst grid_size -> 0 < snd grid_size ->
  fst grid_size <= b - t -> snd grid_size <= r - l ->
  let yspacing := (b - t) / fst grid_size in
  let xspacing := (r - l) / snd grid_size in
  let rows := Z.to_nat ((b - t - yspacing / 2 + yspacing - 1) / yspacing) in
  let cols := Z.to_nat ((r - l - xspacing / 2 + xspacing - 1) / xspacing) in
  grid_of_region t l b r grid_size =
  Ret (y ← cell_centers t yspacing rows; x ← cell_centers l xspacing cols; [(y, x)]) /\
  (0 < rows)%nat.
Proof.
  intros Hny Hnx Hh Hw yspacing xspacing rows cols.
  destruct (axis_count (b - t) (fst grid_size) Hny Hh) as (Hysp & Hcy & _).
  destruct (axis_count (r - l) (snd grid_size) Hnx Hw) as (Hxsp & Hcx & _).
  fold yspacing in Hysp, Hcy. fold xspacing in Hxsp, Hcx.
  unfold grid_of_region, py_div. rewrite !decide_False by lia.
  cbn [mbind py_bind]. fold yspacing xspacing.
  rewrite !xrange_step_pos by done. cbn [mbind py_bind].
  replace (b - (t + yspacing / 2) + yspacing - 1)
    with (b - t - yspacing / 2 + yspacing - 1) by lia.
  replace (r - (l + xspacing / 2) + xspacing - 1)
    with (r - l - xspacing / 2 + xspacing - 1) by lia.
  fold rows cols. assert (Hrows : (0 < rows)%nat) by (unfold rows; lia).
  split; [|exact Hrows]. unfold cell_centers.
  destruct rows as [|rows']; [lia|]. reflexivity.
Qed.

(** X8: when the tracked region [[t, b) x [l, r)] has at least as many rows
    and columns of pixels as the grid has cells, the loops of the
    constructor do not raise and every tracker is placed inside the
    region: [t <= y < b] and [l <= x < r]. *)
Theorem grid_inside_region :
  0 < fst grid_size -> 0 < snd grid_size ->
  fst grid_size <= b - t ->
  snd grid_size <= r - l ->
  exists points,
    grid_of_region t l b r grid_size = Ret points /\
    Forall (fun p => t <= fst p < b /\ l <= snd p < r) points.
Proof.
  intros Hny Hnx Hh Hw.
  destruct (grid_of_region_cells Hny Hnx Hh Hw) as [Hpts _]. cbv zeta in Hpts.
  destruct (axis_count (b - t) (fst grid_size) Hny Hh) as (Hysp & _).
  destruct (axis_count (r - l) (snd grid_size) Hnx Hw) as (Hxsp & _).
  eexists. split; [exact Hpts|].
  apply Forall_forall. intros [y x] Hp. apply list_elem_of_In, bind_pairs_In in Hp as [Hy Hx].
  unfold cell_centers in Hy, Hx. simpl.
  set (ysp := (b - t) / fst grid_size) in *. set (xsp := (r - l) / snd grid_size) in *.
  pose proof (Z.div_pos ysp 2 ltac:(lia) ltac:(lia)) as Hyh.
  pose proof (Z.div_pos xsp 2 ltac:(lia) ltac:(lia)) as Hxh.
  pose proof (xrange_step_bounds (t + ysp / 2) b ysp y Hysp) as Hby.
  pose proof (xrange_step_bounds (l + xsp / 2) r xsp x Hxsp) as Hbx.
  replace (b - (t + ysp / 2) + ysp - 1) with (b - t - ysp / 2 + ysp - 1) in Hby by lia.
  replace (r - (l + xsp / 2) + xsp - 1) with (r - l - xsp / 2 + xsp - 1) in Hbx by lia.
  specialize (Hby Hy). specialize (Hbx Hx). lia.
Qed.



(** X11: a tracked region with fewer rows of pixels than the grid has rows
    ([0 <= b - t < grid_size[0]]) gives a zero row spacing, and the
    constructor raises [ValueError]. *)
Theorem grid_region_too_small :
  0 < fst grid_size -> snd grid_size <> 0 ->
  0 <= b - t < fst grid_size ->
  grid_of_region t l b r grid_size = Raise ValueError.
Proof.
  intros Hny Hnx Hh. unfold grid_of_region, py_div.
  rewrite !decide_False by lia. cbn [mbind py_bind].
  rewrite (Z.div_small (b - t)) by lia.
  replace (xrange_step (t + 0 / 2) b 0) with (@Raise (list Z) ValueError); [reflexivity|].
  unfold xrange_step. by rewrite decide_True.
Qed.

End GridGeometry.

Ltac by_computation := vm_compute; first [reflexivity | discriminate | done].

Lemma grid_inside_region_witness :
  0 < fst (3, 4) /\ 0 < snd (3, 4) /\
  fst (3, 4) <= 831 - 106 /\
  snd (3, 4) <= 476 - 24 /\
  exists points,
    grid_of_region 106 24 831 476 (3, 4) = Ret points /\
    Forall (fun p => 106 <= fst p < 831 /\ 24 <= snd p < 476) points.
Proof.
  split; [by_computation|]. split; [by_computation|].
  split; [by_computation|]. split; [by_computation|].
  apply (grid_inside_region 106 24 831 476 (3, 4)); by_computation.
Defined.



Example grid_rows_5_by_3 :
  grid_points (mkSizes 0 0 5 900) default_grid_size default_track_roi =
  Ret (y ← [0; 1; 2; 3; 4]; x ← [150; 450; 750]; [(y, x)]).
Proof. reflexivity. Qed.

Lemma grid_region_too_small_witness :
  0 < fst default_grid_size /\ snd default_grid_size <> 0 /\
  0 <= 2 - 0 < fst default_grid_size /\
  grid_of_region 0 0 2 900 default_grid_size = Raise ValueError.
Proof.
  split; [by_computation|]. split; [by_computation|].
  split; [split; by_computation|].
  apply (grid_region_too_small 0 0 2 900 default_grid_size);
    [by_computation|by_computation|split; by_computation].
Defined.

(** ** GridTrackingRop: more on the fit *)

Section FitEdges.

Context {F : Type} (F_ltb : F -> F -> bool) (F_of_Z : Z -> F) (median : list F -> F).
Context {Transform : Type}.
Context (estimate_transform : list (F * F) -> list (F * F) -> Transform).
Context (shift_mag : Transform -> F * F -> F * F -> F).
Context (limit : F).

Local Abbreviation fit_round' :=
  (fit_round F F_ltb median Transform estimate_transform shift_mag limit).
Local Abbreviation fit_loop' :=
  (fit_loop F F_ltb median Transform estimate_transform shift_mag limit).
Local Abbreviation fit_transform' :=
  (fit_transform F F_ltb F_of_Z median Transform estimate_transform shift_mag limit).

Lemma fit_round_keeps ts t m ts' :
  fit_round' ts = (t, m, Some ts') -> (length ts' <= length ts)%nat.
Proof.
  unfold fit_round. set (t0 := estimate_transform _ _).
  destruct (F_ltb limit _); [destruct (3 <=? _)|]; intros [= <- <- <-]; [|done].
  apply filter_length_le.
Qed.

Lemma fit_loop_shrinks fuel m0 ts0 tr0 m ts tr :
  fit_loop' fuel m0 ts0 tr0 = Some (LoopExit m ts tr) -> (length ts <= length ts0)%nat.
Proof.
  revert m0 ts0 tr0. induction fuel as [|fuel IH]; intros m0 ts0 tr0; [done|].
  cbn [fit_loop]. destruct (_ && _).
  - destruct (fit_round' ts0) as [[t' m'] [ts1|]] eqn:Hr; [|done].
    intros Hl. apply IH in Hl. apply fit_round_keeps in Hr. lia.
  - by intros [= <- <- <-].
Qed.

(** With at most four samples no transform comes out of the fit. *)
Lemma fit_needs_five ts t :
  fit_transform' ts = Some (Ret (Some t)) -> (5 <= length ts)%nat.
Proof.
  unfold fit_transform.
  destruct (fit_loop' (fit_fuel ts) (F_of_Z 100) ts None) as [[|m ts' tr]|] eqn:He;
    simpl; try done.
  apply fit_loop_shrinks in He.
  destruct (F_ltb limit m); simpl; [done|].
  destruct (Z.leb_spec (Z.of_nat (length ts')) 4); [done|]. intros _. lia.
Qed.


(** X13: with a limit that is not below 100, the initial value of the
    median, the loop is never entered and [transform] is never bound: for
    more than 4 samples [detect] raises [UnboundLocalError] (for 4 or fewer
    it returns [None]). *)
Theorem large_limit_unbound ts :
  F_ltb limit (F_of_Z 100) = false ->
  (5 <= length ts)%nat ->
  fit_transform F F_ltb F_of_Z median Transform estimate_transform shift_mag limit ts
    = Some (Raise UnboundLocalError).
Proof.
  intros H100 H5. unfold fit_transform, fit_fuel. cbn [fit_loop]. rewrite H100.
  simpl. rewrite H100.
  by replace (Z.of_nat (length ts) <=? 4) with false by (symmetry; apply Z.leb_gt; lia).
Qed.

End FitEdges.


Lemma large_limit_unbound_witness :
  Qltb 100 (inject_Z 100) = false /\
  (5 <= length Exact.outlier_3x3)%nat /\
  Exact.fit_transform 100 Exact.outlier_3x3 = Some (Raise UnboundLocalError).
Proof.
  split; [reflexivity|]. split; [simpl; lia|].
  apply (large_limit_unbound Qltb inject_Z Exact.median Exact.estimate Exact.shift_mag
           100%Q Exact.outlier_3x3); [reflexivity|simpl; lia].
Defined.

(** ** GridTrackingRop: the measurement made on a cache miss *)

Section Measurement.

Context {F : Type} (F_ltb : F -> F -> bool) (F_of_Z : Z -> F) (F_div : F -> Z -> F).
Context (median : list F -> F).
Context {Transform : Type}.
Context (estimate_transform : list (F * F) -> list (F * F) -> Transform).
Context (shift_mag : Transform -> F * F -> F * F -> F).
Context (limit : F).
Context {Frame : Type} (frame_key : Frame -> Key).
Context {RawState Luma : Type}.
Context (set_raw_image : RawState -> Frame -> RawState) (luma_of : RawState -> Luma).
Context (vshape_of lshape_of : RawState -> Z * Z).
Context (deglow : option (Frame -> Frame)).
Context {TrackerState : Type}.
Context (tracker_detect :
  TrackerState -> Frame -> option Frame -> Luma -> py (TrackerState * (F * F * F * F))).
Context (pattern_shape : Z * Z).

Local Abbreviation detect' :=
  (detect F F_ltb F_of_Z F_div median Transform estimate_transform shift_mag limit
          Frame frame_key RawState Luma set_raw_image luma_of vshape_of lshape_of deglow
          TrackerState tracker_detect pattern_shape).
Local Abbreviation detect_fit' :=
  (detect_fit F F_ltb F_of_Z F_div median Transform estimate_transform shift_mag limit
              pattern_shape).
Local Abbreviation map_detect' :=
  (map_detect F F_of_Z Frame Luma TrackerState tracker_detect).

Local Abbreviation tracker_coords' := (tracker_coords (TrackerState := TrackerState) F_of_Z).

Lemma map_detect_spec data img luma ts :
  match map_detect' data img luma ts with
  | (n, Ret (ts', rows)) =>
      n = length ts /\ length rows = length ts /\
      map grid_coords ts' = map grid_coords ts /\
      map row_coords rows = map tracker_coords' ts
  | (n, Raise _) => (n <= length ts)%nat
  end.
Proof.
  induction ts as [|t ts IH]; [done|]. cbn [map_detect].
  destruct (tracker_detect _ _ _ _) as [[st [[[ty tx] oy] ox]]|e]; [|simpl; lia].
  destruct (map_detect' data img luma ts) as [n [[ts' rows]|e]].
  - destruct IH as (-> & Hl & Hg & Hr). cbn [length map]. rewrite Hl, Hg, Hr. done.
  - simpl. lia.
Qed.

Lemma detect_fit_needs_five rows vshape lshape x :
  snd (detect_fit' (rows, vshape, lshape)) = Some (Ret (Some x)) -> (5 <= length rows)%nat.
Proof.
  unfold detect_fit.
  destruct (py_div (fst vshape) (fst lshape)) as [ly|]; [|done].
  destruct (py_div (snd vshape) (snd lshape)) as [lx|]; [|done].
  destruct pattern_shape as [ysize xsize]. cbn [snd].
  destruct (decide (rows = [])); [done|]. cbn [mbind py_bind].
  destruct (py_div ysize ly) as [ydiv|]; [|done]. cbn [mbind py_bind].
  destruct (py_div xsize lx) as [xdiv|]; [|done]. cbn [mbind py_bind].
  destruct (fit_transform _ _ _ _ _ _ _ _ _) as [[[tr|]|]|] eqn:Hf; try done.
  intros _. apply fit_needs_five in Hf. by rewrite length_map in Hf.
Qed.

(** X14: [detect] never drops or replaces a measurement of the cache: after
    any call the cache is a dictionary that still maps every key it mapped
    before to the same measurement. *)
Theorem detect_keeps_cache self data img set_data luma :
  exists cache1,
    tracking_cache
      (fst (detect F F_ltb F_of_Z F_div median Transform estimate_transform shift_mag limit
              Frame frame_key RawState Luma set_raw_image luma_of vshape_of lshape_of
              deglow TrackerState tracker_detect pattern_shape
              self data img set_data luma)) = Some cache1 /\
    forall k e, default ∅ (tracking_cache self) !! k = Some e -> cache1 !! k = Some e.
Proof.
  unfold detect.
  destruct (default ∅ (tracking_cache self) !! frame_key (default data img))
    as [entry|] eqn:Hc.
  - destruct (detect_fit' entry) as [[ly lx] result]. by eexists.
  - destruct (map_detect' _ _ _ _) as [calls [[trackers' translations]|e]].
    + destruct (detect_fit' _) as [[ly lx] result]. eexists. split; [done|].
      intros k e Hk. rewrite lookup_insert_ne; [done|]. intros <-. congruence.
    + by eexists.
Qed.

(** X15: on a cache miss, either the measurement is stored under the key of
    the frame, and then every tracker has been asked exactly once, the
    measurement has one row per tracker that starts with the grid
    coordinates of the tracker, and the trackers keep their grid
    coordinates; or nothing is stored for the frame, and then the call
    raised, after no more than one request per tracker. *)
Theorem detect_miss_measures_once self data img set_data luma self1 res :
  default ∅ (tracking_cache self) !! frame_key (default data img) = None ->
  detect F F_ltb F_of_Z F_div median Transform estimate_transform shift_mag limit
         Frame frame_key RawState Luma set_raw_image luma_of vshape_of lshape_of
         deglow TrackerState tracker_detect pattern_shape
         self data img set_data luma = (self1, res) ->
  match default ∅ (tracking_cache self1) !! frame_key (default data img) with
  | Some (rows, _, _) =>
      tracker_calls self1 = (tracker_calls self + length (trackers self))%nat /\
      length rows = length (trackers self) /\
      map row_coords rows = map (tracker_coords F_of_Z) (trackers self) /\
      map grid_coords (trackers self1) = map grid_coords (trackers self)
  | None =>
      (exists e, res = Some (Raise e)) /\
      (tracker_calls self1 <= tracker_calls self + length (trackers self))%nat
  end.
Proof.
  intros Hmiss. unfold detect.
  destruct (default ∅ (tracking_cache self) !! frame_key (default data img))
    as [entry0|] eqn:Hc; [discriminate Hmiss|].
  match goal with |- context [map_detect' ?d ?i ?l ?ts] =>
    pose proof (map_detect_spec d i l ts) as Hs;
    destruct (map_detect' d i l ts) as [calls [[trackers' translations]|e]] end.
  - destruct (detect_fit' _) as [[ly lx] result]. intros [= <- <-]. simpl.
    rewrite lookup_insert_eq. destruct Hs as (-> & Hl & Hg & Hr). done.
  - intros [= <- <-]. simpl.
    match goal with |- match ?t with _ => _ end =>
      replace t with (@None (cache_entry F)) by (symmetry; exact Hc) end. split; [by eexists|lia].
Qed.

(** X16: with four trackers or fewer, a frame that is not in the cache is
    never registered: [detect] returns no transform. *)
Theorem few_trackers_never_register self data img set_data luma self1 res :
  default ∅ (tracking_cache self) !! frame_key (default data img) = None ->
  (length (trackers self) <= 4)%nat ->
  detect F F_ltb F_of_Z F_div median Transform estimate_transform shift_mag limit
         Frame frame_key RawState Luma set_raw_image luma_of vshape_of lshape_of
         deglow TrackerState tracker_detect pattern_shape
         self data img set_data luma = (self1, res) ->
  forall x, res <> Some (Ret (Some x)).
Proof.
  intros Hmiss Hfew. unfold detect.
  destruct (default ∅ (tracking_cache self) !! frame_key (default data img))
    as [entry0|] eqn:Hc; [discriminate Hmiss|].
  match goal with |- context [map_detect' ?d ?i ?l ?ts] =>
    pose proof (map_detect_spec d i l ts) as Hs;
    destruct (map_detect' d i l ts) as [calls [[trackers' translations]|e]] end.
  - destruct (detect_fit' _) as [[ly lx] result] eqn:Hfit. intros [= <- <-] x ->.
    destruct Hs as (_ & Hl & _).
    match type of Hfit with detect_fit' (_, ?v, ?l) = _ =>
      pose proof (detect_fit_needs_five translations v l x) as H5 end.
    rewrite Hfit in H5. specialize (H5 eq_refl). lia.
  - by intros [= <- <-] x.
Qed.

End Measurement.

Lemma detect_miss_measures_once_witness :
  default ∅ (tracking_cache Rig.rop0) !! @inr string Z (default 7 None) = None /\
  Rig.detect Rig.rop0 7 None true None = (Rig.rop1, snd (Rig.detect Rig.rop0 7 None true None)) /\
  match default ∅ (tracking_cache Rig.rop1) !! @inr string Z (default 7 None) with
  | Some (rows, _, _) =>
      tracker_calls Rig.rop1 = (tracker_calls Rig.rop0 + length (trackers Rig.rop0))%nat /\
      length rows = length (trackers Rig.rop0) /\
      map row_coords rows = map (tracker_coords inject_Z) (trackers Rig.rop0) /\
      map grid_coords (trackers Rig.rop1) = map grid_coords (trackers Rig.rop0)
  | None =>
      (exists e, snd (Rig.detect Rig.rop0 7 None true None) = Some (Raise e)) /\
      (tracker_calls Rig.rop1 <= tracker_calls Rig.rop0 + length (trackers Rig.rop0))%nat
  end.
Proof.
  split; [reflexivity|]. split; [by_computation|].
  apply (detect_miss_measures_once Qltb inject_Z Exact.div_Z Exact.median Exact.estimate
           Exact.shift_mag 2%Q (fun f => inr f) (fun _ _ => tt) (fun _ => tt)
           (fun _ => (1800, 1800)) (fun _ => (1800, 1800)) None Rig.tracker_detect (2, 2)
           Rig.rop0 7 None true None Rig.rop1
           (snd (Rig.detect Rig.rop0 7 None true None))); [reflexivity|by_computation].
Defined.

Lemma few_trackers_never_register_witness :
  let rop := mkRop (F := Q) tt
               (map (fun c => mkTracker c c) [(150, 150); (150, 450); (450, 150); (450, 450)])
               None None None O in
  default ∅ (tracking_cache rop) !! @inr string Z (default 7 None) = None /\
  (length (trackers rop) <= 4)%nat /\
  forall x, snd (Rig.detect rop 7 None true None) <> Some (Ret (Some x)).
Proof.
  intros rop. split; [reflexivity|]. split; [simpl; lia|].
  apply (few_trackers_never_register Qltb inject_Z Exact.div_Z Exact.median Exact.estimate
           Exact.shift_mag 2%Q (fun f => inr f) (fun _ _ => tt) (fun _ => tt)
           (fun _ => (1800, 1800)) (fun _ => (1800, 1800)) None Rig.tracker_detect (2, 2)
           rop 7 None true None (fst (Rig.detect rop 7 None true None)));
    [reflexivity|simpl; lia|apply surjective_pairing].
Defined.

(** ** GridTrackingRop: saving and restoring *)

Section SavedStates.

Context {F RawState TrackerState TrackerSaved : Type}.
Context (tracker_class : RawState -> TrackerState).
Context (tracker_set_reference : TrackerState -> Z * Z -> TrackerState).
Context (tracker_get_state : TrackerState -> TrackerSaved).
Context (tracker_load_state : TrackerState -> TrackerSaved -> TrackerState).

Local Abbreviation load_state' :=
  (load_state (F := F) tracker_class tracker_set_reference tracker_load_state).
Local Abbreviation restore_tracker' :=
  (restore_tracker tracker_class tracker_set_reference tracker_load_state).

Lemma restored_coords raw0 coords saved :
  map grid_coords (zip_with (restore_tracker' raw0) coords saved)
  = take (length saved) coords.
Proof.
  revert saved. induction coords as [|c coords IH]; intros [|s saved]; simpl; try done.
  by rewrite IH.
Qed.

Lemma restored_saved raw0 coords saved :
  (forall s c,
     tracker_get_state (tracker_load_state (tracker_set_reference (tracker_class raw0) c) s) = s) ->
  map (fun t => tracker_get_state (tracker_state t)) (zip_with (restore_tracker' raw0) coords saved)
  = take (length coords) saved.
Proof.
  intros Hrt. revert saved. induction coords as [|c coords IH]; intros [|s saved]; simpl; try done.
  by rewrite IH, Hrt.
Qed.

(** X17: a registration that loads the state saved by another one has a
    tracker for each tracker of the other, at the same grid coordinates and
    in the same order, and the cache of the other; its raw and its call
    count are its own. *)
Theorem load_state_restores (self self0 : GridTrackingRop F RawState TrackerState) :
  let self1 :=
    load_state tracker_class tracker_set_reference tracker_load_state self
               (get_state tracker_get_state self0) in
  map grid_coords (trackers self1) = map grid_coords (trackers self0) /\
  length (trackers self1) = length (trackers self0) /\
  tracking_cache self1 = tracking_cache self0 /\
  raw self1 = raw self /\
  tracker_calls self1 = tracker_calls self.
Proof.
  intros self1.
  assert (Hc : map grid_coords (trackers self1) = map grid_coords (trackers self0)).
  { subst self1. unfold load_state, get_state. cbn [trackers state_grid_coords state_trackers].
    rewrite restored_coords. apply take_ge. by rewrite !length_map. }
  split; [exact Hc|]. split; [|done].
  by rewrite <- (length_map grid_coords (trackers self1)), Hc, length_map.
Qed.

(** X18: when a tracker that loads a saved tracker state saves that very
    state again, the state saved by a registration that has loaded a state
    saved by [get_state] is this state again. *)
Theorem state_round_trip (self self0 : GridTrackingRop F RawState TrackerState) :
  (forall s c,
     tracker_get_state
       (tracker_load_state (tracker_set_reference (tracker_class (raw self)) c) s) = s) ->
  get_state tracker_get_state
    (load_state tracker_class tracker_set_reference tracker_load_state self
       (get_state tracker_get_state self0))
  = get_state tracker_get_state self0.
Proof.
  intros Hrt. unfold get_state at 1. unfold load_state.
  cbn [trackers tracking_cache]. unfold get_state.
  cbn [state_grid_coords state_trackers state_cache].
  rewrite restored_coords, restored_saved by exact Hrt.
  by rewrite !take_ge by (by rewrite !length_map).
Qed.

(** X19: [load_state] pairs the saved grid coordinates with the saved
    tracker states and stops at the shorter list: a state with fewer
    tracker states than coordinates is loaded without an error, and the
    coordinates beyond get no tracker. *)
Theorem load_state_truncates (self : GridTrackingRop F RawState TrackerState)
    (state : State F TrackerSaved) :
  map grid_coords
      (trackers (load_state tracker_class tracker_set_reference tracker_load_state
                            self state))
  = take (length (state_trackers state)) (state_grid_coords state).
Proof. apply restored_coords. Qed.

End SavedStates.

Lemma state_round_trip_witness :
  (forall s c : Z * Z,
     RigState.tracker_get_state
       (RigState.tracker_load_state
          (RigState.tracker_set_reference (RigState.tracker_class (raw RigState.blank)) c) s) = s) /\
  get_state RigState.tracker_get_state
    (load_state RigState.tracker_class RigState.tracker_set_reference
       RigState.tracker_load_state RigState.blank
       (get_state RigState.tracker_get_state Rig.rop1))
  = get_state RigState.tracker_get_state Rig.rop1.
Proof.
  split; [reflexivity|].
  apply (state_round_trip RigState.tracker_class RigState.tracker_set_reference
           RigState.tracker_get_state RigState.tracker_load_state RigState.blank Rig.rop1).
  reflexivity.
Defined.

Section RestoredCache.

Context {F : Type} (F_ltb : F -> F -> bool) (F_of_Z : Z -> F) (F_div : F -> Z -> F).
Context (median : list F -> F).
Context {Transform : Type}.
Context (estimate_transform : list (F * F) -> list (F * F) -> Transform).
Context (shift_mag : Transform -> F * F -> F * F -> F).
Context (limit : F).
Context {Frame : Type} (frame_key : Frame -> Key).
Context {RawState Luma : Type}.
Context (set_raw_image : RawState -> Frame -> RawState) (luma_of : RawState -> Luma).
Context (vshape_of lshape_of : RawState -> Z * Z).
Context (deglow : option (Frame -> Frame)).
Context {TrackerState : Type}.
Context (tracker_detect :
  TrackerState -> Frame -> option Frame -> Luma -> py (TrackerState * (F * F * F * F))).
Context (pattern_shape : Z * Z).
Context {TrackerSaved : Type}.
Context (tracker_class : RawState -> TrackerState).
Context (tracker_set_reference : TrackerState -> Z * Z -> TrackerState).
Context (tracker_load_state : TrackerState -> TrackerSaved -> TrackerState).

(** X20: a registration that has loaded a state whose cache holds a
    measurement for a frame answers [detect] for this frame from the cache:
    the result is that of the saved measurement, no tracker is asked and the
    raw is not set, whatever trackers were restored. *)
Theorem restored_cache_hits (self : GridTrackingRop F RawState TrackerState)
    (state : State F TrackerSaved) cache entry data img set_data luma :
  state_cache state = Some cache ->
  cache !! frame_key (default data img) = Some entry ->
  let self1 := load_state tracker_class tracker_set_reference tracker_load_state self state in
  let out :=
    detect F F_ltb F_of_Z F_div median Transform estimate_transform shift_mag limit
           Frame frame_key RawState Luma set_raw_image luma_of vshape_of lshape_of
           deglow TrackerState tracker_detect pattern_shape
           self1 data img set_data luma in
  snd out =
    snd (detect_fit F F_ltb F_of_Z F_div median Transform estimate_transform shift_mag
                    limit pattern_shape entry) /\
  tracker_calls (fst out) = tracker_calls self /\
  trackers (fst out) = trackers self1 /\
  raw (fst out) = raw self /\
  tracking_cache (fst out) = Some cache.
Proof.
  intros Hc He self1 out.
  destruct (detect_hit F_ltb F_of_Z F_div median estimate_transform shift_mag limit frame_key
              set_raw_image luma_of vshape_of lshape_of deglow tracker_detect pattern_shape
              self1 data img set_data luma cache entry Hc He) as (ly & lx & Hd).
  subst out. rewrite Hd. done.
Qed.

End RestoredCache.

Lemma restored_cache_hits_witness :
  let state := get_state RigState.tracker_get_state Rig.rop1 in
  let entry := default ([], (0, 0), (0, 0))
                 (default ∅ (tracking_cache Rig.rop1) !! @inr string Z 7) in
  let self1 := RigState.load_state RigState.blank state in
  state_cache state = Some (default ∅ (tracking_cache Rig.rop1)) /\
  default ∅ (tracking_cache Rig.rop1) !! @inr string Z (default 7 None) = Some entry /\
  snd (Rig.detect self1 7 None true None) =
    snd (detect_fit Q Qltb inject_Z Exact.div_Z Exact.median Exact.Similarity Exact.estimate
           Exact.shift_mag 2%Q (2, 2) entry) /\
  tracker_calls (fst (Rig.detect self1 7 None true None)) = tracker_calls RigState.blank /\
  trackers (fst (Rig.detect self1 7 None true None)) = trackers self1 /\
  raw (fst (Rig.detect self1 7 None true None)) = raw RigState.blank /\
  tracking_cache (fst (Rig.detect self1 7 None true None))
    = Some (default ∅ (tracking_cache Rig.rop1)).
Proof.
  intros state entry self1.
  split; [by_computation|]. split; [by_computation|].
  apply (restored_cache_hits Qltb inject_Z Exact.div_Z Exact.median Exact.estimate
           Exact.shift_mag 2%Q (fun f => inr f) (fun _ _ => tt) (fun _ => tt)
           (fun _ => (1800, 1800)) (fun _ => (1800, 1800)) None Rig.tracker_detect (2, 2)
           RigState.tracker_class RigState.tracker_set_reference RigState.tracker_load_state
           RigState.blank state (default ∅ (tracking_cache Rig.rop1)) entry
           7 None true None); by_computation.
Defined.

(** ** GridTrackingRop.translate_coords *)

Section TranslateCoordsRaises.

Context {F : Type} (F_div F_mul : F -> Z -> F).
Context {Transform : Type} (transform_apply : Transform -> list (F * F) -> list (F * F)).

(** X21: when a transform gives one row for each row it is given, as the
    transforms of [estimate_transform] do, [translate_coords] never
    returns: unpacking the one-row result into [x, y] raises [ValueError],
    unless a scale is zero and the division has already raised
    [ZeroDivisionError]. *)
Theorem translate_coords_raises pattern_shape transform lyscale lxscale y x :
  (forall rows, length (transform_apply transform rows) = length rows) ->
  translate_coords F F_div F_mul Transform transform_apply
                   pattern_shape (transform, lyscale, lxscale) y x
  = Raise (if decide (lxscale * snd pattern_shape = 0 \/ lyscale * fst pattern_shape = 0)
           then ZeroDivisionError else ValueError).
Proof.
  intros Hlen. destruct pattern_shape as [ysize xsize]. unfold translate_coords, num_div.
  cbn [fst snd].
  destruct (decide (lxscale * xsize = 0)) as [Hx|Hx]; cbn [mbind py_bind].
  { rewrite decide_True by tauto. done. }
  destruct (decide (lyscale * ysize = 0)) as [Hy|Hy]; cbn [mbind py_bind].
  { rewrite decide_True by tauto. done. }
  rewrite decide_False by tauto.
  specialize (Hlen [(F_div x (lxscale * xsize), F_div y (lyscale * ysize))]).
  destruct (transform_apply _ _) as [|r1 [|r2 [|r3 rows]]]; simpl in Hlen; try done.
Qed.

End TranslateCoordsRaises.

Lemma translate_coords_raises_witness :
  (forall rows : list (Q * Q), length ((fun _ r => r) tt rows) = length rows) /\
  translate_coords Q Exact.div_Z (fun q k => (q * inject_Z k)%Q) unit (fun _ r => r)
                   (2, 2) (tt, 1, 1) 150%Q 450%Q
  = Raise ValueError.
Proof.
  split; [reflexivity|].
  apply (translate_coords_raises Exact.div_Z (fun q k => (q * inject_Z k)%Q)
           (fun (_ : unit) (r : list (Q * Q)) => r) (2, 2) tt 1 1 150%Q 450%Q).
  reflexivity.
Defined.

(** ** find_entropy_weights: a run on frames of one shape *)

Lemma py_map_returns {A B : Type} (f : A -> py B) (l : list A) :
  (forall x, In x l -> exists y, f x = Ret y) -> exists ys, py_map f l = Ret ys.
Proof.
  induction l as [|a l IH]; intros Hf; simpl; [by eexists|].
  destruct (Hf a) as [b ->]; [by left|]. cbn [mbind py_bind].
  destruct IH as [bs ->]; [intros x Hx; apply Hf; by right|]. cbn [mbind py_bind]. by eexists.
Qed.

Lemma subtract_dark_same_shape (light : image) (dark : Raw) k_num k_denom :
  length (raw_pixels dark) = length light ->
  exists out, subtract_dark light dark k_num k_denom = Ret out /\ length out = length light.
Proof.
  intros Hlen. unfold subtract_dark.
  rewrite elementwise_Ret by (by rewrite length_map). cbn [mbind py_bind].
  assert (Hz : length (zip_with Z.min (map (weigh_uint32 k_num k_denom) (raw_pixels dark)) light)
               = length light).
  { rewrite length_zip_with, length_map. lia. }
  rewrite elementwise_Ret by (by rewrite Hz). eexists. split; [reflexivity|].
  rewrite length_zip_with, Hz. lia.
Qed.

Section SearchReturns.

Context {E : Type} (E_ltb E_eqb : E -> E -> bool) (shannon : list Z -> E).
Context (steps maxsteps : Z) (mink : Q).

Local Abbreviation entropy' := (entropy E shannon).
Local Abbreviation refine' := (_refine_entropy E E_ltb E_eqb shannon steps).
Local Abbreviation while_ranges' := (while_ranges E E_ltb E_eqb shannon steps maxsteps).
Local Abbreviation gen_next' := (gen_next E E_ltb E_eqb shannon steps maxsteps mink).
Local Abbreviation for_weights' := (for_weights E E_ltb E_eqb shannon steps maxsteps mink).
Local Abbreviation initial_ranges' := (initial_ranges E E_ltb E_eqb shannon steps).

Hypothesis steps_ge_2 : 2 <= steps.
Hypothesis E_eqb_refl : forall e, E_eqb e e = true.

Lemma entropy_returns (light : image) (dark : Raw) k_denom k_num :
  length (raw_pixels dark) = length light ->
  exists e, entropy' light dark k_denom k_num = Ret (e, k_num, k_denom).
Proof.
  intros Hlen. unfold entropy, entropy_counts, entropy_residual, astype_int32.
  rewrite elementwise_Ret by (by rewrite !length_map). cbn [mbind py_bind]. by eexists.
Qed.

Lemma refine_returns light dark denom base :
  length (raw_pixels dark) = length light ->
  exists r, refine' light dark denom base = Ret r.
Proof.
  intros Hlen. unfold _refine_entropy.
  destruct (py_map_returns (entropy' light dark (denom * steps))
              (xrange (base * steps) (base * steps + steps))) as [cands Hc].
  { intros k _. destruct (entropy_returns light dark (denom * steps) k Hlen) as [e He].
    by eexists. }
  rewrite Hc. cbn [mbind py_bind].
  apply py_map_length in Hc. unfold xrange in Hc. rewrite length_map, length_seq in Hc.
  destruct cands as [|c cands]; [simpl in Hc; lia|]. simpl. by eexists.
Qed.

Lemma initial_ranges_returns light darks :
  Forall (fun d => length (raw_pixels d) = length light) darks ->
  exists ranges, initial_ranges' light darks = Ret ranges.
Proof.
  intros Hs. unfold initial_ranges. apply py_map_returns. intros dark Hd.
  rewrite Forall_forall in Hs. apply list_elem_of_In, Hs in Hd.
  destruct (refine_returns light dark 1 0 Hd) as [r ->]. simpl. by eexists.
Qed.

Lemma entry_eqb_refl (r : entry E) : entry_eqb E E_eqb r r = true.
Proof.
  destruct r as [[[e b] d] dark]. unfold entry_eqb, range_eqb. simpl.
  by rewrite E_eqb_refl, !Z.eqb_refl.
Qed.

Lemma while_ranges_no_raise fuel light (ranges : list (entry E)) e :
  Forall (fun d => length (raw_pixels d) = length light) (map snd ranges) ->
  while_ranges' fuel light ranges <> Some (Raise e).
Proof.
  revert ranges. induction fuel as [|fuel IH]; intros ranges Hs; [done|].
  cbn [while_ranges]. destruct ranges as [|r0 ranges0]; [done|].
  set (ranges := r0 :: ranges0) in *.
  destruct (py_min (entry_ltb E E_ltb E_eqb) ranges) as [best|] eqn:Hbest; [|done].
  cbn [mbind py_bind]. apply py_min_In in Hbest.
  destruct (py_remove_member (entry_eqb E E_eqb) best ranges Hbest (entry_eqb_refl best))
    as [ranges' Hrem].
  rewrite Hrem. cbn [mbind py_bind].
  destruct (py_remove_length _ _ _ _ Hrem) as [_ Hsub].
  destruct best as [[[e0 b0] d0] dark0].
  assert (Hd0 : length (raw_pixels dark0) = length light).
  { rewrite Forall_forall in Hs. apply Hs, list_elem_of_In, in_map_iff.
    by exists (e0, b0, d0, dark0). }
  destruct (refine_returns light dark0 d0 b0 Hd0) as [[[e1 b1] d1] Href].
  rewrite Href. cbn [mbind py_bind].
  destruct (maxsteps <=? d1); [done|]. apply IH.
  rewrite map_app. apply Forall_app. split; [|by repeat constructor].
  apply Forall_forall. intros d Hd. apply list_elem_of_In, in_map_iff in Hd as (y & <- & Hy).
  rewrite Forall_forall in Hs. apply Hs, list_elem_of_In, in_map. by apply Hsub.
Qed.

Lemma gen_next_suspends fuel light st dark base denom st' :
  gen_next' fuel light st = Some (Ret (Yield dark base denom, st')) ->
  exists ranges', st' = GenSuspended E base denom ranges'.
Proof.
  assert (Hinit : forall darks,
            match initial_ranges' light darks with
            | Raise e => Some (Raise e)
            | Ret ranges => while_ranges' fuel light ranges
            end = Some (Ret (Yield dark base denom, st')) ->
            exists ranges', st' = GenSuspended E base denom ranges').
  { intros darks. destruct (initial_ranges' light darks) as [ranges|] eqn:Hi; [|done].
    apply initial_ranges_spec in Hi as [_ Hu]. intros Hrun.
    destruct (while_ranges_emits _ _ _ _ _ _ _ _ _ _ _ _ Hrun Hu) as (rs & -> & _).
    by eexists. }
  destruct st as [darks|b d ranges|]; simpl; [apply Hinit| |done].
  destruct (weight_ratio b d) as [ratio|]; [|done].
  destruct (Qltb ratio mink); [done|]. apply Hinit.
Qed.

Lemma gen_next_no_raise fuel light st e :
  Forall (fun d => length (raw_pixels d) = length light) (gen_darks st) ->
  match st with GenSuspended _ _ denom _ => denom <> 0 | _ => True end ->
  gen_next' fuel light st <> Some (Raise e).
Proof.
  assert (Hinit : forall darks,
            Forall (fun d => length (raw_pixels d) = length light) darks ->
            match initial_ranges' light darks with
            | Raise e => Some (Raise e)
            | Ret ranges => while_ranges' fuel light ranges
            end <> Some (Raise e)).
  { intros darks Hs. destruct (initial_ranges_returns light darks Hs) as [ranges Hi].
    rewrite Hi. apply while_ranges_no_raise.
    apply initial_ranges_spec in Hi as [-> _]. exact Hs. }
  destruct st as [darks|b d ranges|]; simpl; intros Hs Hd; [by apply Hinit| |done].
  unfold weight_ratio. rewrite decide_False by done.
  destruct (Qltb _ mink); [done|]. by apply Hinit.
Qed.

Lemma for_weights_no_raise rounds fuel light st :
  Forall (fun d => length (raw_pixels d) = length light) (gen_darks st) ->
  match st with GenSuspended _ _ denom _ => denom <> 0 | _ => True end ->
  match for_weights' rounds fuel subtract_dark light st with
  | Some (Raise _) => False
  | Some (Ret (_, out)) => length out = length light
  | None => True
  end.
Proof.
  revert light st. induction rounds as [|rounds IH]; intros light st Hs Hd; [done|].
  cbn [for_weights].
  destruct (gen_next' fuel light st) as [[[[dark k_num k_denom|] st']|e]|] eqn:Hg; try done.
  - destruct (gen_next_emits _ _ _ _ _ _ _ _ _ _ _ _ _ Hg) as (_ & Hin & Hsub & Hb & _).
    destruct (gen_next_suspends _ _ _ _ _ _ _ Hg) as [ranges' ->].
    assert (Hdark : length (raw_pixels dark) = length light).
    { rewrite Forall_forall in Hs. by apply Hs, list_elem_of_In. }
    destruct (subtract_dark_same_shape light dark k_num k_denom Hdark) as (light1 & -> & Hl1).
    specialize (IH light1 (GenSuspended E k_num k_denom ranges')).
    destruct (for_weights' rounds fuel subtract_dark light1 _) as [[[ts out]|]|].
    + rewrite <- Hl1. apply IH; [|simpl; lia].
      apply Forall_forall. intros d Hd'. rewrite Hl1.
      rewrite Forall_forall in Hs. by apply Hs, list_elem_of_In, Hsub, list_elem_of_In.
    + apply IH; [|simpl; lia].
      apply Forall_forall. intros d Hd'. rewrite Hl1.
      rewrite Forall_forall in Hs. by apply Hs, list_elem_of_In, Hsub, list_elem_of_In.
    + done.
  - by apply (gen_next_no_raise fuel light st e Hs Hd).
Qed.

(** X22: on a light frame and dark frames of one shape, with [steps >= 2]
    and entropies equal to themselves, [Raw.denoise] always returns: no
    step of the search or of the subtraction raises, the loop ends, and the
    denoised buffer has the shape of the frame. *)
Theorem denoise_returns (self : Raw) (darks : list Raw) :
  Forall (fun d => length (raw_pixels d) = length (raw_pixels self)) darks ->
  exists triples out,
    denoise E E_ltb E_eqb shannon steps maxsteps mink
            (S (length darks)) (search_fuel steps maxsteps (length darks)) self darks
      = Some (Ret (triples, out)) /\
    length out = length (raw_pixels self).
Proof.
  intros Hs. unfold denoise.
  pose proof (for_weights_within E_ltb E_eqb shannon steps maxsteps mink steps_ge_2
                (length darks) (S (length darks)) subtract_dark (raw_pixels self)
                (GenStart E darks)) as Hend.
  pose proof (for_weights_no_raise (S (length darks))
                (search_fuel steps maxsteps (length darks)) (raw_pixels self)
                (GenStart E darks) Hs I) as Hok.
  destruct (for_weights' _ _ subtract_dark (raw_pixels self) (GenStart E darks))
    as [[[triples out]|]|]; [by eexists _, _|done|].
  exfalso. apply Hend; simpl; [lia|lia|done].
Qed.

(** A loop over the weights whose body keeps the shape of the buffer and
    does not raise. *)
Lemma for_weights_body_returns rounds fuel body light st :
  (forall l dark k_num k_denom,
     length (raw_pixels dark) = length l ->
     exists out, body l dark k_num k_denom = Ret out /\ length out = length l) ->
  Forall (fun d => length (raw_pixels d) = length light) (gen_darks st) ->
  match st with GenSuspended _ _ denom _ => denom <> 0 | _ => True end ->
  match for_weights' rounds fuel body light st with
  | Some (Raise _) => False
  | Some (Ret (_, out)) => length out = length light
  | None => True
  end.
Proof.
  intros Hbody. revert light st.
  induction rounds as [|rounds IH]; intros light st Hs Hd; [done|].
  cbn [for_weights].
  destruct (gen_next' fuel light st) as [[[[dark k_num k_denom|] st']|e]|] eqn:Hg; try done.
  - destruct (gen_next_emits _ _ _ _ _ _ _ _ _ _ _ _ _ Hg) as (_ & Hin & Hsub & Hb & _).
    destruct (gen_next_suspends _ _ _ _ _ _ _ Hg) as [ranges' ->].
    assert (Hdark : length (raw_pixels dark) = length light).
    { rewrite Forall_forall in Hs. by apply Hs, list_elem_of_In. }
    destruct (Hbody light dark k_num k_denom Hdark) as (light1 & -> & Hl1).
    specialize (IH light1 (GenSuspended E k_num k_denom ranges')).
    assert (Hs1 : Forall (fun d => length (raw_pixels d) = length light1)
                         (gen_darks (GenSuspended E k_num k_denom ranges'))).
    { apply Forall_forall. intros d Hd'. rewrite Hl1.
      rewrite Forall_forall in Hs. by apply Hs, list_elem_of_In, Hsub, list_elem_of_In. }
    specialize (IH Hs1 ltac:(simpl; lia)).
    destruct (for_weights' rounds fuel body light1 _) as [[[ts out]|]|]; [|done|done].
    by rewrite <- Hl1.
  - by apply (gen_next_no_raise fuel light st e Hs Hd).
Qed.

(** X5: with [steps >= 2], entropies equal to themselves and frames of one
    shape the search always ends, and ends with the generator exhausted:
    whatever a loop body that keeps the shape of the light buffer and
    raises nothing does to the buffer, a loop over the weights of [n] dark
    frames returns after at most [n + 1] calls of [next()], each of which
    runs the [while] loop for at most [n * (maxsteps - steps) + 1]
    iterations, with at most [n] triples; and so does
    [list(find_entropy_weights(light, darks))]. *)
Theorem search_terminates body (self : Raw) (darks : list Raw) :
  (forall l dark k_num k_denom,
     length (raw_pixels dark) = length l ->
     exists out, body l dark k_num k_denom = Ret out /\ length out = length l) ->
  Forall (fun d => length (raw_pixels d) = length (raw_pixels self)) darks ->
  let fuel := search_fuel steps maxsteps (length darks) in
  (exists triples out,
     for_weights E E_ltb E_eqb shannon steps maxsteps mink
                 (S (length darks)) fuel body (raw_pixels self) (GenStart E darks)
       = Some (Ret (triples, out)) /\
     (length triples <= length darks)%nat /\
     length out = length (raw_pixels self)) /\
  (exists triples,
     find_entropy_weights E E_ltb E_eqb shannon steps maxsteps mink
                          (S (length darks)) fuel self darks = Some (Ret triples) /\
     (length triples <= length darks)%nat).
Proof.
  intros Hbody Hs fuel.
  assert (Hrun : forall body',
            (forall l dark k_num k_denom,
               length (raw_pixels dark) = length l ->
               exists out, body' l dark k_num k_denom = Ret out /\ length out = length l) ->
            exists triples out,
              for_weights' (S (length darks)) fuel body' (raw_pixels self) (GenStart E darks)
                = Some (Ret (triples, out)) /\
              (length triples <= length darks)%nat /\
              length out = length (raw_pixels self)).
  { intros body' Hbody'.
    pose proof (for_weights_within E_ltb E_eqb shannon steps maxsteps mink steps_ge_2
                  (length darks) (S (length darks)) body' (raw_pixels self)
                  (GenStart E darks)) as Hend.
    pose proof (for_weights_body_returns (S (length darks)) fuel body' (raw_pixels self)
                  (GenStart E darks) Hbody' Hs I) as Hok.
    destruct (for_weights' _ fuel body' (raw_pixels self) (GenStart E darks))
      as [[[triples out]|]|] eqn:Hfw; [|done|].
    - exists triples, out. split; [done|]. split; [|done].
      by destruct (for_weights_emits _ _ _ _ _ _ _ _ _ _ _ _ _ Hfw) as [Hl _].
    - exfalso. apply Hend; simpl; [lia|lia|done]. }
  split; [by apply Hrun|].
  destruct (Hrun (fun (l : image) (_ : Raw) (_ _ : Z) => Ret l))
    as (triples & out & Hfw & Hl & _).
  { intros l dark k_num k_denom _. by exists l. }
  exists triples. split; [|exact Hl]. unfold find_entropy_weights.
  change (for_weights E E_ltb E_eqb shannon steps maxsteps mink (S (length darks))
            (search_fuel steps maxsteps (length darks))
            (fun (l : image) (_ : Raw) (_ _ : Z) => Ret l) (raw_pixels self) (GenStart E darks))
    with (for_weights' (S (length darks)) fuel
            (fun (l : image) (_ : Raw) (_ _ : Z) => Ret l) (raw_pixels self) (GenStart E darks)).
  by rewrite Hfw.
Qed.

End SearchReturns.

Lemma denoise_returns_witness :
  2 <= Samples.steps /\
  (forall e, Rank.eqb e e = true) /\
  let darks := [Samples.dark1; Samples.dark2] in
  Forall (fun d => length (raw_pixels d) = length (raw_pixels Samples.light)) darks /\
  exists triples out,
    denoise Z Rank.ltb Rank.eqb Rank.shannon Samples.steps Samples.maxsteps Samples.mink
            (S (length darks)) (search_fuel Samples.steps Samples.maxsteps (length darks))
            Samples.light darks
      = Some (Ret (triples, out)) /\
    length out = length (raw_pixels Samples.light).
Proof.
  split; [unfold Samples.steps; lia|]. split; [intros e; apply Z.eqb_refl|].
  intros darks. split; [by repeat constructor|].
  apply (denoise_returns Rank.ltb Rank.eqb Rank.shannon Samples.steps Samples.maxsteps
           Samples.mink ltac:(unfold Samples.steps; lia) (fun e => Z.eqb_refl e)
           Samples.light darks).
  by repeat constructor.
Defined.

Lemma search_terminates_witness :
  2 <= Samples.steps /\
  (forall e, Rank.eqb e e = true) /\
  (forall l dark k_num k_denom,
     length (raw_pixels dark) = length l ->
     exists out, subtract_dark l dark k_num k_denom = Ret out /\ length out = length l) /\
  let darks := [Samples.dark1; Samples.dark2] in
  Forall (fun d => length (raw_pixels d) = length (raw_pixels Samples.light)) darks /\
  let fuel := search_fuel Samples.steps Samples.maxsteps (length darks) in
  (exists triples out,
     for_weights Z Rank.ltb Rank.eqb Rank.shannon Samples.steps Samples.maxsteps Samples.mink
                 (S (length darks)) fuel subtract_dark (raw_pixels Samples.light)
                 (GenStart Z darks)
       = Some (Ret (triples, out)) /\
     (length triples <= length darks)%nat /\
     length out = length (raw_pixels Samples.light)) /\
  (exists triples,
     find_entropy_weights Z Rank.ltb Rank.eqb Rank.shannon Samples.steps Samples.maxsteps
                          Samples.mink (S (length darks)) fuel Samples.light darks
       = Some (Ret triples) /\
     (length triples <= length darks)%nat).
Proof.
  split; [unfold Samples.steps; lia|]. split; [intros e; apply Z.eqb_refl|].
  split; [exact subtract_dark_same_shape|].
  intros darks. split; [by repeat constructor|].
  apply (search_terminates Rank.ltb Rank.eqb Rank.shannon Samples.steps Samples.maxsteps
           Samples.mink ltac:(unfold Samples.steps; lia) (fun e => Z.eqb_refl e)
           subtract_dark Samples.light darks);
    [exact subtract_dark_same_shape|by repeat constructor].
Defined.

(** ** _refine_entropy: the candidate it picks *)

Lemma fold_min_least {A : Type} (lt : A -> A -> bool) (l : list A) (a : A) :
  (forall x, lt x x = false) ->
  (forall x y z, lt x y = true -> lt y z = true -> lt x z = true) ->
  let r := fold_left (fun m y => if lt y m then y else m) l a in
  lt a r = false /\ (r = a \/ lt r a = true) /\ (forall y, In y l -> lt y r = false).
Proof.
  intros Hirr Htr. revert a. induction l as [|b l IH]; intros a; simpl.
  - split; [apply Hirr|]. split; [by left|done].
  - specialize (IH (if lt b a then b else a)). cbv zeta in IH.
    set (r := fold_left _ l _) in *. destruct IH as (Ha' & Hr & Hl).
    assert (Hasym : forall x y, lt x y = true -> lt y x = false).
    { intros x y Hxy. destruct (lt y x) eqn:Hyx; [|done].
      by rewrite <- (Hirr x), (Htr x y x Hxy Hyx). }
    destruct (lt b a) eqn:Hba.
    + assert (Hra : lt r a = true).
      { destruct Hr as [->|Hr]; [done|]. by apply (Htr r b a). }
      split; [by apply Hasym|]. split; [by right|].
      intros y [<-|Hy]; [done|by apply Hl].
    + split; [done|]. split; [done|].
      intros y [<-|Hy]; [|by apply Hl].
      destruct Hr as [->|Hr]; [done|].
      destruct (lt b r) eqn:Hyr; [|done]. by rewrite <- Hba, (Htr b r a Hyr Hr).
Qed.

Lemma py_min_least {A : Type} (lt : A -> A -> bool) (l : list A) (x : A) :
  (forall x, lt x x = false) ->
  (forall x y z, lt x y = true -> lt y z = true -> lt x z = true) ->
  py_min lt l = Ret x -> forall y, In y l -> lt y x = false.
Proof.
  intros Hirr Htr. destruct l as [|a l]; simpl; [done|]. intros [= <-] y Hy.
  destruct (fold_min_least lt l a Hirr Htr) as (Ha & _ & Hl).
  destruct Hy as [<-|Hy]; [done|by apply Hl].
Qed.

Lemma py_map_complete {A B : Type} (f : A -> py B) (l : list A) (ys : list B) (x : A) :
  py_map f l = Ret ys -> In x l -> exists y, f x = Ret y /\ In y ys.
Proof.
  revert ys. induction l as [|a l IH]; intros ys; simpl; [done|].
  destruct (f a) as [b|] eqn:Hb; [|done]. cbn [mbind py_bind].
  destruct (py_map f l) as [bs|]; [|done]. cbn [mbind py_bind]. intros [= <-] [<-|Hx].
  - exists b. split; [done|by left].
  - destruct (IH bs eq_refl Hx) as (y & ? & ?). exists y. split; [done|by right].
Qed.

Lemma xrange_complete (a b k : Z) : a <= k < b -> In k (xrange a b).
Proof.
  intros H. unfold xrange. apply in_map_iff. exists (Z.to_nat (k - a)).
  split; [lia|]. apply in_seq. lia.
Qed.

Section RefinePicks.

Context {E : Type} (E_ltb E_eqb : E -> E -> bool) (shannon : list Z -> E).
Context (steps : Z).

Hypothesis E_eqb_eq : forall a b, E_eqb a b = true <-> a = b.
Hypothesis E_ltb_irrefl : forall a, E_ltb a a = false.
Hypothesis E_ltb_trans : forall a b c, E_ltb a b = true -> E_ltb b c = true -> E_ltb a c = true.

Lemma range_ltb_irrefl (r : E * Z * Z) : range_ltb E E_ltb E_eqb r r = false.
Proof.
  destruct r as [[e n] d]. unfold range_ltb.
  rewrite (proj2 (E_eqb_eq e e) eq_refl), Z.eqb_refl. simpl. apply Z.ltb_irrefl.
Qed.

Lemma range_ltb_trans (a b c : E * Z * Z) :
  range_ltb E E_ltb E_eqb a b = true -> range_ltb E E_ltb E_eqb b c = true ->
  range_ltb E E_ltb E_eqb a c = true.
Proof.
  destruct a as [[e1 n1] d1], b as [[e2 n2] d2], c as [[e3 n3] d3]. unfold range_ltb.
  destruct (E_eqb e1 e2) eqn:H12, (E_eqb e2 e3) eqn:H23; simpl.
  - apply E_eqb_eq in H12, H23. subst e2 e3.
    rewrite (proj2 (E_eqb_eq e1 e1) eq_refl). simpl.
    destruct (Z.eqb_spec n1 n2), (Z.eqb_spec n2 n3), (Z.eqb_spec n1 n3); simpl;
      rewrite ?Z.ltb_lt; lia.
  - apply E_eqb_eq in H12. subst e2. rewrite H23. simpl. done.
  - apply E_eqb_eq in H23. subst e3. rewrite H12. simpl. done.
  - intros Ha Hb. pose proof (E_ltb_trans _ _ _ Ha Hb) as Hac.
    destruct (E_eqb e1 e3) eqn:H13; simpl; [|done].
    apply E_eqb_eq in H13. subst e3. by rewrite E_ltb_irrefl in Hac.
Qed.

(** X23: when the entropies are strictly ordered by [<] and [==] is their
    equality, [_refine_entropy] returns the entropy of one of its [steps]
    candidate numerators, no other candidate has a lower entropy, and among
    the candidates of the same entropy it is the one with the smallest
    numerator. *)
Theorem refine_picks_least_entropy light dark denom base e k d :
  _refine_entropy E E_ltb E_eqb shannon steps light dark denom base = Ret (e, k, d) ->
  entropy E shannon light dark (denom * steps) k = Ret (e, k, d) /\
  base * steps <= k < base * steps + steps /\
  forall k', base * steps <= k' < base * steps + steps ->
    exists e', entropy E shannon light dark (denom * steps) k' = Ret (e', k', d) /\
               E_ltb e' e = false /\
               (e' = e -> k <= k').
Proof.
  intros Href. pose proof (refine_base _ _ _ _ _ _ _ _ _ _ _ Href) as [Hd Hk].
  unfold _refine_entropy in Href.
  destruct (py_map _ _) as [cands|] eqn:Hmap; [|done]. cbn [mbind py_bind] in Href.
  pose proof (py_min_In _ _ _ Href) as Hin.
  destruct (py_map_In _ _ _ _ Hmap Hin) as (k0 & Hk0 & Hent).
  assert (k0 = k) as ->.
  { unfold entropy in Hent. destruct (entropy_counts _ _ _ _); [|done]. by injection Hent. }
  split; [exact Hent|]. split; [exact Hk|].
  intros k' Hk'.
  destruct (py_map_complete _ _ _ k' Hmap (xrange_complete _ _ _ Hk')) as (c & Hc & Hcin).
  pose proof (py_min_least _ _ _ range_ltb_irrefl range_ltb_trans Href c Hcin) as Hlt.
  assert (exists e', c = (e', k', d)) as [e' ->].
  { unfold entropy in Hc. destruct (entropy_counts _ _ _ _); [|done].
    injection Hc as <-. subst d. by eexists. }
  exists e'. split; [exact Hc|].
  unfold range_ltb in Hlt. destruct (E_eqb e' e) eqn:Heq; simpl in Hlt.
  - apply E_eqb_eq in Heq. subst e'. split; [apply E_ltb_irrefl|]. intros _.
    destruct (Z.eqb_spec k' k); simpl in Hlt; [lia|]. apply Z.ltb_ge in Hlt. lia.
  - split; [exact Hlt|]. intros ->. by rewrite (proj2 (E_eqb_eq e e) eq_refl) in Heq.
Qed.

End RefinePicks.

Lemma refine_picks_least_entropy_witness :
  (forall a b, Rank.eqb a b = true <-> a = b) /\
  (forall a, Rank.ltb a a = false) /\
  (forall a b c, Rank.ltb a b = true -> Rank.ltb b c = true -> Rank.ltb a c = true) /\
  let light := raw_pixels Samples.light in
  let r := default (0, 0, 0)
             (match _refine_entropy Z Rank.ltb Rank.eqb Rank.shannon 8 light Samples.dark1 1 0
              with Ret r => Some r | Raise _ => None end) in
  _refine_entropy Z Rank.ltb Rank.eqb Rank.shannon 8 light Samples.dark1 1 0 = Ret r /\
  entropy Z Rank.shannon light Samples.dark1 (1 * 8) (snd (fst r)) = Ret r /\
  0 * 8 <= snd (fst r) < 0 * 8 + 8 /\
  forall k', 0 * 8 <= k' < 0 * 8 + 8 ->
    exists e', entropy Z Rank.shannon light Samples.dark1 (1 * 8) k' = Ret (e', k', snd r) /\
               Rank.ltb e' (fst (fst r)) = false /\
               (e' = fst (fst r) -> snd (fst r) <= k').
Proof.
  assert (Hirr : forall a, Rank.ltb a a = false) by (intros a; apply Z.ltb_irrefl).
  assert (Htr : forall a b c, Rank.ltb a b = true -> Rank.ltb b c = true -> Rank.ltb a c = true).
  { unfold Rank.ltb. intros a b c. rewrite !Z.ltb_lt. lia. }
  split; [apply Z.eqb_eq|]. split; [exact Hirr|]. split; [exact Htr|].
  intros light r. split; [vm_compute; reflexivity|].
  apply (refine_picks_least_entropy Rank.ltb Rank.eqb Rank.shannon 8 Z.eqb_eq Hirr Htr
           light Samples.dark1 1 0 (fst (fst r)) (snd (fst r)) (snd r)).
  vm_compute. reflexivity.
Defined.

(** ** RawAccumulator.raw_image: how much is shifted away *)

Lemma raw_image_shifted (self : RawAccumulator.t) (a : image) m :
  RawAccumulator.accum self = Some a ->
  Forall is_uint32 a ->
  array_max a = Ret m ->
  let k := RawAccumulator.shift_loop 0 m in
  RawAccumulator.raw_image self = Ret (Some (map (fun x => Z.shiftr x k) a)) /\
  Forall is_uint16 (map (fun x => Z.shiftr x k) a).
Proof.
  intros Ha Hu Hm k.
  assert (Hm0 : 0 <= m).
  { apply array_max_In in Hm. rewrite Forall_forall in Hu.
    apply list_elem_of_In, Hu in Hm. unfold is_uint32 in Hm. lia. }
  destruct (shift_loop_spec m Hm0) as (Hk & Hle & Hmin). fold k in Hk, Hle, Hmin.
  assert (Hpix : Forall is_uint16 (map (fun x => Z.shiftr x k) a)).
  { apply Forall_forall. intros p Hp. apply list_elem_of_In, in_map_iff in Hp as (x & <- & Hx).
    pose proof (array_max_upper a m x Hm Hx) as Hxm.
    rewrite Forall_forall in Hu. apply list_elem_of_In, Hu in Hx. unfold is_uint32 in Hx.
    split; [apply Z.shiftr_nonneg; lia|].
    rewrite !Z.shiftr_div_pow2 in * by lia.
    etrans; [|exact Hle]. apply Z.div_le_mono; [|lia].
    apply Z.pow_pos_nonneg; lia. }
  split; [|exact Hpix].
  unfold RawAccumulator.raw_image. rewrite Ha, Hm. cbn [mbind py_bind]. fold k.
  do 2 f_equal. destruct (decide (k = 0)) as [Hk0|Hk0].
  - assert (Hid : map (fun x => Z.shiftr x k) a = a).
    { rewrite Hk0. clear. induction a as [|x a IH]; simpl; [done|].
      by rewrite IH, Z.shiftr_0_r. }
    rewrite Hid in *. by apply astype_uint16_id.
  - by apply astype_uint16_id.
Qed.

(** A sum within 16 bits is not shifted. *)
Lemma raw_image_small (self : RawAccumulator.t) (a : image) :
  RawAccumulator.accum self = Some a ->
  a <> [] ->
  Forall is_uint16 a ->
  RawAccumulator.raw_image self = Ret (Some a).
Proof.
  intros Ha Hne H16.
  destruct (array_max a) as [m|] eqn:Hm; [|by destruct a].
  assert (Hu : Forall is_uint32 a).
  { eapply Forall_impl; [exact H16|]. unfold is_uint16, is_uint32. intros; lia. }
  destruct (raw_image_shifted self a m Ha Hu Hm) as [-> _].
  assert (Hm16 : is_uint16 m).
  { apply array_max_In in Hm. rewrite Forall_forall in H16. by apply H16, list_elem_of_In. }
  rewrite shift_loop_eq.
  replace (65535 <? m) with false by (symmetry; apply Z.ltb_ge; unfold is_uint16 in Hm16; lia).
  do 2 f_equal. clear. induction a as [|x a IH]; simpl; [done|]. by rewrite IH, Z.shiftr_0_r.
Qed.

(** X24: when no accumulated value exceeds 16 bits, [raw_image] is the
    accumulated sum itself: nothing is shifted away. *)
Theorem raw_image_unshifted (self : RawAccumulator.t) (a : image) :
  RawAccumulator.accum self = Some a ->
  a <> [] ->
  Forall is_uint16 a ->
  RawAccumulator.raw_image self = Ret (Some a).
Proof. apply raw_image_small. Qed.

(** X25: when some accumulated value exceeds 16 bits, the shift of
    [raw_image] is no larger than needed: the result has a pixel of at
    least 32768, so it uses the upper half of the 16-bit range. *)
Theorem raw_image_uses_top_bit (self : RawAccumulator.t) (a : image) m :
  RawAccumulator.accum self = Some a ->
  Forall is_uint32 a ->
  array_max a = Ret m ->
  65535 < m ->
  exists img,
    RawAccumulator.raw_image self = Ret (Some img) /\
    Forall is_uint16 img /\
    Exists (fun p => 32768 <= p) img.
Proof.
  intros Ha Hu Hm Hbig.
  destruct (raw_image_shifted self a m Ha Hu Hm) as [Hr Hpix]. cbv zeta in Hr, Hpix.
  eexists. split; [exact Hr|]. split; [exact Hpix|].
  destruct (shift_loop_spec m ltac:(lia)) as (Hk & Hle & Hmin).
  set (k := RawAccumulator.shift_loop 0 m) in *.
  assert (Hk1 : 1 <= k).
  { destruct (decide (k = 0)) as [Hk0|]; [|lia]. rewrite Hk0, Z.shiftr_0_r in Hle. lia. }
  apply Exists_exists. exists (Z.shiftr m k). split.
  - apply list_elem_of_In, in_map_iff. exists m. split; [done|]. by apply array_max_In.
  - specialize (Hmin (k - 1) ltac:(lia)).
    replace k with (k - 1 + 1) by lia.
    rewrite <- Z.shiftr_shiftr by lia.
    rewrite (Z.shiftr_div_pow2 _ 1) by lia. change (2 ^ 1) with 2.
    apply Z.div_le_lower_bound; lia.
Qed.

(** X26: a single 16-bit frame comes back from the accumulator as it went
    in, as [raw_image] and as [average]. *)
Theorem single_frame_round_trip (frame : image) :
  frame <> [] ->
  Forall is_uint16 frame ->
  exists acc,
    accumulate [frame] = Ret acc /\
    RawAccumulator.raw_image acc = Ret (Some frame) /\
    RawAccumulator.average acc = Some frame.
Proof.
  intros Hne H16.
  assert (Hw : astype_uint32 frame = frame).
  { unfold astype_uint32. clear Hne. induction H16 as [|p l Hp _ IH]; simpl; [done|].
    rewrite IH. f_equal. unfold wrap_uint32, is_uint16 in *. apply Z.mod_small. lia. }
  eexists. split; [reflexivity|]. simpl. rewrite Hw. split.
  - by apply raw_image_small.
  - unfold RawAccumulator.average. simpl. f_equal.
    clear. induction frame as [|x a IH]; simpl; [done|]. by rewrite IH, Z.div_1_r.
Qed.

Lemma raw_image_unshifted_witness :
  let self := RawAccumulator.mk (Some [60; 120; 65535]) 3 in
  RawAccumulator.accum self = Some [60; 120; 65535] /\
  [60; 120; 65535] <> [] /\
  Forall is_uint16 [60; 120; 65535] /\
  RawAccumulator.raw_image self = Ret (Some [60; 120; 65535]).
Proof.
  intros self. split; [reflexivity|]. split; [discriminate|]. split; [uint16_pixels|].
  apply (raw_image_unshifted self [60; 120; 65535]);
    [reflexivity|discriminate|uint16_pixels].
Defined.

Lemma raw_image_uses_top_bit_witness :
  let self := RawAccumulator.mk (Some [70000; 300000; 12]) 5 in
  RawAccumulator.accum self = Some [70000; 300000; 12] /\
  Forall is_uint32 [70000; 300000; 12] /\
  array_max [70000; 300000; 12] = Ret 300000 /\
  65535 < 300000 /\
  exists img,
    RawAccumulator.raw_image self = Ret (Some img) /\
    Forall is_uint16 img /\
    Exists (fun p => 32768 <= p) img.
Proof.
  intros self.
  assert (Hu : Forall is_uint32 [70000; 300000; 12]).
  { repeat (constructor; [unfold is_uint32; lia|]). constructor. }
  split; [reflexivity|]. split; [exact Hu|]. split; [reflexivity|]. split; [lia|].
  apply (raw_image_uses_top_bit self [70000; 300000; 12] 300000);
    [reflexivity|exact Hu|reflexivity|lia].
Defined.

Lemma single_frame_round_trip_witness :
  raw_pixels Samples.light <> [] /\
  Forall is_uint16 (raw_pixels Samples.light) /\
  exists acc,
    accumulate [raw_pixels Samples.light] = Ret acc /\
    RawAccumulator.raw_image acc = Ret (Some (raw_pixels Samples.light)) /\
    RawAccumulator.average acc = Some (raw_pixels Samples.light).
Proof.
  split; [discriminate|]. split; [uint16_pixels|].
  apply (single_frame_round_trip (raw_pixels Samples.light)); [discriminate|uint16_pixels].
Defined.

(** ** GridTrackingRop.apply_transform: the channels of the pattern *)

Lemma every_lookup {A : Type} (fuel s : nat) (l : list A) (k : nat) :
  (1 <= s)%nat -> (length l <= fuel)%nat -> every fuel s l !! k = l !! (k * s)%nat.
Proof.
  intros Hs. revert l k. induction fuel as [|fuel IH]; intros l k Hl.
  - destruct l; [|simpl in Hl; lia]. by rewrite !lookup_nil.
  - destruct l as [|a l]; [by rewrite !lookup_nil|]. cbn [every].
    destruct k as [|k]; [done|]. cbn [lookup list_lookup].
    rewrite IH by (rewrite length_drop; simpl in Hl; lia).
    rewrite lookup_drop.
    replace (S k * s)%nat with (S (s - 1 + k * s)) by lia. done.
Qed.

Lemma slice_step_lookup {A : Type} (o s : nat) (l : list A) (k : nat) :
  (1 <= s)%nat -> slice_step o s l !! k = l !! (o + k * s)%nat.
Proof.
  intros Hs. unfold slice_step.
  rewrite every_lookup by (rewrite ?length_drop; lia). by rewrite lookup_drop.
Qed.

Lemma on_stride_hit (o s k : nat) :
  (1 <= s)%nat -> on_stride o s (o + k * s) = true /\ ((o + k * s - o) / s)%nat = k.
Proof.
  intros Hs. unfold on_stride.
  replace (o + k * s - o)%nat with (k * s)%nat by lia.
  rewrite Nat.Div0.mod_mul, Nat.div_mul by lia.
  split; [|done]. apply andb_true_iff. split; [apply Nat.leb_le; lia|done].
Qed.

Lemma on_stride_miss (o o' s k : nat) :
  (o < s)%nat -> (o' < s)%nat -> o <> o' -> on_stride o s (o' + k * s) = false.
Proof.
  intros Ho Ho' Hne. unfold on_stride.
  destruct (o <=? o' + k * s)%nat eqn:Hle; [|done]. apply Nat.leb_le in Hle.
  simpl. apply Nat.eqb_neq. intros Hmod.
  apply Nat.Div0.div_exact in Hmod.
  set (q := ((o' + k * s - o) / s)%nat) in *.
  assert (Heq : (o' + k * s = o + q * s)%nat) by lia. clear Hmod.
  destruct (Nat.lt_trichotomy q k) as [Hq|[Hq|Hq]].
  - pose proof (Nat.mul_le_mono_r (S q) k s ltac:(lia)). lia.
  - subst q. lia.
  - pose proof (Nat.mul_le_mono_r (S k) q s ltac:(lia)). lia.
Qed.

Lemma assign_step_length {A B : Type} (g : A -> B -> A) o s (l : list A) (v : list B) :
  length (assign_step g o s l v) = length l.
Proof. unfold assign_step. apply length_imap. Qed.

Lemma slice_assign_same {A B : Type} (g : A -> B -> A) o s (l : list A) (v : list B) :
  (1 <= s)%nat -> length v = length (slice_step o s l) ->
  slice_step o s (assign_step g o s l v) = zip_with g (slice_step o s l) v.
Proof.
  intros Hs Hlen. apply list_eq. intros k.
  rewrite slice_step_lookup by done. unfold assign_step. rewrite list_lookup_imap.
  rewrite lookup_zip_with, slice_step_lookup by done.
  destruct (on_stride_hit o s k Hs) as [-> ->].
  destruct (l !! (o + k * s)%nat) as [a|] eqn:Ha; simpl; [|done].
  destruct (v !! k) as [b|] eqn:Hb; simpl; [done|].
  apply lookup_ge_None in Hb. rewrite Hlen in Hb.
  assert (is_Some (slice_step o s l !! k)) as Hk.
  { rewrite slice_step_lookup by done. by eexists. }
  apply lookup_lt_is_Some in Hk. lia.
Qed.

Lemma slice_assign_other {A B : Type} (g : A -> B -> A) o o' s (l : list A) (v : list B) :
  (o < s)%nat -> (o' < s)%nat -> o <> o' ->
  slice_step o' s (assign_step g o s l v) = slice_step o' s l.
Proof.
  intros Ho Ho' Hne. apply list_eq. intros k.
  rewrite !slice_step_lookup by lia. unfold assign_step. rewrite list_lookup_imap.
  rewrite on_stride_miss by done. by destruct (l !! _).
Qed.

Lemma zip_with_map_same {A B C : Type} (f : A -> C) (g : A -> B -> A) (l : list A) (v : list B) :
  length v = length l ->
  (forall a b, In (a, b) (zip l v) -> f (g a b) = f a) ->
  map f (zip_with g l v) = map f l.
Proof.
  revert v. induction l as [|a l IH]; intros [|b v] Hlen Hf; simpl in *; try done.
  rewrite Hf by (by left). f_equal. apply IH; [lia|]. intros; apply Hf. by right.
Qed.

Section Channels.

Context {P : Type}.

Local Abbreviation channel_get' := (channel_get (P := P)).

Lemma channel_set_shape yo ys xo xs (sdata value out : list (list P)) :
  channel_set yo ys xo xs sdata value = Ret out -> shape out = shape sdata.
Proof.
  unfold channel_set. case_decide; [|done]. intros [= <-].
  unfold shape, assign_step. apply list_eq. intros i.
  rewrite !list_lookup_fmap, list_lookup_imap.
  destruct (sdata !! i) as [row|]; simpl; [|done]. f_equal.
  destruct (on_stride yo ys i); [|done].
  destruct (value !! _); [|done]. apply length_imap.
Qed.

(** The channel written holds the value written. *)
Lemma channel_get_set_same yo ys xo xs (sdata value out : list (list P)) :
  (1 <= ys)%nat -> (1 <= xs)%nat ->
  channel_set yo ys xo xs sdata value = Ret out ->
  channel_get yo ys xo xs out = value.
Proof.
  intros Hys Hxs. unfold channel_set. case_decide as Hshape; [|done]. intros [= <-].
  unfold channel_get in *. unfold shape in Hshape. rewrite map_map in Hshape.
  assert (Hlen : length value = length (slice_step yo ys sdata)).
  { by rewrite <- (length_map length value), Hshape, length_map. }
  rewrite slice_assign_same by done.
  revert Hshape Hlen. generalize (slice_step yo ys sdata). intros rows. revert value.
  induction rows as [|row rows IH]; intros [|vrow value] Hshape Hlen; simpl in *; try done.
  injection Hshape as Hrow Hshape. f_equal; [|apply IH; [done|lia]].
  rewrite slice_assign_same by done.
  generalize dependent (slice_step xo xs row). intros l. revert vrow.
  induction l as [|p l IHl]; intros [|q vrow] Hl; simpl in *; try done.
  f_equal. apply IHl. lia.
Qed.

(** The other channels are not touched. *)
Lemma channel_get_set_other yo ys xo xs yo' xo' (sdata value out : list (list P)) :
  (yo < ys)%nat -> (xo < xs)%nat -> (yo' < ys)%nat -> (xo' < xs)%nat ->
  (yo, xo) <> (yo', xo') ->
  channel_set yo ys xo xs sdata value = Ret out ->
  channel_get yo' ys xo' xs out = channel_get yo' ys xo' xs sdata.
Proof.
  intros Hy Hx Hy' Hx' Hne. unfold channel_set. case_decide as Hshape; [|done].
  intros [= <-]. unfold channel_get in *.
  destruct (decide (yo = yo')) as [<-|Hyne].
  - assert (xo <> xo') as Hxne by congruence.
    unfold shape in Hshape. rewrite map_map in Hshape.
    assert (Hlen : length value = length (slice_step yo ys sdata)).
    { by rewrite <- (length_map length value), Hshape, length_map. }
    rewrite slice_assign_same by (done || lia).
    apply zip_with_map_same; [done|]. intros row vrow _.
    by apply slice_assign_other.
  - by rewrite slice_assign_other.
Qed.

Context {Transform : Type} (warp : Transform -> plane P -> plane P).
Context (pattern_shape : nat * nat).

Local Abbreviation warp_channel' := (warp_channel P Transform warp pattern_shape).
Local Abbreviation channels' := (channels pattern_shape).

Lemma channels_spec (c : nat * nat) :
  In c channels' <-> (fst c < fst pattern_shape)%nat /\ (snd c < snd pattern_shape)%nat.
Proof.
  unfold channels. rewrite <- list_elem_of_In, list_elem_of_bind. split.
  - intros (yo & Hc & Hyo). apply list_elem_of_bind in Hc as (xo & Hc & Hxo).
    apply list_elem_of_singleton in Hc as ->.
    apply list_elem_of_In, in_seq in Hyo, Hxo. simpl. lia.
  - intros [Hy Hx]. exists (fst c). split; [|apply list_elem_of_In, in_seq; lia].
    apply list_elem_of_bind. exists (snd c). split; [|apply list_elem_of_In, in_seq; lia].
    destruct c. apply list_elem_of_singleton. done.
Qed.

Lemma channels_NoDup : NoDup channels'.
Proof.
  unfold channels. apply NoDup_bind.
  - intros yo yo' c _ _ Hc Hc'.
    apply list_elem_of_bind in Hc as (xo & Hc & _), Hc' as (xo' & Hc' & _).
    apply list_elem_of_singleton in Hc, Hc'. congruence.
  - intros yo _. apply NoDup_bind.
    + intros xo xo' c _ _ Hc Hc'. apply list_elem_of_singleton in Hc, Hc'. congruence.
    + intros xo _. apply NoDup_singleton.
    + apply NoDup_ListNoDup, seq_NoDup.
  - apply NoDup_ListNoDup, seq_NoDup.
Qed.

Hypothesis warp_shape : forall t c, shape (warp t c) = shape c.

Lemma warp_channel_eq t (sdata : list (list P)) c :
  warp_channel' t sdata c
  = channel_set (fst c) (fst pattern_shape) (snd c) (snd pattern_shape) sdata
      (warp t (channel_get (fst c) (fst pattern_shape) (snd c) (snd pattern_shape) sdata)).
Proof. unfold warp_channel. by destruct pattern_shape. Qed.

(** The loop over a list of distinct channels of the pattern: the channels
    of the list are warped, each from what the component held on entry, and
    the others are as they were. *)
Lemma warp_loop t (cs : list (nat * nat)) (sdata : list (list P)) :
  NoDup cs ->
  (forall c, In c cs -> In c channels') ->
  exists out,
    py_fold (warp_channel' t) cs sdata = Ret out /\
    shape out = shape sdata /\
    forall c, In c channels' ->
      channel_get (fst c) (fst pattern_shape) (snd c) (snd pattern_shape) out
      = if bool_decide (c ∈ cs)
        then warp t (channel_get (fst c) (fst pattern_shape) (snd c) (snd pattern_shape) sdata)
        else channel_get (fst c) (fst pattern_shape) (snd c) (snd pattern_shape) sdata.
Proof.
  intros Hnd. revert sdata. induction Hnd as [|c0 cs Hc0 Hnd IH]; intros sdata Hin.
  - exists sdata. split; [done|]. split; [done|]. intros c _.
    by rewrite bool_decide_eq_false_2 by apply not_elem_of_nil.
  - cbn [py_fold].
    assert (Hc0in : In c0 channels') by (apply Hin; by left).
    pose proof (proj1 (channels_spec c0) Hc0in) as [Hy0 Hx0].
    set (ys := fst pattern_shape) in *. set (xs := snd pattern_shape) in *.
    assert (exists s1, warp_channel' t sdata c0 = Ret s1) as [s1 Hs1].
    { rewrite warp_channel_eq. unfold channel_set.
      rewrite decide_True by apply warp_shape. by eexists. }
    rewrite Hs1. cbn [mbind py_bind].
    destruct (IH s1) as (out & Hout & Hshape & Hch); [intros c Hc; apply Hin; by right|].
    exists out. split; [exact Hout|].
    rewrite warp_channel_eq in Hs1. fold ys xs in Hs1.
    split; [by rewrite Hshape, (channel_set_shape _ _ _ _ _ _ _ Hs1)|].
    intros c Hc. rewrite (Hch c Hc).
    pose proof (proj1 (channels_spec c) Hc) as [Hy Hx]. fold ys xs in Hy, Hx.
    destruct (decide (c = c0)) as [->|Hne].
    + rewrite bool_decide_eq_false_2 by done.
      rewrite bool_decide_eq_true_2 by apply list_elem_of_here.
      eapply (channel_get_set_same (fst c0) ys (snd c0) xs sdata); [lia|lia|exact Hs1].
    + assert (Hother : channel_get (fst c) ys (snd c) xs s1
                       = channel_get (fst c) ys (snd c) xs sdata).
      { eapply (channel_get_set_other (fst c0) ys (snd c0) xs (fst c) (snd c) sdata);
          [done|done|done|done| |exact Hs1]. destruct c, c0. simpl. congruence. }
      destruct (decide (c ∈ cs)) as [Hcs|Hcs].
      * rewrite !bool_decide_eq_true_2; [by rewrite Hother|by apply list_elem_of_further|done].
      * rewrite !bool_decide_eq_false_2; [exact Hother| |done].
        intros Hc'. apply elem_of_cons in Hc' as [?|?]; done.
Qed.

End Channels.

Section WarpedDataset.

Context {P Transform : Type} (warp : Transform -> plane P -> plane P).
Context (demargin : plane P -> plane P).
Context (pattern_shape : nat * nat).
Context {RawState Luma F : Type} (F_ltb : F -> F -> bool).
Context (set_raw_image : RawState -> plane P -> RawState).
Context (aligned_luma_of : RawState -> Luma).
Context (similarity : Transform -> option Z -> option Z -> Luma -> Luma -> py F).

Local Abbreviation warp_channels' := (warp_channels P Transform warp pattern_shape).
Local Abbreviation warp_dataset' := (warp_dataset P Transform warp demargin pattern_shape).

Lemma warp_channels_spec t (sdata : list (list P)) :
  (forall t c, shape (warp t c) = shape c) ->
  exists out,
    warp_channels' t sdata = Ret out /\
    shape out = shape sdata /\
    forall yoffs xoffs,
      (yoffs < fst pattern_shape)%nat -> (xoffs < snd pattern_shape)%nat ->
      channel_get yoffs (fst pattern_shape) xoffs (snd pattern_shape) out
      = warp t (channel_get yoffs (fst pattern_shape) xoffs (snd pattern_shape) sdata).
Proof.
  intros Hw. unfold warp_channels.
  destruct (warp_loop warp pattern_shape Hw t (channels pattern_shape) sdata
              (channels_NoDup pattern_shape) (fun c H => H)) as (out & Hout & Hs & Hch).
  exists out. split; [exact Hout|]. split; [exact Hs|]. intros yo xo Hy Hx.
  assert (Hc : In (yo, xo) (channels pattern_shape)) by (by apply channels_spec).
  specialize (Hch (yo, xo) Hc). cbn [fst snd] in Hch.
  by rewrite bool_decide_eq_true_2 in Hch by (by apply list_elem_of_In).
Qed.

(** X27: when [warp] returns an array of the shape of its input, the two
    loops over the offsets of the pattern raise nothing, keep the shape of
    the component, and leave in each channel [sdata[yoffs::ysize,
    xoffs::xsize]] the warp of what this very channel held before the
    loops: no channel is read after another one has been written into it,
    so there is no crosstalk between the channels. *)
Theorem warp_channels_isolated t (sdata : plane P) :
  (forall t c, shape (warp t c) = shape c) ->
  exists out,
    warp_channels P Transform warp pattern_shape t sdata = Ret out /\
    shape out = shape sdata /\
    forall yoffs xoffs,
      (yoffs < fst pattern_shape)%nat -> (xoffs < snd pattern_shape)%nat ->
      channel_get yoffs (fst pattern_shape) xoffs (snd pattern_shape) out
      = warp t (channel_get yoffs (fst pattern_shape) xoffs (snd pattern_shape) sdata).
Proof. apply warp_channels_spec. Qed.

Lemma warp_dataset_spec t (dataset : list (option (plane P))) :
  (forall t c, shape (warp t c) = shape c) ->
  exists dataset',
    warp_dataset' t dataset = Ret dataset' /\
    Forall2 (fun sdata sdata' =>
               match sdata, sdata' with
               | None, None => True
               | Some d, Some d' => warp_channels' t (demargin d) = Ret d'
               | _, _ => False
               end) dataset dataset'.
Proof.
  intros Hw. unfold warp_dataset. induction dataset as [|sdata dataset IH]; cbn [py_map].
  - exists []. split; [done|constructor].
  - destruct IH as (rest & -> & HF).
    destruct sdata as [d|]; cbn [mbind py_bind].
    + destruct (warp_channels_spec t (demargin d) Hw) as (d' & Hd' & _).
      rewrite Hd'. cbn [mbind py_bind]. eexists. split; [done|]. by constructor.
    + eexists. split; [done|]. by constructor.
Qed.

(** X28: when [warp] keeps the shape of its input, a call of
    [apply_transform] on one array or on a non-empty list of components,
    without [min_sim] or before any reference luma is set, raises nothing
    and never rejects the frame: it returns the data set, in which a
    missing component is still missing and every other one has been
    demargined and warped channel by channel. Without [min_sim] the raw
    and the reference luma are not touched; with it, the aligned luma of
    the first component present becomes the reference. *)
Theorem apply_transform_accepts min_sim (self : AlignState RawState Luma) data dataset t :
  (forall t c, shape (warp t c) = shape c) ->
  as_dataset data = Ret dataset ->
  min_sim = None \/ ref_luma self = None ->
  exists self' dataset',
    apply_transform P Transform warp demargin pattern_shape RawState Luma F F_ltb
                    set_raw_image aligned_luma_of similarity min_sim self data t
      = Ret (self', dataset', Some dataset') /\
    Forall2 (fun sdata sdata' =>
               match sdata, sdata' with
               | None, None => True
               | Some d, Some d' =>
                   warp_channels P Transform warp pattern_shape t (demargin d) = Ret d'
               | _, _ => False
               end) dataset dataset' /\
    (min_sim = None -> self' = self) /\
    (forall imgdata, min_sim <> None -> first_component dataset' = Some imgdata ->
       ref_luma self' = Some (aligned_luma_of (set_raw_image (align_raw self) imgdata))).
Proof.
  intros Hw Hd Hcase. unfold apply_transform. rewrite Hd. cbn [mbind py_bind].
  destruct (warp_dataset_spec t dataset Hw) as (dataset' & -> & HF). cbn [mbind py_bind].
  destruct (first_component dataset') as [imgdata|] eqn:Hfirst.
  - destruct min_sim as [ms|].
    + destruct Hcase as [?|Href]; [done|]. rewrite Href.
      eexists _, dataset'. split; [done|]. split; [exact HF|]. split; [done|].
      intros img _ Himg. rewrite Hfirst in Himg. by injection Himg as <-.
    + exists self, dataset'. split; [done|]. split; [exact HF|]. split; [done|].
      intros img Hms. by destruct Hms.
  - exists self, dataset'. split; [by destruct min_sim|]. split; [exact HF|]. split; [done|].
    intros img _ Himg. congruence.
Qed.

End WarpedDataset.

Lemma rig_warp_shape (t : unit) (c : plane Z) : shape (RigWarp.warp t c) = shape c.
Proof.
  unfold shape, RigWarp.warp. rewrite map_map. apply map_ext. intros row. apply length_map.
Qed.

Lemma warp_channels_isolated_witness :
  (forall t c, shape (RigWarp.warp t c) = shape c) /\
  exists out,
    warp_channels Z unit RigWarp.warp RigWarp.pattern_shape tt RigWarp.sample = Ret out /\
    shape out = shape RigWarp.sample /\
    forall yoffs xoffs,
      (yoffs < fst RigWarp.pattern_shape)%nat -> (xoffs < snd RigWarp.pattern_shape)%nat ->
      channel_get yoffs (fst RigWarp.pattern_shape) xoffs (snd RigWarp.pattern_shape) out
      = RigWarp.warp tt (channel_get yoffs (fst RigWarp.pattern_shape)
                                     xoffs (snd RigWarp.pattern_shape) RigWarp.sample).
Proof.
  split; [exact rig_warp_shape|].
  apply (warp_channels_isolated RigWarp.warp RigWarp.pattern_shape tt RigWarp.sample).
  exact rig_warp_shape.
Defined.

Example warp_channels_sample :
  warp_channels Z unit RigWarp.warp RigWarp.pattern_shape tt RigWarp.sample
  = Ret [[101; 102; 103; 104; 105]; [106; 107; 108; 109; 110]; [111; 112; 113; 114; 115]].
Proof. vm_compute. reflexivity. Qed.

Lemma apply_transform_accepts_witness :
  let self := mkAlign tt (@None unit) None None in
  let dataset := [None; Some RigWarp.sample] in
  (forall t c, shape (RigWarp.warp t c) = shape c) /\
  as_dataset (Components dataset) = Ret dataset /\
  (@None Q = None \/ ref_luma self = None) /\
  exists self' dataset',
    RigWarp.apply_transform None self (Components dataset) tt
      = Ret (self', dataset', Some dataset') /\
    Forall2 (fun sdata sdata' =>
               match sdata, sdata' with
               | None, None => True
               | Some d, Some d' =>
                   warp_channels Z unit RigWarp.warp RigWarp.pattern_shape tt
                                 (RigWarp.demargin d) = Ret d'
               | _, _ => False
               end) dataset dataset' /\
    (@None Q = None -> self' = self) /\
    (forall imgdata, @None Q <> None -> first_component dataset' = Some imgdata ->
       ref_luma self' = Some tt).
Proof.
  intros self dataset. split; [exact rig_warp_shape|]. split; [reflexivity|].
  split; [by left|].
  apply (apply_transform_accepts RigWarp.warp RigWarp.demargin RigWarp.pattern_shape Qltb
           (fun _ _ => tt) (fun _ => tt) (fun _ _ _ _ _ => Ret 0%Q)
           None self (Components dataset) dataset tt);
    [exact rig_warp_shape|reflexivity|by left].
Defined.

(** ** Raw: the preview and the buffer *)

Section RawPreview.

Context {Preview : Type} (imread : image) (rawpy_postprocess : image -> Preview).
Context {E : Type} (E_ltb E_eqb : E -> E -> bool) (shannon : list Z -> E).
Context (steps maxsteps : Z) (mink : Q).

(** X29: [denoise] changes the sensor buffer and nothing else. A preview
    rendered before the call is still what [postprocessed] returns after
    it, although [postprocess()] would now render the denoised buffer; and
    after [close()] the buffer is read from the file again, so the
    denoising is lost. *)
Theorem denoise_keeps_stale_preview rounds fuel name (self self' : RawObject Preview)
    darks preview :
  _postprocessed self = Some preview ->
  denoise_object Preview imread E E_ltb E_eqb shannon steps maxsteps mink rounds fuel
                 name self darks = Some (Ret self') ->
  postprocessed imread rawpy_postprocess self' = (self', preview) /\
  (exists triples out,
     denoise E E_ltb E_eqb shannon steps maxsteps mink rounds fuel
             (mkRaw name (snd (rimg imread self))) darks = Some (Ret (triples, out)) /\
     _rimg self' = Some out /\
     snd (postprocess imread rawpy_postprocess self') = rawpy_postprocess out) /\
  rimg imread (close self') = (mkRawObject (Some imread) None (S (reads self')), imread).
Proof.
  intros Hp. unfold denoise_object.
  destruct (rimg imread self) as [self1 buffer] eqn:Hrimg. cbn [snd].
  assert (Hp1 : _postprocessed self1 = Some preview).
  { unfold rimg in Hrimg. destruct (_rimg self); injection Hrimg as <- _; done. }
  destruct (denoise _ _ _ _ _ _ _ _ _ _ _) as [[[triples out]|]|]; try done.
  intros [= <-]. split; [|split].
  - unfold postprocessed. cbn [_postprocessed]. by rewrite Hp1.
  - by exists triples, out.
  - done.
Qed.

End RawPreview.

Lemma denoise_keeps_stale_preview_witness :
  let imread := raw_pixels Samples.light in
  let self := fst (postprocessed imread RigShared.preview raw_new) in
  let self' := mkRawObject (Some [20; 20; 20; 20; 20; 20]) (Some 120) 1%nat in
  let darks := [Samples.dark1; Samples.dark2] in
  _postprocessed self = Some 120 /\
  RigShared.denoise_object 3%nat 4%nat 0 self darks = Some (Ret self') /\
  postprocessed imread RigShared.preview self' = (self', 120) /\
  (exists triples out,
     denoise Z Rank.ltb Rank.eqb Rank.shannon Samples.steps Samples.maxsteps Samples.mink
             3%nat 4%nat (mkRaw 0 (snd (rimg imread self))) darks
       = Some (Ret (triples, out)) /\
     _rimg self' = Some out /\
     snd (postprocess imread RigShared.preview self') = RigShared.preview out) /\
  rimg imread (close self') = (mkRawObject (Some imread) None (S (reads self')), imread).
Proof.
  intros imread self self' darks.
  split; [by_computation|]. split; [by_computation|].
  apply (denoise_keeps_stale_preview imread RigShared.preview Rank.ltb Rank.eqb Rank.shannon
           Samples.steps Samples.maxsteps Samples.mink 3%nat 4%nat 0 self self' darks 120);
    by_computation.
Defined.

(** ** GridTrackingRop: registrations that share a cache *)

Section SharedCacheHits.

Context {F : Type} (F_ltb : F -> F -> bool) (F_of_Z : Z -> F) (F_div : F -> Z -> F).
Context (median : list F -> F).
Context {Transform : Type}.
Context (estimate_transform : list (F * F) -> list (F * F) -> Transform).
Context (shift_mag : Transform -> F * F -> F * F -> F).
Context (limit : F).
Context {Frame : Type} (frame_key : Frame -> Key).
Context {RawState Luma : Type}.
Context (set_raw_image : RawState -> Frame -> RawState) (luma_of : RawState -> Luma).
Context (vshape_of lshape_of : RawState -> Z * Z).
Context (deglow : option (Frame -> Frame)).
Context {TrackerState : Type}.
Context (tracker_detect :
  TrackerState -> Frame -> option Frame -> Luma -> py (TrackerState * (F * F * F * F))).
Context (pattern_shape : Z * Z).
Context {TrackerSaved : Type}.
Context (tracker_class : RawState -> TrackerState).
Context (tracker_set_reference : TrackerState -> Z * Z -> TrackerState).
Context (tracker_load_state : TrackerState -> TrackerSaved -> TrackerState).

Local Abbreviation detect_shared' :=
  (detect_shared F F_ltb F_of_Z F_div median Transform estimate_transform shift_mag limit
                 Frame frame_key RawState Luma set_raw_image luma_of vshape_of lshape_of
                 deglow TrackerState tracker_detect pattern_shape).
Local Abbreviation load_state_shared' :=
  (load_state_shared F RawState TrackerState TrackerSaved tracker_class
                     tracker_set_reference tracker_load_state).

(** A call through a reference that returns leaves the measurement in the
    dictionary behind the reference. *)
Lemma detect_shared_fills (store : Store F) l cache0 fields data img set_data luma
    store1 self1 r :
  store !! l = Some cache0 ->
  detect_shared' store (mkSharedRop (Some l) fields) data img set_data luma
    = (store1, self1, Some (Ret r)) ->
  exists cache entry,
    store1 !! l = Some cache /\
    cache !! frame_key (default data img) = Some entry /\
    snd (detect_fit F F_ltb F_of_Z F_div median Transform estimate_transform shift_mag
                    limit pattern_shape entry) = Some (Ret r).
Proof.
  intros Hl. unfold detect_shared. cbn [cache_ref rop_fields].
  destruct (detect _ _ _ _ _ _ _ _ _ _ _ _ _ _ _ _ _ _ _ _ _ _ _ _ _ _) as [rop1 res] eqn:Hd.
  intros [= <- _ ->].
  destruct (detect_fills_cache _ _ _ _ _ _ _ _ _ _ _ _ _ _ _ _ _ _ _ _ _ _ Hd)
    as (cache & entry & Hc & He & Hr).
  exists cache, entry. rewrite Hc. cbn [default from_option].
  split; [|done]. apply list_lookup_insert_eq. by eapply lookup_lt_Some.
Qed.

(** A call through a reference to a dictionary that holds a measurement
    for the frame: no tracker is asked and the store is as it was. *)
Lemma detect_shared_hit (store : Store F) l cache entry fields data img set_data luma :
  store !! l = Some cache ->
  cache !! frame_key (default data img) = Some entry ->
  exists ly lx,
    detect_shared' store (mkSharedRop (Some l) fields) data img set_data luma
    = (store,
       mkSharedRop (Some l)
         (mkRop (raw fields) (trackers fields) (Some cache) ly lx (tracker_calls fields)),
       snd (detect_fit F F_ltb F_of_Z F_div median Transform estimate_transform shift_mag
                       limit pattern_shape entry)).
Proof.
  intros Hl He. unfold detect_shared. cbn [cache_ref rop_fields].
  unfold deref. cbn [mbind option_bind]. rewrite Hl.
  set (self0 := mkRop (raw fields) (trackers fields) (Some cache) (lyscale fields)
                      (lxscale fields) (tracker_calls fields)).
  destruct (detect_hit F_ltb F_of_Z F_div median estimate_transform shift_mag limit
              frame_key set_raw_image luma_of vshape_of lshape_of deglow tracker_detect
              pattern_shape self0 data img set_data luma cache entry eq_refl He)
    as (ly & lx & Hd).
  rewrite Hd. exists ly, lx. subst self0. simpl.
  do 2 f_equal. apply list_insert_id. exact Hl.
Qed.

(** X30: [load_state] takes the cache dictionary of the saved state
    itself, not a copy. Two registrations that have loaded the same state
    (saved with a cache) share it: once one of them has measured a frame,
    [detect] of the other one for a frame with the same key asks no tracker
    and returns the same result, and the measurement is also in the cache
    of the saved state. *)
Theorem restored_registrations_share_cache (store : Store F)
    (state : SharedState TrackerSaved) (selfA selfB : SharedRop F RawState TrackerState)
    l cache0 data img set_data luma store1 selfA1 r data' img' set_data' luma' :
  shared_cache state = Some l ->
  store !! l = Some cache0 ->
  detect_shared F F_ltb F_of_Z F_div median Transform estimate_transform shift_mag limit
                Frame frame_key RawState Luma set_raw_image luma_of vshape_of lshape_of
                deglow TrackerState tracker_detect pattern_shape
                store
                (load_state_shared F RawState TrackerState TrackerSaved tracker_class
                                   tracker_set_reference tracker_load_state selfA state)
                data img set_data luma
    = (store1, selfA1, Some (Ret r)) ->
  frame_key (default data' img') = frame_key (default data img) ->
  let selfB0 := load_state_shared F RawState TrackerState TrackerSaved tracker_class
                                  tracker_set_reference tracker_load_state selfB state in
  let out :=
    detect_shared F F_ltb F_of_Z F_div median Transform estimate_transform shift_mag limit
                  Frame frame_key RawState Luma set_raw_image luma_of vshape_of lshape_of
                  deglow TrackerState tracker_detect pattern_shape
                  store1 selfB0 data' img' set_data' luma' in
  snd out = Some (Ret r) /\
  tracker_calls (rop_fields (snd (fst out))) = tracker_calls (rop_fields selfB) /\
  fst (fst out) = store1 /\
  exists cache entry,
    deref store1 (shared_cache state) = Some cache /\
    cache !! frame_key (default data img) = Some entry.
Proof.
  intros Hs Hl HA Hkey selfB0 out.
  unfold load_state_shared in HA. rewrite Hs in HA.
  destruct (detect_shared_fills _ _ _ _ _ _ _ _ _ _ _ Hl HA)
    as (cache & entry & Hc & He & Hr).
  assert (Hout : snd out = Some (Ret r) /\
                 tracker_calls (rop_fields (snd (fst out))) = tracker_calls (rop_fields selfB) /\
                 fst (fst out) = store1).
  { subst out selfB0. unfold load_state_shared. rewrite Hs.
    rewrite <- Hkey in He.
    destruct (detect_shared_hit store1 l cache entry
                (mkRop (raw (rop_fields selfB))
                   (zip_with (restore_tracker tracker_class tracker_set_reference
                                tracker_load_state (raw (rop_fields selfB)))
                      (shared_grid_coords state) (shared_trackers state))
                   None (lyscale (rop_fields selfB)) (lxscale (rop_fields selfB))
                   (tracker_calls (rop_fields selfB)))
                data' img' set_data' luma' Hc He) as (ly & lx & ->).
    cbn [fst snd rop_fields tracker_calls]. by rewrite Hr. }
  destruct Hout as (H1 & H2 & H3). repeat split; try done.
  exists cache, entry. rewrite Hs. unfold deref. cbn [mbind option_bind].
  split; [exact Hc|exact He].
Qed.

End SharedCacheHits.

Lemma restored_registrations_share_cache_witness :
  let r := Some ((1, 0, 0, 0)%Q, 1, 1) in
  let selfA0 := RigShared.load_state_shared RigShared.blank RigShared.state in
  let outA := RigShared.detect_shared RigShared.store selfA0 7 None true None in
  shared_cache RigShared.state = Some O /\
  RigShared.store !! O = Some ∅ /\
  outA = (fst (fst outA), snd (fst outA), Some (Ret r)) /\
  @inr string Z (default 7 (Some 7)) = inr (default 7 None) /\
  let selfB0 := RigShared.load_state_shared RigShared.blank RigShared.state in
  let out := RigShared.detect_shared (fst (fst outA)) selfB0 7 (Some 7) false None in
  snd out = Some (Ret r) /\
  tracker_calls (rop_fields (snd (fst out))) = tracker_calls (rop_fields RigShared.blank) /\
  fst (fst out) = fst (fst outA) /\
  exists cache entry,
    deref (fst (fst outA)) (shared_cache RigShared.state) = Some cache /\
    cache !! @inr string Z (default 7 None) = Some entry.
Proof.
  intros r selfA0 outA.
  split; [reflexivity|]. split; [reflexivity|]. split; [by_computation|].
  split; [reflexivity|].
  apply (restored_registrations_share_cache Qltb inject_Z Exact.div_Z Exact.median
           Exact.estimate Exact.shift_mag 2%Q (fun f => inr f) (fun _ _ => tt) (fun _ => tt)
           (fun _ => (1800, 1800)) (fun _ => (1800, 1800)) None Rig.tracker_detect (2, 2)
           RigState.tracker_class RigState.tracker_set_reference RigState.tracker_load_state
           RigShared.store RigShared.state RigShared.blank RigShared.blank
           O ∅ 7 None true None (fst (fst outA)) (snd (fst outA)) r 7 (Some 7) false None);
    [reflexivity|reflexivity|by_computation|reflexivity].
Defined.
